(* ===== verification/_CoqProject ===== *)
-Q . S2P
Prelude.v
Linux.v
Platform.v
Uinput.v
CString.v
Adc.v
Config.v
Gpio.v
Emitter.v
Driver.v
Program.v
