(* ===== verification/Prelude.v ===== *)
(** * A verification development of the MAX186 configurable gamepad driver

    The program is [src/gamepad_driver.c].  It is a single-threaded
    user-space driver.  [main] (lines 147-214) works in three phases:
    - it loads [gamepad.conf] into a table of button bindings
      ([load_config], lines 57-92);
    - it opens the MAX186 ADC on [/dev/spidev0.0], exports every
      configured GPIO line through sysfs ([export_gpio], lines 94-115),
      and registers a virtual gamepad with [/dev/uinput] (lines 157-181);
    - it loops forever ([while (1)], lines 183-209).  Each iteration
      samples the four stick axes ([read_adc], lines 128-140) and
      scales them ([scale_axis], lines 142-145).  It reads every
      button ([read_gpio], lines 117-126) and writes one batch: four
      [EV_ABS] events, one [EV_KEY] per binding, one [SYN_REPORT].

    ** Files, in dependency order

    - [Prelude] (this file) holds what every component shares:
      - the scope [gamepad_scope] and the hint databases [gamepad] and
        [gamepad_rw];
      - the C integer model: 32-bit [int] ([in_int]), [uint8_t]
        conversion ([to_uint8]), truncating division ([c_div]);
      - finite checks by evaluation ([forallb_seqZ_spec]) and generic
        list lemmas.
    - [Linux] holds the kernel ABI: event types and codes, the [BTN_*]
      key codes, and [struct input_event] and [struct uinput_user_dev]
      as Records.
    - [Platform] is the process's view of the kernel.
      - A [world] holds three things: the environment's answers ([env],
        functions of the call history), the descriptor table, and the
        log of every system call.
      - Programs are values of the state and error monad [M], whose
        outcome is [Done], [Exited status], [Undefined] or [Running]
        (the endless loop still going when the model stops following
        it; [while_true] is [while (1)] observed for [fuel] rounds).
      - Each of [open], [close], [read], [write], [ioctl], [access],
        [usleep], [gettimeofday], [fopen] and [perror]/[printf] is one
        [sys_*] operation that appends one log entry.  [open] returns
        the lowest free descriptor from 3.
      - [uinput_traffic] is what [/dev/uinput] receives: every write
        and ioctl on a descriptor open on it, in order.
        [uinput_stream] is its [input_event] part, which is what
        consumers see.
      - Reasoning is by the weakest precondition [wp], which also
        states normal completion.  The frames [frame] and [emits] say
        what a piece of code sent to the device and that it left the
        descriptor table and the environment alone.
    - [Uinput] states the contract of the kernel's legacy uinput
      device ([Module UinputDev]).  The device is a state machine
      ([step], [steps], with [next]/[run] executable and proved equal
      to the relation).  Capabilities are added before [UI_DEV_CREATE],
      which freezes them ([steps_frozen], by rule induction).  After
      creation each event is delivered when supported and silently
      dropped otherwise.
    - [CString] ([Module CLib]) holds the C library pieces the
      configuration parser uses: [fgets] buffers of [MAX_LINE] bytes,
      [strcspn]-style line cutting, [strchr] splitting, [atoi],
      [strncpy] of 31 characters, and [%d] printing.
    - [Adc] holds the Analog Channel Reader and the Axis Scaler:
      [adc_ctrl_byte], [adc_transfer], [adc_rx], [adc_value],
      [read_adc] and [scale_axis].  Its [Module MAX186] is the
      converter's datasheet contract: channel selection and the
      response framing.
    - [Config] holds the Configuration Model.  It models the table
      [buttons[MAX_BUTTONS]]/[button_count] ([globals],
      [store_button]) and [map_button_name].  One loop body per
      [fgets] buffer is [config_line]; the whole function is
      [load_config].  Beside them sit a pure reading of a file
      ([config_entry], [config_spec]: the loop body's parse, without
      its effects), the spec's name table ([button_table]), and the
      printer [config_text] of a table as [NAME=NUMBER] lines.
    - [Gpio] holds the Digital Line Reader, [export_gpio] and
      [read_gpio].
    - [Emitter] holds event writes ([emit]), the registration
      sequence ([uinput_setup], [uidev]) and the traffic it sends
      ([registration], [reg_caps]).
    - [Driver] holds the Sampling Loop: one iteration [cycle], the
      first [n] iterations [sampling_loop n], and [main n], the
      program up to its [n]-th iteration.
    - [Program] holds [main] as written, [main_program fuel]: the
      same setup, the loop as [while_true fuel] (a [while (1)] followed
      for [fuel] rounds, then [Running]), and the code after it
      ([teardown], lines 210-213).  It also holds [safe], a program
      logic for safety over the monad (log entries, exit statuses,
      results), with one rule per construct and system call, the hint
      database [safety] and the tactic [safe_solve].

    ** What the theorems show

    - The loop ([Driver]):
      - one iteration completes and writes exactly one batch of the
        spec's shape and order;
      - against a fixed hardware state (the MAX186 answering with the
        sample of the input each control byte selects, every line's
        value file holding a byte), the batch carries exactly that
        state: CH0 to CH3 scaled onto [ABS_X], [ABS_Y], [ABS_RX],
        [ABS_RY], and each binding's level;
      - for every [n], [n] iterations complete with [n] batches;
      - end to end, [main] delivers [n] batches for the loaded
        bindings, and against a fixed hardware state each batch
        carries that state (the spec's section 8 scenario, for any
        configuration);
      - every event [main] delivers is a well-typed
        [struct input_event], and each key event carries a loaded
        binding's code untruncated;
      - the kernel's uinput device accepts the whole traffic: it is
        created with the registered capabilities, and every event
        written is supported and delivered (the spec's section 3
        invariant);
      - a failed [/dev/uinput] open is not fatal, while a failed SPI
        open exits with status 1.
    - The whole program ([Program]): the teardown is dead code; no
      run destroys the device or returns, and the only exit is
      status 1.
    - GPIO ([Gpio]):
      - [read_gpio] reports pressed exactly when the value file opens
        and holds ['1'], and closes what it opens;
      - [export_gpio]'s [char buf[8]] holds the line number whole
        exactly for [-999999 .. 9999999].
    - Configuration ([Config]):
      - [load_config] builds exactly the table of bindings its lines
        denote, read the way its own loop body reads them
        ([config_spec]: split at the first ['='], [atoi] leniency);
        this is the code's reading, not the spec's stricter
        one-['='] format;
      - printing a table as [NAME=NUMBER] lines and loading the file
        gives the table back (parse after print is the identity);
      - [map_button_name] is the spec's sixteen-name table;
      - whatever the file holds, only recognised names with their
        own codes reach the table;
      - storing more than [MAX_BUTTONS] bindings is undefined
        behaviour (no cap is enforced);
      - it prints one diagnostic line per accepted binding, and a
        missing file leaves the table unchanged.
    - ADC and scaling ([Adc]):
      - the reconstruction refines the MAX186 framing;
      - bounds hold on any bus answer;
      - the control-byte fields are right, and channels alias;
      - scaling has its range, mirror law and monotonicity; on what
        [read_adc] returns its [int] arithmetic never overflows; and
        it leaves [[0, UINPUT_AXIS_MAX]] exactly from 2057 on (no
        clamping).

    ** Bounds and fuel

    - [main n], [sampling_loop n] and [main_program n] take the
      number of loop iterations.  [while (1)] never ends, so each [n]
      is a prefix of the one infinite run.  After [n] rounds
      [main_program] reports [Running]; it never invents an end of
      the loop.  The loop theorems hold for every [n]: no iteration
      blocks, exits or skips a batch.
    - [CLib.fgets_chunks] recurses on fuel [String.length contents].
      Each call consumes at least one character, and the buffers it
      produces with that fuel concatenate back to the whole file
      ([fgets_chunks_fuel_concat]), so the fuel is enough.
    - [fresh_fd] searches [length fds + 1] candidates.  By pigeonhole
      ([fresh_fd_not_in]), one of them is free.
    - Integers are kept at their C width where overflow matters:
      - [atoi] results outside [int] are undefined behaviour;
      - the scaling product is checked against [INT_MAX] on every
        value [read_adc] returns, by evaluation over the 4096 values;
      - bytes are reduced modulo 2^8 and event codes modulo 2^16.

    ** Not modelled

    - The kernel and the C library are the environment.  The
      environment's answers are arbitrary functions of the call
      history, except the uinput contract stated in [Uinput].  Timing
      ([usleep]) has no effect beyond its log entry.
    - Every print is logged ([Platform.output]): the binding lines
      in full ([fmt_button]), and [perror]'s argument.  The
      [": strerror(errno)"] suffix of [perror], and the split between
      stdout and stderr, belong to the C library and are not
      represented.
    - The teardown after the loop (lines 210-213) is modelled
      ([teardown]) and proved unreachable; a termination signal, which
      is what ends the process in practice, is outside the program.
    - The input core's processing after delivery (evdev clients,
      filtering of repeated values) is not modelled. *)

From Stdlib Require Import ZArith Lia.
From stdpp Require Import base list.

Declare Scope gamepad_scope.
Delimit Scope gamepad_scope with gp.
Create HintDb gamepad.
Create Rewrite HintDb gamepad_rw.

Open Scope Z_scope.

(** ** The C integer model *)

(** [int] is 32-bit two's complement on the target (ARM Linux). *)
Definition INT_MIN : Z := - 2 ^ 31.
Definition INT_MAX : Z := 2 ^ 31 - 1.

(** A value is representable in an [int]; arithmetic whose result falls
    outside is undefined behaviour in C. *)
Definition in_int (z : Z) : bool := (INT_MIN <=? z) && (z <=? INT_MAX).

(** Conversion to [uint8_t] (C11 6.3.1.3p2): reduction modulo 2^8. *)
Definition to_uint8 (z : Z) : Z := z mod 2 ^ 8.

(** C's [/] on integers truncates toward zero: [Z.quot]. *)
Definition c_div (a b : Z) : Z := Z.quot a b.

Lemma to_uint8_range z : 0 <= to_uint8 z < 256.
Proof. unfold to_uint8. apply Z.mod_pos_bound. reflexivity. Qed.

Lemma to_uint8_small z : 0 <= z < 256 -> to_uint8 z = z.
Proof. intros H. unfold to_uint8. apply Z.mod_small. simpl. lia. Qed.

Lemma c_div_nonneg a b : 0 <= a -> 0 < b -> c_div a b = a / b.
Proof. intros. unfold c_div. apply Z.quot_div_nonneg; lia. Qed.

Lemma in_int_spec z : in_int z = true <-> INT_MIN <= z <= INT_MAX.
Proof. unfold in_int. rewrite andb_true_iff, !Z.leb_le. tauto. Qed.

#[export] Hint Resolve to_uint8_range : gamepad.
#[export] Hint Rewrite c_div_nonneg using lia : gamepad_rw.

(** ** Bit-field lemmas *)

(** OR-ing a value into the low [n] bits left free by a shift is an
    addition. *)
Lemma lor_shiftl_low a b n :
  0 <= n -> 0 <= b < 2 ^ n -> Z.lor (Z.shiftl a n) b = a * 2 ^ n + b.
Proof.
  intros Hn Hb.
  assert (Hland : Z.land (Z.shiftl a n) b = 0).
  { apply Z.bits_inj'. intros m Hm. rewrite Z.land_spec, Z.bits_0.
    destruct (Z.lt_ge_cases m n) as [Hlt|Hge].
    - rewrite Z.shiftl_spec_low by lia. reflexivity.
    - destruct (Z.eq_dec b 0) as [->|Hb0]; [rewrite Z.bits_0; apply andb_false_r|].
      rewrite (Z.bits_above_log2 b m); [apply andb_false_r|lia|].
      assert (Z.log2 b < n) by (apply Z.log2_lt_pow2; lia). lia. }
  pose proof (Z.add_lor_land (Z.shiftl a n) b) as Hadd.
  rewrite Hland, Z.add_0_r in Hadd. rewrite Hadd, Z.shiftl_mul_pow2 by lia. reflexivity.
Qed.

(** ** Finite checks *)

(** A boolean property checked on every point of [lo, lo + n) by
    evaluation holds on the whole interval: the proof-by-evaluation
    step used for bounded hardware domains (bytes, 12-bit samples). *)
Lemma forallb_seqZ_spec (f : Z -> bool) lo n :
  forallb f (seqZ lo n) = true -> forall z, lo <= z < lo + n -> f z = true.
Proof.
  intros Hall z Hz. rewrite forallb_forall in Hall. apply Hall.
  apply list_elem_of_In, elem_of_seqZ. lia.
Qed.

Lemma forallb_Forall_true {A} (f : A -> bool) (l : list A) :
  forallb f l = true -> Forall (fun x => f x = true) l.
Proof.
  rewrite forallb_forall, Forall_forall. intros H x Hx.
  apply H, list_elem_of_In, Hx.
Qed.

(** ** Lists *)

(** A property of every [f a b] built from the items of [l]. *)
Lemma Forall_zip_with_l {A B C} (P : C -> Prop) (f : A -> B -> C) (l : list A) (k : list B) :
  (forall a b, a ∈ l -> P (f a b)) -> Forall P (zip_with f l k).
Proof.
  revert k. induction l as [|a l IH]; intros [|b k] H; simpl; constructor.
  - apply H. left.
  - apply IH. intros a' b' Ha'. apply H. right. exact Ha'.
Qed.

(** A relation that only looks at its right argument. *)
Lemma Forall2_snd {A B} (P : B -> Prop) (l : list A) (k : list B) :
  Forall2 (fun _ b => P b) l k -> Forall P k.
Proof. induction 1; constructor; assumption. Qed.

(** A relation that is a function of its left argument determines the
    right list. *)
Lemma Forall2_fun {A B} (f : A -> B) (l : list A) (k : list B) :
  Forall2 (fun a b => b = f a) l k -> k = f <$> l.
Proof. induction 1 as [|a b l k -> _ IH]; [done|]. simpl. rewrite IH. done. Qed.

(** Items each of the form [f x] are the image of a list of [x]s. *)
Lemma Forall_exists_fmap {A B} (f : A -> B) (l : list B) :
  Forall (fun b => exists a, b = f a) l -> exists xs, l = f <$> xs.
Proof.
  induction 1 as [|b l [a ->] _ [xs ->]]; [exists []; done|]. exists (a :: xs). done.
Qed.

(** A property of every [f a b] built from the items of [k]. *)
Lemma Forall_zip_with_r {A B C} (P : C -> Prop) (Q : B -> Prop) (f : A -> B -> C)
    (l : list A) (k : list B) :
  Forall Q k -> (forall a b, Q b -> P (f a b)) -> Forall P (zip_with f l k).
Proof.
  intros Hk Hf. revert l. induction Hk as [|b k Hb _ IH]; intros [|a l]; simpl; constructor.
  - apply Hf, Hb.
  - apply IH.
Qed.
