(* ===== verification/Linux.v ===== *)
(** * The Linux input ABI the driver programs against

    Constants of [linux/input-event-codes.h] and [linux/uinput.h] that
    [src/gamepad_driver.c] uses, with the kernel's numeric values, and
    the C structures it fills: [struct timeval], [struct input_event]
    and [struct uinput_user_dev].  These are the kernel's definitions,
    not code of the repository: the driver's code uses them, the
    components' files model what the driver puts in them. *)

From Stdlib Require Import ZArith String.
From stdpp Require Import base list strings.
From S2P Require Import Prelude.

Open Scope Z_scope.

(** ** Event types and codes *)

Definition EV_SYN : Z := 0x00.
Definition EV_KEY : Z := 0x01.
Definition EV_ABS : Z := 0x03.
Definition SYN_REPORT : Z := 0.

Definition ABS_X : Z := 0x00.
Definition ABS_Y : Z := 0x01.
Definition ABS_RX : Z := 0x03.
Definition ABS_RY : Z := 0x04.
(** Number of absolute axes: the length of [uidev.absmax]. *)
Definition ABS_CNT : Z := 0x40.

Definition BTN_A : Z := 0x130.
Definition BTN_B : Z := 0x131.
Definition BTN_X : Z := 0x133.
Definition BTN_Y : Z := 0x134.
Definition BTN_TL : Z := 0x136.
Definition BTN_TR : Z := 0x137.
Definition BTN_TL2 : Z := 0x138.
Definition BTN_TR2 : Z := 0x139.
Definition BTN_SELECT : Z := 0x13a.
Definition BTN_START : Z := 0x13b.
Definition BTN_THUMBL : Z := 0x13d.
Definition BTN_THUMBR : Z := 0x13e.
Definition BTN_DPAD_UP : Z := 0x220.
Definition BTN_DPAD_DOWN : Z := 0x221.
Definition BTN_DPAD_LEFT : Z := 0x222.
Definition BTN_DPAD_RIGHT : Z := 0x223.
(** Largest key code the input core accepts for [UI_SET_KEYBIT]. *)
Definition KEY_MAX : Z := 0x2ff.

Definition BUS_USB : Z := 0x03.
Definition UINPUT_MAX_NAME_SIZE : Z := 80.

(** ** Structures *)

Record timeval := mk_timeval { tv_sec : Z; tv_usec : Z }.

(** [struct input_event]: [type] and [code] are [__u16], [value] is
    [__s32]. *)
Record input_event := mk_input_event {
  ev_time : timeval;
  ev_type : Z;
  ev_code : Z;
  ev_value : Z
}.

(** [struct uinput_user_dev], the legacy setup record written to
    [/dev/uinput] before [UI_DEV_CREATE]. *)
Record uinput_user_dev := mk_uinput_user_dev {
  ud_name : string;
  ud_bustype : Z;
  ud_vendor : Z;
  ud_product : Z;
  ud_version : Z;
  ud_absmax : list Z;
  ud_absmin : list Z
}.

#[export] Instance timeval_eq_dec : EqDecision timeval.
Proof. solve_decision. Defined.
#[export] Instance input_event_eq_dec : EqDecision input_event.
Proof. solve_decision. Defined.
