(* ===== verification/Platform.v ===== *)
(** * The process's view of the kernel: system calls over a world

    The driver is straight-line C calling [open], [read], [write],
    [close], [access], [ioctl], [usleep], [gettimeofday] and stdio.
    This file gives those calls a meaning as explicit state passing:
    a [world] holds the environment's answers ([env], functions of the
    history so far, so the hardware may change between two reads), the
    table of open file descriptors, and the log of every system call
    with its result.  Programs are values of the monad [M]: a state
    monad over [world] whose outcome is a result, an exit of [main]
    with a status, undefined behaviour of the C code, or [Running]: the
    process is still in its endless loop when the model stops
    following it.

    Every operation appends exactly one entry to the log.  What
    [/dev/uinput] receives is every write and [ioctl] on a descriptor
    open on it ([uinput_traffic]); the device stream seen by consumers
    is its [input_event] part ([uinput_stream]).  [frame] and [emits]
    are the frame conditions the components' lemmas are stated with. *)

From Stdlib Require Import ZArith String Lia.
From stdpp Require Import base list strings.
From S2P Require Import Prelude Linux.

Open Scope Z_scope.

(** ** System-call vocabulary *)

(** [struct spi_ioc_transfer] as the driver fills it. *)
Record spi_ioc_transfer := mk_spi_ioc_transfer {
  tr_tx : list Z;
  tr_len : Z;
  tr_speed_hz : Z;
  tr_bits_per_word : Z
}.

(** The [ioctl] requests the driver issues. *)
Inductive ioctl_req :=
| SPI_IOC_WR_MAX_SPEED_HZ (speed : Z)
| UI_SET_EVBIT (ev : Z)
| UI_SET_KEYBIT (code : Z)
| UI_SET_ABSBIT (code : Z)
| UI_DEV_CREATE
| UI_DEV_DESTROY.

(** What a [write] hands to the kernel. *)
Inductive wdata :=
| WEvent (e : input_event)
| WDev (d : uinput_user_dev)
| WText (s : string).

(** One entry of the log.  [target] is the path the descriptor refers
    to, [None] when the descriptor is not open ([EBADF]). *)
Inductive sysev :=
| SysOpen (path : string) (fd : Z)
| SysClose (fd : Z)
| SysAccess (path : string) (ok : bool)
| SysRead (target : option string) (byte : option Z)
| SysWrite (target : option string) (data : wdata)
| SysIoctl (target : option string) (req : ioctl_req)
| SysSpiMessage (target : option string) (tr : spi_ioc_transfer) (rx : option (list Z))
| SysGetTime (tv : timeval)
| SysSleep (us : Z)
| SysFopen (path : string) (ok : bool)
| SysPrint (s : string).

(** ** The environment and the world *)

(** The environment answers each call from the history of calls made
    so far.  [env_read p] is the first byte of file [p] ([None]: the
    read returns 0 bytes or fails); [env_spi] the bytes clocked in by a
    full-duplex transfer ([None]: the ioctl fails and [rx] is left as
    it was); [env_file p] the contents of a text file for [fopen]. *)
Record env := mk_env {
  env_open : list sysev -> string -> bool;
  env_access : list sysev -> string -> bool;
  env_read : list sysev -> string -> option Z;
  env_spi : list sysev -> spi_ioc_transfer -> option (list Z);
  env_time : list sysev -> timeval;
  env_file : string -> option string
}.

Record world := mk_world {
  w_env : env;
  w_fds : list (Z * string);
  w_log : list sysev
}.

Inductive outcome (A : Type) :=
| Done (a : A)
| Exited (status : Z)
| Undefined (why : string)
| Running.
Arguments Done {A} a.
Arguments Exited {A} status.
Arguments Undefined {A} why.
Arguments Running {A}.

Definition M (A : Type) : Type := world -> outcome A * world.

Definition ret {A} (a : A) : M A := fun w => (Done a, w).

Definition bind {A B} (m : M A) (k : A -> M B) : M B :=
  fun w =>
    match m w with
    | (Done a, w') => k a w'
    | (Exited s, w') => (Exited s, w')
    | (Undefined r, w') => (Undefined r, w')
    | (Running, w') => (Running, w')
    end.

Notation "x <- c1 ;; c2" := (bind c1 (fun x => c2))
  (at level 100, c1 at next level, right associativity) : gamepad_scope.
Notation "c1 ;; c2" := (bind c1 (fun _ => c2))
  (at level 100, right associativity) : gamepad_scope.
Open Scope gamepad_scope.

(** [main]'s [return status]. *)
Definition exit_main {A} (status : Z) : M A := fun w => (Exited status, w).

(** Undefined behaviour of the C code reached. *)
Definition undefined {A} (why : string) : M A := fun w => (Undefined why, w).

(** The process is still running when the model stops following it:
    the outcome of a [while (1)] observed for finitely many rounds. *)
Definition running {A} : M A := fun w => (Running, w).

(** [while (1) { body }]: the loop has no exit.  [while_true fuel body]
    runs the first [fuel] rounds and then stops following the process,
    which is still in the loop; what comes after the loop never runs. *)
Fixpoint while_true (fuel : nat) (body : M unit) : M unit :=
  match fuel with
  | O => running
  | S fuel' => body ;; while_true fuel' body
  end.

(** The C [for] over a list of items with a body of effects. *)
Fixpoint mfor {B} (l : list B) (body : B -> M unit) : M unit :=
  match l with
  | [] => ret tt
  | b :: l' => body b ;; mfor l' body
  end.

(** A loop threading a value: [for (x in l) acc = body(acc, x)]. *)
Fixpoint mfoldl {A B} (body : A -> B -> M A) (l : list B) (acc : A) : M A :=
  match l with
  | [] => ret acc
  | b :: l' => acc' <- body acc b ;; mfoldl body l' acc'
  end.

(** ** System calls *)

Definition log_ev (e : sysev) (w : world) : world :=
  mk_world (w_env w) (w_fds w) (w_log w ++ [e]).

Fixpoint lookup_fd (fd : Z) (fds : list (Z * string)) : option string :=
  match fds with
  | [] => None
  | (fd', p) :: fds' => if decide (fd' = fd) then Some p else lookup_fd fd fds'
  end.

(** The file a descriptor refers to; [None] for a negative or closed
    descriptor ([EBADF]). *)
Definition fd_target (w : world) (fd : Z) : option string :=
  if decide (0 <= fd) then lookup_fd fd (w_fds w) else None.

(** The lowest descriptor not in use, from 3 (0-2 are the standard
    streams). *)
Fixpoint fresh_fd_from (fuel : nat) (fd : Z) (fds : list (Z * string)) : Z :=
  match fuel with
  | O => fd
  | S fuel' =>
      if decide (fd ∈ (fds.*1)) then fresh_fd_from fuel' (fd + 1) fds else fd
  end.

Definition fresh_fd (fds : list (Z * string)) : Z :=
  fresh_fd_from (S (length fds)) 3 fds.

Definition sys_open (path : string) : M Z := fun w =>
  if env_open (w_env w) (w_log w) path then
    let fd := fresh_fd (w_fds w) in
    (Done fd, mk_world (w_env w) ((fd, path) :: w_fds w) (w_log w ++ [SysOpen path fd]))
  else (Done (-1), log_ev (SysOpen path (-1)) w).

Definition sys_close (fd : Z) : M unit := fun w =>
  (Done tt, mk_world (w_env w) (filter (fun p => p.1 <> fd) (w_fds w))
                     (w_log w ++ [SysClose fd])).

Definition sys_access (path : string) : M bool := fun w =>
  let ok := env_access (w_env w) (w_log w) path in
  (Done ok, log_ev (SysAccess path ok) w).

(** [read(fd, &c, 1)]: the byte read, if any. *)
Definition sys_read1 (fd : Z) : M (option Z) := fun w =>
  let t := fd_target w fd in
  let r := match t with
           | Some p => env_read (w_env w) (w_log w) p
           | None => None
           end in
  (Done r, log_ev (SysRead t r) w).

Definition sys_write (fd : Z) (d : wdata) : M unit := fun w =>
  (Done tt, log_ev (SysWrite (fd_target w fd) d) w).

Definition sys_ioctl (fd : Z) (r : ioctl_req) : M unit := fun w =>
  (Done tt, log_ev (SysIoctl (fd_target w fd) r) w).

(** [ioctl(fd, SPI_IOC_MESSAGE(1), &tr)]: the bytes clocked in, or
    [None] when the transfer fails. *)
Definition sys_spi_message (fd : Z) (tr : spi_ioc_transfer) : M (option (list Z)) :=
  fun w =>
    let t := fd_target w fd in
    let r := match t with
             | Some _ => env_spi (w_env w) (w_log w) tr
             | None => None
             end in
    (Done r, log_ev (SysSpiMessage t tr r) w).

Definition sys_gettimeofday : M timeval := fun w =>
  let tv := env_time (w_env w) (w_log w) in
  (Done tv, log_ev (SysGetTime tv) w).

Definition sys_usleep (us : Z) : M unit := fun w =>
  (Done tt, log_ev (SysSleep us) w).

Definition sys_print (s : string) : M unit := fun w =>
  (Done tt, log_ev (SysPrint s) w).

(** [fopen] and reading the whole stream: the contents, or [None]. *)
Definition sys_fopen_read (path : string) : M (option string) := fun w =>
  let c := env_file (w_env w) path in
  (Done c, log_ev (SysFopen path (bool_decide (is_Some c))) w).

(** ** The device stream *)

(** The events a consumer of the virtual device receives: those written
    to a descriptor open on [/dev/uinput]. *)
Definition UINPUT_PATH : string := "/dev/uinput".

Definition uinput_event_of (e : sysev) : list input_event :=
  match e with
  | SysWrite (Some p) (WEvent ev) => if decide (p = UINPUT_PATH) then [ev] else []
  | _ => []
  end.

Definition uinput_stream (log : list sysev) : list input_event :=
  log ≫= uinput_event_of.

(** What the [/dev/uinput] character device receives, in order: every
    [write] and every [ioctl] on a descriptor open on it.  Registration
    is the ioctls and the [uinput_user_dev] write; the device stream is
    the [input_event] writes. *)
Inductive uio :=
| UWrite (d : wdata)
| UIoctl (r : ioctl_req).

Definition uinput_io_of (e : sysev) : list uio :=
  match e with
  | SysWrite (Some p) d => if decide (p = UINPUT_PATH) then [UWrite d] else []
  | SysIoctl (Some p) r => if decide (p = UINPUT_PATH) then [UIoctl r] else []
  | _ => []
  end.

Definition uinput_traffic (log : list sysev) : list uio :=
  log ≫= uinput_io_of.

Definition uio_event (u : uio) : list input_event :=
  match u with
  | UWrite (WEvent e) => [e]
  | _ => []
  end.

Definition uio_of_event (e : input_event) : uio := UWrite (WEvent e).

(** ** The process's diagnostic output *)

(** The text [printf] and [perror] print, in order. *)
Definition output_of (e : sysev) : list string :=
  match e with SysPrint s => [s] | _ => [] end.

Definition output (log : list sysev) : list string := log ≫= output_of.

(** ** A concrete environment, for evaluating the model *)

(** Every open succeeds, files hold [files p], GPIO files hold [gpio p],
    the SPI device answers [spi], and the clock reads [t] microseconds
    after the number of calls made so far. *)
Definition sample_env (files : string -> option string)
    (gpio : list sysev -> string -> option Z)
    (spi : list sysev -> spi_ioc_transfer -> option (list Z)) : env :=
  mk_env (fun _ _ => true) (fun _ _ => true) gpio spi
         (fun log => mk_timeval 0 (Z.of_nat (length log)))
         files.

Definition sample_world (e : env) : world := mk_world e [] [].

(** ** Reasoning about programs: weakest preconditions *)

(** [wp m Q w]: run from [w], [m] completes normally with a result and
    a world satisfying [Q].  An exit or undefined behaviour fails it, so
    [wp] also states that the code completes. *)
Definition wp {A} (m : M A) (Q : A -> world -> Prop) (w : world) : Prop :=
  match m w with
  | (Done a, w') => Q a w'
  | _ => False
  end.

Lemma wp_ret {A} (a : A) Q w : Q a w -> wp (ret a) Q w.
Proof. done. Qed.

Lemma wp_bind {A B} (m : M A) (k : A -> M B) Q w :
  wp m (fun a w' => wp (k a) Q w') w -> wp (bind m k) Q w.
Proof. unfold wp, bind. destruct (m w) as [[a| | |] w']; done. Qed.

Lemma wp_mono {A} (m : M A) (Q Q' : A -> world -> Prop) w :
  wp m Q w -> (forall a w', Q a w' -> Q' a w') -> wp m Q' w.
Proof. unfold wp. destruct (m w) as [[a| | |] w']; eauto. Qed.

Lemma wp_run {A} (m : M A) Q w :
  wp m Q w -> exists a w', m w = (Done a, w') /\ Q a w'.
Proof. unfold wp. destruct (m w) as [[a| | |] w']; eauto; done. Qed.

Lemma wp_if {A} (b : bool) (m1 m2 : M A) Q w :
  (b = true -> wp m1 Q w) -> (b = false -> wp m2 Q w) ->
  wp (if b then m1 else m2) Q w.
Proof. destruct b; auto. Qed.

(** A loop whose body keeps an invariant indexed by the items done. *)
Lemma wp_mfor {B} (l : list B) (body : B -> M unit) (I : list B -> world -> Prop) w :
  I [] w ->
  (forall done b rest w1, l = done ++ b :: rest -> I done w1 ->
     wp (body b) (fun _ w2 => I (done ++ [b]) w2) w1) ->
  wp (mfor l body) (fun _ w' => I l w') w.
Proof.
  intros H0 Hstep. cut (forall done rest w1, l = done ++ rest -> I done w1 ->
                         wp (mfor rest body) (fun _ w' => I l w') w1).
  { intros H. apply (H [] l w); auto. }
  intros done rest. revert done. induction rest as [|b rest IH]; intros done w1 Hl HI.
  - rewrite app_nil_r in Hl. subst. apply wp_ret. exact HI.
  - simpl. apply wp_bind. eapply wp_mono; [apply (Hstep done b rest w1 Hl HI)|].
    intros u w2 H2. apply (IH (done ++ [b])); [rewrite <- app_assoc; exact Hl|exact H2].
Qed.

(** ** Single system calls *)

Lemma wp_sys_write fd d Q w :
  Q tt (log_ev (SysWrite (fd_target w fd) d) w) -> wp (sys_write fd d) Q w.
Proof. done. Qed.

Lemma wp_sys_ioctl fd r Q w :
  Q tt (log_ev (SysIoctl (fd_target w fd) r) w) -> wp (sys_ioctl fd r) Q w.
Proof. done. Qed.

Lemma wp_sys_usleep us Q w : Q tt (log_ev (SysSleep us) w) -> wp (sys_usleep us) Q w.
Proof. done. Qed.

Lemma wp_sys_print s Q w : Q tt (log_ev (SysPrint s) w) -> wp (sys_print s) Q w.
Proof. done. Qed.

Lemma wp_sys_gettimeofday Q w :
  Q (env_time (w_env w) (w_log w)) (log_ev (SysGetTime (env_time (w_env w) (w_log w))) w) ->
  wp sys_gettimeofday Q w.
Proof. done. Qed.

(** ** The device stream across calls *)

Lemma uinput_stream_app l1 l2 :
  uinput_stream (l1 ++ l2) = uinput_stream l1 ++ uinput_stream l2.
Proof. unfold uinput_stream. apply bind_app. Qed.

Lemma uinput_stream_log_ev e w :
  uinput_stream (w_log (log_ev e w)) = uinput_stream (w_log w) ++ uinput_event_of e.
Proof. unfold log_ev. simpl. rewrite uinput_stream_app. simpl. rewrite app_nil_r. done. Qed.

Lemma uinput_traffic_app l1 l2 :
  uinput_traffic (l1 ++ l2) = uinput_traffic l1 ++ uinput_traffic l2.
Proof. unfold uinput_traffic. apply bind_app. Qed.

Lemma uinput_traffic_log_ev e w :
  uinput_traffic (w_log (log_ev e w)) = uinput_traffic (w_log w) ++ uinput_io_of e.
Proof. unfold log_ev. simpl. rewrite uinput_traffic_app. simpl. rewrite app_nil_r. done. Qed.

Lemma uinput_event_of_io e : uinput_event_of e = uinput_io_of e ≫= uio_event.
Proof.
  destruct e as [? ?|?|? ?|? ?|t d|t r|? ? ?|?|?|? ?|?]; try reflexivity;
    destruct t as [p|]; try reflexivity; simpl; destruct (decide _); try reflexivity;
    destruct d; reflexivity.
Qed.

(** The device stream is the event part of the traffic. *)
Lemma uinput_stream_traffic log : uinput_stream log = uinput_traffic log ≫= uio_event.
Proof.
  induction log as [|e log IH]; [done|].
  unfold uinput_stream, uinput_traffic in *.
  change (e :: log) with ([e] ++ log). rewrite !bind_app, IH. f_equal.
  simpl. rewrite !app_nil_r. apply uinput_event_of_io.
Qed.

Lemma uio_events_of_events es : (uio_of_event <$> es) ≫= uio_event = es.
Proof.
  induction es as [|e es IH]; [done|].
  change (uio_of_event <$> e :: es) with ([uio_of_event e] ++ (uio_of_event <$> es)).
  rewrite bind_app, IH. done.
Qed.

Lemma output_app l1 l2 : output (l1 ++ l2) = output l1 ++ output l2.
Proof. unfold output. apply bind_app. Qed.

Lemma output_log_ev e w : output (w_log (log_ev e w)) = output (w_log w) ++ output_of e.
Proof. unfold log_ev. simpl. rewrite output_app. simpl. rewrite app_nil_r. done. Qed.

#[export] Hint Rewrite uinput_stream_app uinput_stream_log_ev uinput_traffic_app
  uinput_traffic_log_ev uio_events_of_events : gamepad_rw.

(** ** Descriptors *)

Lemma fresh_fd_from_spec fuel fd fds :
  fresh_fd_from fuel fd fds ∉ fds.*1 \/
  (forall i, fd <= i < fd + Z.of_nat fuel -> i ∈ fds.*1).
Proof.
  revert fd. induction fuel as [|fuel IH]; intros fd; simpl.
  - right. lia.
  - destruct (decide (fd ∈ fds.*1)) as [Hin|Hout]; [|left; exact Hout].
    destruct (IH (fd + 1)) as [H|H]; [left; exact H|right].
    intros i Hi. destruct (decide (i = fd)) as [->|Hne]; [exact Hin|]. apply H. lia.
Qed.

Lemma fresh_fd_from_ge fuel fd fds : fd <= fresh_fd_from fuel fd fds.
Proof.
  revert fd. induction fuel as [|fuel IH]; intros fd; simpl; [lia|].
  destruct (decide _); [specialize (IH (fd + 1)); lia|lia].
Qed.

(** Descriptors handed out by [open] are at least 3. *)
Lemma fresh_fd_ge fds : 3 <= fresh_fd fds.
Proof. apply fresh_fd_from_ge. Qed.

Lemma filter_fst_not_in (fd : Z) (fds : list (Z * string)) :
  fd ∉ fds.*1 -> filter (fun p => p.1 <> fd) fds = fds.
Proof.
  induction fds as [|[a q] fds IH]; intros Hnot; [done|].
  rewrite fmap_cons, elem_of_cons in Hnot. simpl in Hnot.
  rewrite filter_cons_True by (simpl; intros ->; apply Hnot; left; done).
  rewrite IH; [done|]. intros H. apply Hnot. right. exact H.
Qed.

(** [open] never hands out a descriptor that is already open. *)
Lemma fresh_fd_not_in fds : fresh_fd fds ∉ fds.*1.
Proof.
  unfold fresh_fd. destruct (fresh_fd_from_spec (S (length fds)) 3 fds) as [H|H]; [exact H|].
  exfalso.
  assert (Hincl : incl (seqZ 3 (Z.of_nat (S (length fds)))) (fds.*1)).
  { intros i Hi. apply list_elem_of_In, elem_of_seqZ in Hi. apply list_elem_of_In, H. lia. }
  apply NoDup_incl_length in Hincl; [|apply NoDup_ListNoDup, NoDup_seqZ].
  rewrite length_seqZ, length_fmap in Hincl. lia.
Qed.

Lemma fd_target_cons_other w fd fd' p :
  fd <> fd' ->
  fd_target (mk_world (w_env w) ((fd', p) :: w_fds w) (w_log w)) fd = fd_target w fd.
Proof.
  intros Hne. unfold fd_target. simpl. destruct (decide (0 <= fd)); [|done].
  rewrite decide_False by congruence. done.
Qed.

Lemma lookup_fd_filter_other fd fd' fds :
  fd <> fd' -> lookup_fd fd (filter (fun p => p.1 <> fd') fds) = lookup_fd fd fds.
Proof.
  intros Hne. induction fds as [|[a p] fds IH]; [done|]. simpl.
  rewrite filter_cons. simpl. destruct (decide (a <> fd')) as [Ha|Ha]; simpl.
  - destruct (decide (a = fd)); [done|exact IH].
  - rewrite decide_False by (intros ->; apply Ha; congruence). exact IH.
Qed.

(** Closing one descriptor leaves what the others refer to. *)
Lemma fd_target_close_other w fd fd' :
  fd <> fd' ->
  fd_target (mk_world (w_env w) (filter (fun p => p.1 <> fd') (w_fds w)) (w_log w ++ [SysClose fd'])) fd
  = fd_target w fd.
Proof.
  intros Hne. unfold fd_target. simpl. destruct (decide (0 <= fd)); [|done].
  apply lookup_fd_filter_other, Hne.
Qed.

Lemma fd_target_log_ev w e fd : fd_target (log_ev e w) fd = fd_target w fd.
Proof. done. Qed.

Lemma lookup_fd_in fd fds p : lookup_fd fd fds = Some p -> fd ∈ fds.*1.
Proof.
  induction fds as [|[a q] fds IH]; simpl; [done|].
  destruct (decide (a = fd)) as [->|_]; [left|intros H; right; auto].
Qed.

(** ** Frames: what a piece of code sends to the device and leaves alone *)

(** From [w] to [w'] the code kept the descriptor table and the
    environment, and [/dev/uinput] received exactly [us]. *)
Definition frame (w w' : world) (us : list uio) : Prop :=
  w_fds w' = w_fds w /\ w_env w' = w_env w /\
  uinput_traffic (w_log w') = uinput_traffic (w_log w) ++ us.

(** ... and what it received were the events [es], nothing else. *)
Definition emits (w w' : world) (es : list input_event) : Prop :=
  frame w w' (uio_of_event <$> es).

Lemma frame_refl w : frame w w [].
Proof. unfold frame. rewrite app_nil_r. done. Qed.

Lemma frame_trans w1 w2 w3 us1 us2 :
  frame w1 w2 us1 -> frame w2 w3 us2 -> frame w1 w3 (us1 ++ us2).
Proof.
  unfold frame. intros (F1 & E1 & S1) (F2 & E2 & S2).
  rewrite F2, E2, S2, S1, app_assoc. done.
Qed.

Lemma frame_log_ev w e : frame w (log_ev e w) (uinput_io_of e).
Proof. unfold frame. rewrite uinput_traffic_log_ev. done. Qed.

Lemma frame_fd_target w w' us fd : frame w w' us -> fd_target w' fd = fd_target w fd.
Proof. intros [F _]. unfold fd_target. rewrite F. done. Qed.

Lemma emits_refl w : emits w w [].
Proof. apply frame_refl. Qed.

Lemma emits_trans w1 w2 w3 es1 es2 :
  emits w1 w2 es1 -> emits w2 w3 es2 -> emits w1 w3 (es1 ++ es2).
Proof. unfold emits. rewrite fmap_app. apply frame_trans. Qed.

Lemma emits_log_quiet w e : uinput_io_of e = [] -> emits w (log_ev e w) [].
Proof. intros He. unfold emits. simpl. rewrite <- He. apply frame_log_ev. Qed.

Lemma emits_fd_target w w' es fd : emits w w' es -> fd_target w' fd = fd_target w fd.
Proof. apply frame_fd_target. Qed.

(** What the consumers of the device see across a frame. *)
Lemma emits_stream w w' es :
  emits w w' es -> uinput_stream (w_log w') = uinput_stream (w_log w) ++ es.
Proof.
  intros (_ & _ & S). rewrite !uinput_stream_traffic, S, bind_app, uio_events_of_events. done.
Qed.

Lemma emits_nil_eq w w' : emits w w' [] ->
  w_fds w' = w_fds w /\ w_env w' = w_env w /\ uinput_traffic (w_log w') = uinput_traffic (w_log w).
Proof. unfold emits, frame. simpl. rewrite app_nil_r. done. Qed.

Lemma emits_nil_intro w w' :
  w_fds w' = w_fds w -> w_env w' = w_env w ->
  uinput_traffic (w_log w') = uinput_traffic (w_log w) -> emits w w' [].
Proof. intros F E S. unfold emits, frame. simpl. rewrite app_nil_r. done. Qed.

#[export] Hint Resolve frame_refl emits_refl : gamepad.

(** A system call that sends nothing to the device is silent. *)
Lemma wp_log_quiet {A} (m : M A) (a : A) e Q w :
  m w = (Done a, log_ev e w) -> uinput_io_of e = [] ->
  (forall w', emits w w' [] -> Q a w') -> wp m Q w.
Proof.
  intros Hm He HQ. unfold wp. rewrite Hm. apply HQ, emits_log_quiet, He.
Qed.

Lemma wp_gettimeofday_frame Q w :
  (forall tv w', emits w w' [] -> Q tv w') -> wp sys_gettimeofday Q w.
Proof. intros HQ. eapply wp_log_quiet; [reflexivity|reflexivity|]. apply HQ. Qed.

Lemma wp_usleep_frame us Q w :
  (forall w', emits w w' [] -> Q tt w') -> wp (sys_usleep us) Q w.
Proof. intros HQ. eapply wp_log_quiet; [reflexivity|reflexivity|]. apply HQ. Qed.

Lemma wp_access_frame p Q w :
  (forall b w', emits w w' [] -> Q b w') -> wp (sys_access p) Q w.
Proof. intros HQ. eapply wp_log_quiet; [reflexivity|reflexivity|apply HQ]. Qed.

Lemma wp_print_frame s Q w :
  (forall w', emits w w' [] -> Q tt w') -> wp (sys_print s) Q w.
Proof. intros HQ. eapply wp_log_quiet; [reflexivity|reflexivity|exact HQ]. Qed.

(** What a call on a descriptor referring to [t] hands to the virtual
    device: everything when [t] is [/dev/uinput], nothing otherwise. *)
Definition sink {A} (t : option string) (xs : list A) : list A :=
  if decide (t = Some UINPUT_PATH) then xs else [].

Lemma sink_app {A} t (xs ys : list A) : sink t (xs ++ ys) = sink t xs ++ sink t ys.
Proof. unfold sink. destruct (decide _); done. Qed.

Lemma sink_nil {A} t : sink (A:=A) t [] = [].
Proof. unfold sink. case_decide; done. Qed.

Lemma sink_open {A} (xs : list A) : sink (Some UINPUT_PATH) xs = xs.
Proof. unfold sink. rewrite decide_True; done. Qed.

Lemma sink_closed {A} (xs : list A) : sink None xs = [].
Proof. done. Qed.

Lemma sink_other {A} t (xs : list A) : t <> Some UINPUT_PATH -> sink t xs = [].
Proof. intros Ht. unfold sink. rewrite decide_False by exact Ht. done. Qed.

Lemma sink_fmap {A B} (f : A -> B) t xs : f <$> sink t xs = sink t (f <$> xs).
Proof. unfold sink. destruct (decide _); done. Qed.

#[export] Hint Rewrite @sink_app @sink_nil @sink_open @sink_closed : gamepad_rw.

Lemma uinput_io_sink t (u : uio) :
  match t with Some p => if decide (p = UINPUT_PATH) then [u] else [] | None => [] end
  = sink t [u].
Proof.
  unfold sink. destruct t as [p|]; [|done].
  destruct (decide (p = UINPUT_PATH)), (decide (Some p = Some UINPUT_PATH)); congruence.
Qed.

Lemma wp_write_frame fd d Q w :
  (forall w', frame w w' (sink (fd_target w fd) [UWrite d]) -> Q tt w') ->
  wp (sys_write fd d) Q w.
Proof.
  intros HQ. unfold wp, sys_write. apply HQ.
  rewrite <- uinput_io_sink.
  destruct (fd_target w fd); apply frame_log_ev.
Qed.

Lemma wp_ioctl_frame fd r Q w :
  (forall w', frame w w' (sink (fd_target w fd) [UIoctl r]) -> Q tt w') ->
  wp (sys_ioctl fd r) Q w.
Proof.
  intros HQ. unfold wp, sys_ioctl. apply HQ.
  rewrite <- uinput_io_sink.
  destruct (fd_target w fd); apply frame_log_ev.
Qed.

Lemma wp_write_event_frame fd e Q w :
  (forall w', emits w w' (sink (fd_target w fd) [e]) -> Q tt w') ->
  wp (sys_write fd (WEvent e)) Q w.
Proof.
  intros HQ. apply wp_write_frame. intros w' F. apply HQ.
  unfold emits. rewrite sink_fmap. exact F.
Qed.

(** A write or an [ioctl] on a descriptor that does not refer to
    [/dev/uinput] is silent. *)
Lemma wp_write_other fd d Q w :
  fd_target w fd <> Some UINPUT_PATH ->
  (forall w', emits w w' [] -> Q tt w') -> wp (sys_write fd d) Q w.
Proof. intros Ht HQ. apply wp_write_frame. rewrite sink_other by exact Ht. exact HQ. Qed.

Lemma wp_ioctl_other fd r Q w :
  fd_target w fd <> Some UINPUT_PATH ->
  (forall w', emits w w' [] -> Q tt w') -> wp (sys_ioctl fd r) Q w.
Proof. intros Ht HQ. apply wp_ioctl_frame. rewrite sink_other by exact Ht. exact HQ. Qed.

(** [open] either fails with -1 and changes nothing but the log, or
    hands out a fresh descriptor, at least 3, now referring to [path]. *)
Definition opened (w w' : world) (path : string) (fd : Z) : Prop :=
  w_env w' = w_env w /\ uinput_traffic (w_log w') = uinput_traffic (w_log w) /\
  if env_open (w_env w) (w_log w) path
  then 3 <= fd /\ (fd ∉ (w_fds w).*1) /\ w_fds w' = (fd, path) :: w_fds w
  else fd = -1 /\ w_fds w' = w_fds w.

Lemma wp_open_frame path Q w :
  (forall fd w', opened w w' path fd -> Q fd w') -> wp (sys_open path) Q w.
Proof.
  intros HQ. unfold wp, sys_open.
  destruct (env_open (w_env w) (w_log w) path) eqn:Ho; apply HQ; unfold opened; simpl;
    rewrite uinput_traffic_app, Ho; simpl; rewrite app_nil_r; (split; [done|split; [done|]]).
  - split; [apply fresh_fd_ge|split; [apply fresh_fd_not_in|done]].
  - done.
Qed.

Lemma opened_target w w' path fd :
  opened w w' path fd -> 0 <= fd -> fd_target w' fd = Some path.
Proof.
  intros (_ & _ & Ho) Hfd. destruct (env_open _ _ _); destruct Ho as [? Hfds]; [|lia].
  destruct Hfds as [_ Hfds].
  unfold fd_target. rewrite decide_True by done. rewrite Hfds. simpl.
  rewrite decide_True by done. done.
Qed.

(** An [open] leaves what the descriptors already open refer to. *)
Lemma opened_other w w' path fd fd' :
  opened w w' path fd -> fd_target w fd' <> None -> fd_target w' fd' = fd_target w fd'.
Proof.
  intros (_ & _ & Ho) Hopen. unfold fd_target in *.
  destruct (decide (0 <= fd')) as [Hge|]; [|done].
  destruct (env_open _ _ _).
  - destruct Ho as (_ & Hnot & ->). simpl. rewrite decide_False; [done|]. intros ->.
    destruct (lookup_fd fd' (w_fds w)) eqn:Hl; [|done].
    apply Hnot, (lookup_fd_in _ _ _ Hl).
  - destruct Ho as [_ ->]. done.
Qed.

(** Closing the descriptor just opened restores the table. *)
Lemma wp_close_fresh fd path fds0 Q w :
  w_fds w = (fd, path) :: fds0 -> fd ∉ fds0.*1 ->
  (forall w', w_fds w' = fds0 -> w_env w' = w_env w ->
     uinput_traffic (w_log w') = uinput_traffic (w_log w) -> Q tt w') ->
  wp (sys_close fd) Q w.
Proof.
  intros Hfds Hnot HQ. unfold wp, sys_close. apply HQ; simpl.
  - rewrite Hfds, filter_cons_False by (simpl; congruence). apply filter_fst_not_in, Hnot.
  - done.
  - rewrite uinput_traffic_app. simpl. rewrite app_nil_r. done.
Qed.

(** A loop whose body is silent and keeps the table is silent. *)
Lemma wp_mfor_quiet {B} (l : list B) (body : B -> M unit) Q w :
  (forall b w1, wp (body b) (fun _ w2 => emits w1 w2 []) w1) ->
  (forall w', emits w w' [] -> Q tt w') ->
  wp (mfor l body) Q w.
Proof.
  intros Hbody HQ.
  eapply wp_mono; [apply (wp_mfor l body (fun _ w1 => emits w w1 []))|].
  - apply emits_refl.
  - intros done b rest w1 _ E1. eapply wp_mono; [apply Hbody|].
    intros u w2 E2. apply (emits_trans _ _ _ [] [] E1 E2).
  - intros [] w' E. apply HQ, E.
Qed.

(** A loop whose body keeps the table and sends [f b] for item [b]
    sends the items' traffic in order. *)
Lemma wp_mfor_frame {B} (l : list B) (body : B -> M unit) (f : B -> list uio) Q w :
  (forall b w1, w_fds w1 = w_fds w -> wp (body b) (fun _ w2 => frame w1 w2 (f b)) w1) ->
  (forall w', frame w w' (l ≫= f) -> Q tt w') ->
  wp (mfor l body) Q w.
Proof.
  intros Hbody HQ.
  eapply wp_mono; [apply (wp_mfor l body (fun done w1 => frame w w1 (done ≫= f)))|].
  - apply frame_refl.
  - intros done b rest w1 _ F1. eapply wp_mono; [apply Hbody, F1|].
    intros u w2 F2. rewrite bind_app. simpl. rewrite app_nil_r.
    apply (frame_trans _ _ _ _ _ F1 F2).
  - intros [] w' F. apply HQ, F.
Qed.

Lemma bind_sink {A B} t (f : A -> B) (l : list A) :
  (l ≫= fun a => sink t [f a]) = sink t (f <$> l).
Proof.
  induction l as [|a l IH]; [unfold sink; case_decide; done|].
  change (a :: l) with ([a] ++ l). rewrite bind_app, IH, fmap_app, sink_app.
  simpl. rewrite app_nil_r. done.
Qed.
