(* ===== verification/Uinput.v ===== *)
(** * The kernel's [uinput] device, as the driver relies on it

    [/dev/uinput] is not code of the repository: this file states the
    contract of the legacy uinput interface the driver uses (Linux
    [Documentation/input/uinput.rst], [drivers/input/misc/uinput.c]),
    as a state machine over the traffic a descriptor receives
    ([Platform.uio]).  Before creation, [UI_SET_EVBIT], [UI_SET_KEYBIT]
    and [UI_SET_ABSBIT] add capabilities and a [uinput_user_dev] write
    records the identity; [UI_DEV_CREATE] needs that record and freezes
    the device; afterwards every [input_event] written is delivered to
    consumers when the input core supports it (its type enabled and,
    for keys and axes, its code; [EV_SYN] always) and silently dropped
    otherwise.  Any other request in any other state is refused
    ([EINVAL]): the relation has no step for it.

    [step] is the relation, [next] the same machine as a function (they
    agree: [next_step]); [steps] runs a whole traffic, and its rule
    induction gives the frozen-capabilities invariant. *)

From Stdlib Require Import ZArith String Lia.
From stdpp Require Import base list strings.
From S2P Require Import Prelude Linux Platform.

Open Scope Z_scope.

Module UinputDev.

Record state := mk_state {
  caps : list (Z * Z);
  setup : option uinput_user_dev;
  created : bool;
  delivered : list input_event
}.

(** A freshly opened [/dev/uinput]. *)
Definition init : state := mk_state [] None false [].

(** The capability an [ioctl] enables: [(type, -1)] for an event type,
    [(type, code)] for a code of that type. *)
Definition capability_of (r : ioctl_req) : option (Z * Z) :=
  match r with
  | UI_SET_EVBIT t => Some (t, -1)
  | UI_SET_KEYBIT c => Some (EV_KEY, c)
  | UI_SET_ABSBIT c => Some (EV_ABS, c)
  | _ => None
  end.

(** The input core passes an event on when its type is enabled and its
    code too; [EV_SYN] needs no registration. *)
Definition supported (cs : list (Z * Z)) (e : input_event) : bool :=
  bool_decide (ev_type e = EV_SYN) ||
  (bool_decide ((ev_type e, -1) ∈ cs) && bool_decide ((ev_type e, ev_code e) ∈ cs)).

Inductive step : state -> uio -> state -> Prop :=
| step_set s r c :
    created s = false -> capability_of r = Some c ->
    step s (UIoctl r) (mk_state (c :: caps s) (setup s) false (delivered s))
| step_dev s d :
    created s = false ->
    step s (UWrite (WDev d)) (mk_state (caps s) (Some d) false (delivered s))
| step_create s d :
    created s = false -> setup s = Some d ->
    step s (UIoctl UI_DEV_CREATE) (mk_state (caps s) (setup s) true (delivered s))
| step_event s e :
    created s = true -> supported (caps s) e = true ->
    step s (UWrite (WEvent e)) (mk_state (caps s) (setup s) true (delivered s ++ [e]))
| step_drop s e :
    created s = true -> supported (caps s) e = false ->
    step s (UWrite (WEvent e)) s.

Inductive steps : state -> list uio -> state -> Prop :=
| steps_nil s : steps s [] s
| steps_cons s u us s1 s2 : step s u s1 -> steps s1 us s2 -> steps s (u :: us) s2.

(** The same machine, executable: [None] is a refused request. *)
Definition next (s : state) (u : uio) : option state :=
  match u with
  | UIoctl UI_DEV_CREATE =>
      if created s then None
      else match setup s with
           | Some _ => Some (mk_state (caps s) (setup s) true (delivered s))
           | None => None
           end
  | UIoctl r =>
      if created s then None
      else match capability_of r with
           | Some c => Some (mk_state (c :: caps s) (setup s) false (delivered s))
           | None => None
           end
  | UWrite (WDev d) =>
      if created s then None else Some (mk_state (caps s) (Some d) false (delivered s))
  | UWrite (WEvent e) =>
      if created s then
        if supported (caps s) e
        then Some (mk_state (caps s) (setup s) true (delivered s ++ [e]))
        else Some s
      else None
  | UWrite (WText _) => None
  end.

Fixpoint run (s : state) (us : list uio) : option state :=
  match us with
  | [] => Some s
  | u :: us' => next s u ≫= fun s1 => run s1 us'
  end.

(** ** The function is the relation *)

Lemma next_step s u s' : next s u = Some s' <-> step s u s'.
Proof.
  split.
  - destruct u as [[e|d|t]|r]; simpl.
    + destruct (created s) eqn:Hc; [|discriminate].
      destruct (supported _ _) eqn:Hs; intros [= ?]; subst; [apply step_event|apply step_drop]; done.
    + destruct (created s) eqn:Hc; [discriminate|]. intros [= ?]; subst. apply step_dev, Hc.
    + discriminate.
    + destruct r; destruct (created s) eqn:Hc; try discriminate;
        try (destruct (setup s) eqn:Hd; [|discriminate]; intros [= ?]; subst; rewrite <- Hd;
             eapply step_create; eauto);
        intros [= ?]; subst; apply step_set; done.
  - intros Hst; destruct Hst as [s r c Hc Hr|s d Hc|s d Hc Hd|s e Hc Hs|s e Hc Hs]; simpl;
      rewrite ?Hc, ?Hs; try done.
    + destruct r; simpl in *; rewrite ?Hc; simpl; congruence.
    + rewrite Hd. done.
Qed.

Lemma run_steps s us s' : run s us = Some s' <-> steps s us s'.
Proof.
  revert s. induction us as [|u us IH]; intros s; simpl.
  - split; [intros [= <-]; constructor|inversion 1; done].
  - split.
    + destruct (next s u) as [s1|] eqn:Hn; simpl; [|discriminate].
      intros H. apply steps_cons with s1; [apply next_step, Hn|apply IH, H].
    + inversion 1 as [|? ? ? s1 ? Hst Hrest]; subst.
      apply next_step in Hst. rewrite Hst. simpl. apply IH, Hrest.
Qed.

Lemma steps_app s us1 us2 s1 s2 :
  steps s us1 s1 -> steps s1 us2 s2 -> steps s (us1 ++ us2) s2.
Proof.
  induction 1 as [|s u us s' s'' Hst _ IH]; intros H2; [exact H2|].
  simpl. econstructor; [exact Hst|]. apply IH, H2.
Qed.

(** ** The frozen-capabilities invariant *)

(** After [UI_DEV_CREATE] no request changes the capabilities or the
    identity, and the device stays created: only [delivered] grows. *)
Lemma steps_frozen s us s' :
  steps s us s' -> created s = true ->
  caps s' = caps s /\ setup s' = setup s /\ created s' = true /\
  exists es, delivered s' = delivered s ++ es.
Proof.
  induction 1 as [s|s u us s1 s2 Hst _ IH]; intros Hc.
  - split; [done|split; [done|split; [done|exists []; rewrite app_nil_r; done]]].
  - destruct Hst as [s r c Hc'|s d Hc'|s d Hc'|s e _ _|s e _ _]; simpl in *;
      try congruence.
    + destruct (IH eq_refl) as (-> & -> & -> & es & ->). simpl.
      split; [done|split; [done|split; [done|exists (e :: es); rewrite <- app_assoc; done]]].
    + apply IH, Hc.
Qed.

Lemma supported_intro cs e :
  ev_type e = EV_SYN \/ ((ev_type e, -1) ∈ cs /\ (ev_type e, ev_code e) ∈ cs) ->
  supported cs e = true.
Proof.
  unfold supported. intros [H|[H1 H2]].
  - rewrite bool_decide_eq_true_2 by exact H. done.
  - rewrite (bool_decide_eq_true_2 (_ ∈ _)) by exact H1.
    rewrite (bool_decide_eq_true_2 ((_, ev_code e) ∈ _)) by exact H2.
    apply orb_true_r.
Qed.

(** On a created device, events it supports are all delivered, in
    order. *)
Lemma steps_events s es :
  created s = true -> Forall (fun e => supported (caps s) e = true) es ->
  steps s (uio_of_event <$> es) (mk_state (caps s) (setup s) true (delivered s ++ es)).
Proof.
  intros Hc Hes. revert s Hc Hes. induction es as [|e es IH]; intros s Hc Hes.
  - rewrite app_nil_r. destruct s; simpl in *; subst. constructor.
  - apply Forall_cons in Hes as [He Hes]. simpl.
    econstructor; [apply step_event; done|].
    replace (delivered s ++ e :: es) with ((delivered s ++ [e]) ++ es)
      by (rewrite <- app_assoc; done).
    exact (IH (mk_state (caps s) (setup s) true (delivered s ++ [e])) eq_refl Hes).
Qed.

End UinputDev.
