(* ===== verification/CString.v ===== *)
(** * The C library functions the driver calls, on C strings

    [fgets], [strcspn], [strlen], [strchr], [strcmp], [atoi],
    [strncpy] and [printf("%d")] / [snprintf("%d")], modelled from the
    C standard on Stdlib [string]s (Module [CLib]).  A C string is the
    text before the first NUL.  These are the library's functions, not
    code of the repository; [Config] and [Gpio] use them. *)

From Stdlib Require Import ZArith String Ascii Lia.
From stdpp Require Import base list strings.
From S2P Require Import Prelude.

Open Scope Z_scope.

Definition MAX_LINE : nat := 128.

Module CLib.

Definition NUL : ascii := "000".
Definition LF : ascii := "010".
Definition CR : ascii := "013".

(** The prefix before the first character satisfying [stop]. *)
Fixpoint prefix_until (stop : ascii -> bool) (s : string) : string :=
  match s with
  | EmptyString => EmptyString
  | String c s' => if stop c then EmptyString else String c (prefix_until stop s')
  end.

(** The C string a buffer holds: the bytes before the first NUL. *)
Definition cstr (s : string) : string := prefix_until (fun c => Ascii.eqb c NUL) s.

(** [line[strcspn(line, "\r\n")] = 0] on a C string. *)
Definition cut_eol (s : string) : string :=
  prefix_until (fun c => Ascii.eqb c CR || Ascii.eqb c LF) s.

(** [line[0]] of a C string: NUL when it is empty. *)
Definition first_char (s : string) : ascii :=
  match s with EmptyString => NUL | String c _ => c end.

(** [strchr(s, c)] followed by [*eq = 0]: the text before the first
    [c] and the text after it. *)
Fixpoint split_at (c : ascii) (s : string) : option (string * string) :=
  match s with
  | EmptyString => None
  | String d s' =>
      if Ascii.eqb d c then Some (EmptyString, s')
      else match split_at c s' with
           | Some (a, b) => Some (String d a, b)
           | None => None
           end
  end.

(** [fgets(buf, n, f)] reads at most [n - 1] characters, stopping after
    a newline; it returns [NULL] at end of file when nothing is read.
    [fgets_take k s] is the text read with [k] characters of room and
    what is left of the stream. *)
Fixpoint fgets_take (k : nat) (s : string) : string * string :=
  match k, s with
  | O, _ => (EmptyString, s)
  | _, EmptyString => (EmptyString, EmptyString)
  | S k', String c s' =>
      if Ascii.eqb c LF then (String c EmptyString, s')
      else let (a, b) := fgets_take k' s' in (String c a, b)
  end.

(** The successive buffers [while (fgets(line, MAX_LINE, ff))] sees,
    with fuel: each call consumes at least one character. *)
Fixpoint fgets_chunks_fuel (fuel : nat) (s : string) : list string :=
  match fuel with
  | O => []
  | S fuel' =>
      match s with
      | EmptyString => []
      | _ => let (c, rest) := fgets_take (MAX_LINE - 1) s in
             c :: fgets_chunks_fuel fuel' rest
      end
  end.

Definition fgets_chunks (s : string) : list string :=
  fgets_chunks_fuel (String.length s) s.

Definition is_space (c : ascii) : bool :=
  Ascii.eqb c " " || Ascii.eqb c "009" || Ascii.eqb c "010" ||
  Ascii.eqb c "011" || Ascii.eqb c "012" || Ascii.eqb c "013".

Definition digit_of (c : ascii) : option Z :=
  let n := Z.of_nat (nat_of_ascii c) in
  if (48 <=? n) && (n <=? 57) then Some (n - 48) else None.

(** The decimal digits at the head of [s], accumulated onto [acc]. *)
Fixpoint digits (s : string) (acc : Z) : Z :=
  match s with
  | EmptyString => acc
  | String c s' =>
      match digit_of c with
      | Some d => digits s' (acc * 10 + d)
      | None => acc
      end
  end.

Fixpoint skip_space (s : string) : string :=
  match s with
  | String c s' => if is_space c then skip_space s' else s
  | EmptyString => EmptyString
  end.

(** The mathematical value [atoi] parses: leading white space, an
    optional sign, then the longest run of digits (0 when there is
    none). *)
Definition atoi_value (s : string) : Z :=
  match skip_space s with
  | String c s' =>
      if Ascii.eqb c "-" then - digits s' 0
      else if Ascii.eqb c "+" then digits s' 0
      else digits (String c s') 0
  | EmptyString => 0
  end.

(** [atoi]: undefined when the value is not representable in [int]. *)
Definition atoi (s : string) : option Z :=
  let v := atoi_value s in if in_int v then Some v else None.

(** [strncpy(dst, src, 31)] into a zeroed [char[32]]: the first 31
    characters. *)
Definition strncpy31 (s : string) : string := substring 0 31 s.

(** Decimal rendering of an [int] for [printf("%d")]. *)
Fixpoint udigits (fuel : nat) (z : Z) (acc : string) : string :=
  match fuel with
  | O => acc
  | S fuel' =>
      let acc' := String (ascii_of_nat (Z.to_nat (48 + z mod 10))) acc in
      if z <? 10 then acc' else udigits fuel' (z / 10) acc'
  end.

Definition string_of_int (z : Z) : string :=
  if z <? 0 then String "-" (udigits 12 (- z) EmptyString)
  else udigits 12 z EmptyString.

(** ** Lengths *)

Lemma udigits_length_ge fuel z acc : (String.length acc <= String.length (udigits fuel z acc))%nat.
Proof.
  revert z acc. induction fuel as [|fuel IH]; intros z acc; simpl; [lia|].
  destruct (z <? 10); simpl; [lia|].
  specialize (IH (z / 10) (String (ascii_of_nat (Z.to_nat (48 + z mod 10))) acc)). simpl in IH. lia.
Qed.

Lemma udigits_length_fuel fuel z acc :
  (String.length (udigits fuel z acc) <= fuel + String.length acc)%nat.
Proof.
  revert z acc. induction fuel as [|fuel IH]; intros z acc; simpl; [lia|].
  destruct (z <? 10); simpl; [lia|].
  specialize (IH (z / 10) (String (ascii_of_nat (Z.to_nat (48 + z mod 10))) acc)). simpl in IH. lia.
Qed.

(** A number below [10^k] has at most [k] digits... *)
Lemma udigits_length_le fuel z acc k :
  0 <= z < 10 ^ k -> 1 <= k ->
  (Z.of_nat (String.length (udigits fuel z acc)) <= k + Z.of_nat (String.length acc)).
Proof.
  revert z acc k. induction fuel as [|fuel IH]; intros z acc k Hz Hk; simpl; [lia|].
  destruct (z <? 10) eqn:H10; simpl; [lia|]. apply Z.ltb_ge in H10.
  assert (2 <= k).
  { destruct (Z.le_gt_cases k 1) as [Hk1|]; [|lia].
    assert (10 ^ k <= 10 ^ 1) by (apply Z.pow_le_mono_r; lia). lia. }
  assert (0 <= z / 10 < 10 ^ (k - 1)).
  { split; [apply Z.div_pos; lia|]. apply Z.div_lt_upper_bound; [lia|].
    rewrite <- Z.pow_succ_r by lia. replace (Z.succ (k - 1)) with k by lia. lia. }
  specialize (IH (z / 10) (String (ascii_of_nat (Z.to_nat (48 + z mod 10))) acc) (k - 1)
                 ltac:(lia) ltac:(lia)).
  simpl in IH. lia.
Qed.

(** ... and one of at least [10^k] has more than [k], with the fuel to
    write them. *)
Lemma udigits_length_gt fuel z acc k :
  0 <= k -> 10 ^ k <= z -> k < Z.of_nat fuel ->
  (k + 1 + Z.of_nat (String.length acc) <= Z.of_nat (String.length (udigits fuel z acc))).
Proof.
  revert z acc k. induction fuel as [|fuel IH]; intros z acc k Hk Hz Hf; simpl; [lia|].
  assert (0 < 10 ^ k) by (apply Z.pow_pos_nonneg; lia).
  destruct (z <? 10) eqn:H10; simpl.
  - apply Z.ltb_lt in H10. destruct (Z.eq_dec k 0) as [->|]; [lia|].
    assert (10 ^ 1 <= 10 ^ k) by (apply Z.pow_le_mono_r; lia). lia.
  - apply Z.ltb_ge in H10. destruct (Z.eq_dec k 0) as [->|Hk0].
    + pose proof (udigits_length_ge fuel (z / 10) (String (ascii_of_nat (Z.to_nat (48 + z mod 10))) acc)).
      simpl in *. lia.
    + assert (10 ^ (k - 1) <= z / 10).
      { apply Z.div_le_lower_bound; [lia|]. rewrite <- Z.pow_succ_r by lia.
        replace (Z.succ (k - 1)) with k by lia. lia. }
      specialize (IH (z / 10) (String (ascii_of_nat (Z.to_nat (48 + z mod 10))) acc) (k - 1)
                     ltac:(lia) ltac:(lia) ltac:(lia)).
      simpl in IH. lia.
Qed.

Lemma substring_prefix_length m s :
  String.length (substring 0 m s) = Nat.min m (String.length s).
Proof.
  revert m. induction s as [|c s IH]; intros [|m]; simpl; try reflexivity. rewrite IH. done.
Qed.

(** [snprintf] into [char buf[m + 1]] keeps the text whole exactly when
    it has at most [m] characters. *)
Lemma substring_prefix_whole m s : substring 0 m s = s <-> (String.length s <= m)%nat.
Proof.
  split.
  - intros E. rewrite <- E, substring_prefix_length. lia.
  - revert m. induction s as [|c s IH]; intros [|m] Hl; simpl in *; try reflexivity; [lia|].
    rewrite IH by lia. done.
Qed.

(** ** Printing and reading back a number *)

(** Every character of [s] satisfies [p]. *)
Fixpoint all_chars (p : ascii -> bool) (s : string) : bool :=
  match s with
  | EmptyString => true
  | String c s' => p c && all_chars p s'
  end.

Definition is_digit (c : ascii) : bool := match digit_of c with Some _ => true | None => false end.

Lemma all_chars_app p a b :
  all_chars p (String.append a b) = all_chars p a && all_chars p b.
Proof. induction a as [|c a IH]; simpl; [reflexivity|]. rewrite IH. apply andb_assoc. Qed.

Lemma all_chars_impl (p q : ascii -> bool) s :
  (forall c, p c = true -> q c = true) -> all_chars p s = true -> all_chars q s = true.
Proof.
  intros Hpq. induction s as [|c s IH]; simpl; [done|].
  rewrite !andb_true_iff. intros [Hc Hs]. auto.
Qed.

Lemma prefix_until_app stop a b :
  all_chars (fun c => negb (stop c)) a = true ->
  prefix_until stop (String.append a b) = String.append a (prefix_until stop b).
Proof.
  induction a as [|c a IH]; simpl; [done|]. rewrite andb_true_iff. intros [Hc Ha].
  destruct (stop c); [discriminate|]. rewrite IH by exact Ha. reflexivity.
Qed.

Lemma split_at_app c a b :
  all_chars (fun d => negb (Ascii.eqb d c)) a = true ->
  split_at c (String.append a (String c b)) = Some (a, b).
Proof.
  induction a as [|d a IH]; simpl.
  - rewrite Ascii.eqb_refl. reflexivity.
  - rewrite andb_true_iff. intros [Hd Ha]. destruct (Ascii.eqb d c); [discriminate|].
    rewrite IH by exact Ha. reflexivity.
Qed.

(** The character [udigits] writes for a digit reads back as it. *)
Lemma digit_of_digit d :
  0 <= d < 10 -> digit_of (ascii_of_nat (Z.to_nat (48 + d))) = Some d.
Proof.
  intros Hd. assert (d = 0 \/ d = 1 \/ d = 2 \/ d = 3 \/ d = 4 \/ d = 5 \/ d = 6 \/ d = 7 \/
                     d = 8 \/ d = 9) as H by lia.
  repeat destruct H as [->|H]; try reflexivity. subst. reflexivity.
Qed.

Lemma udigits_all_digits fuel z acc :
  0 <= z -> all_chars is_digit acc = true -> all_chars is_digit (udigits fuel z acc) = true.
Proof.
  revert z acc. induction fuel as [|fuel IH]; intros z acc Hz Hacc; simpl; [exact Hacc|].
  assert (Hc : all_chars is_digit (String (ascii_of_nat (Z.to_nat (48 + z mod 10))) acc) = true).
  { simpl. unfold is_digit. rewrite digit_of_digit by (apply Z.mod_pos_bound; lia). exact Hacc. }
  destruct (z <? 10); [exact Hc|]. apply IH; [apply Z.div_pos; lia|exact Hc].
Qed.

(** Reading the digits [udigits] wrote, after a prefix read as [a],
    continues the number: [digits] inverts [udigits]. *)
Lemma udigits_digits fuel z acc a :
  0 <= z < 10 ^ Z.of_nat fuel ->
  exists k, 0 <= k /\ digits (udigits fuel z acc) a = digits acc (a * 10 ^ k + z).
Proof.
  revert z acc a. induction fuel as [|fuel IH]; intros z acc a Hz; simpl.
  - exists 0. simpl in Hz. replace z with 0 by lia. split; [lia|]. f_equal. lia.
  - assert (Hd : digits (String (ascii_of_nat (Z.to_nat (48 + z mod 10))) acc) =
                 fun x => digits acc (x * 10 + z mod 10)).
    { simpl. rewrite digit_of_digit by (apply Z.mod_pos_bound; lia). reflexivity. }
    destruct (z <? 10) eqn:H10.
    + exists 1. rewrite Hd. split; [lia|]. apply Z.ltb_lt in H10. rewrite Z.mod_small by lia.
      f_equal.
    + destruct (IH (z / 10) (String (ascii_of_nat (Z.to_nat (48 + z mod 10))) acc) a)
        as (k & Hk & E).
      { split; [apply Z.div_pos; lia|]. apply Z.div_lt_upper_bound; [lia|].
        rewrite Nat2Z.inj_succ, Z.pow_succ_r in Hz by lia. lia. }
      exists (k + 1). split; [lia|]. rewrite E, Hd. f_equal.
      rewrite Z.pow_add_r by lia. pose proof (Z.div_mod z 10). lia.
Qed.

Lemma digits_udigits z : 0 <= z < 10 ^ 12 -> digits (udigits 12 z EmptyString) 0 = z.
Proof.
  intros Hz. destruct (udigits_digits 12 z EmptyString 0 Hz) as (k & _ & ->). simpl. lia.
Qed.

Lemma udigits_head fuel z acc :
  exists c s, udigits (S fuel) z acc = String c s /\ is_digit c = true.
Proof.
  revert z acc. induction fuel as [|fuel IH]; intros z acc.
  - simpl. destruct (z <? 10); eexists _, _; split; try reflexivity;
      unfold is_digit; rewrite digit_of_digit; try reflexivity; apply Z.mod_pos_bound; lia.
  - cbn [udigits]. destruct (z <? 10);
      [eexists _, _; split; [reflexivity|]; unfold is_digit;
       rewrite digit_of_digit; [reflexivity|apply Z.mod_pos_bound; lia]|apply IH].
Qed.

(** [atoi] reads back what [printf("%d")] prints, for every [int]. *)
Lemma atoi_string_of_int z : in_int z = true -> atoi_value (string_of_int z) = z.
Proof.
  intros Hz. apply in_int_spec in Hz. unfold INT_MIN, INT_MAX in Hz.
  unfold string_of_int, atoi_value. destruct (Z.ltb_spec z 0) as [Hneg|Hpos].
  - cbn [skip_space]. replace (is_space "-") with false by reflexivity. cbv beta iota.
    replace (Ascii.eqb "-" "-") with true by reflexivity. cbv beta iota.
    rewrite digits_udigits by lia. lia.
  - destruct (udigits_head 11 z EmptyString) as (c & s & E & Hc). rewrite E. cbn [skip_space].
    assert (Hsp : is_space c = false /\ Ascii.eqb c "-" = false /\ Ascii.eqb c "+" = false).
    { unfold is_digit, digit_of in Hc. destruct c as [[] [] [] [] [] [] [] []]; done. }
    destruct Hsp as (-> & -> & ->). cbv beta iota. rewrite <- E. apply digits_udigits. lia.
Qed.

End CLib.
