(* ===== verification/Adc.v ===== *)
(** * Analog Channel Reader and Axis Scaler

    [read_adc] of [src/gamepad_driver.c] (lines 128-140): one SPI
    full-duplex transfer of the 3-byte frame [{0x8F | channel << 4, 0,
    0}] at [MAX_SPEED] with 8-bit words, and the result rebuilt as
    [(rx[1] << 4) | (rx[2] >> 4)].  [scale_axis] (lines 142-145): the
    linear rescale [val * UINPUT_AXIS_MAX / ADC_MAX], inverted on
    request.  [axis_channels] (line 33) is the channel table.

    Module [MAX186] states, from the converter's datasheet, what the
    control byte means and how the converter clocks out a 12-bit sample;
    it is the abstract contract of the hardware against which
    [read_adc] is shown to return the sample halved. *)

From Stdlib Require Import ZArith String Lia.
From stdpp Require Import base list.
From S2P Require Import Prelude Linux Platform.

Open Scope Z_scope.
Open Scope gamepad_scope.

(** ** Constants of the source *)

Definition MAX_SPEED : Z := 2000000.
Definition ADC_MAX : Z := 2048.
Definition UINPUT_AXIS_MAX : Z := 255.

(** [int axis_channels[4] = {0, 4, 1, 5}; // LEFTX, LEFTY, RIGHTX, RIGHTY] *)
Definition axis_channels : list Z := [0; 4; 1; 5].

(** ** [read_adc] *)

(** [tx[0] = 0x8F | (channel << 4)]: [channel] is the [uint8_t]
    parameter, promoted to [int] for the shift and the OR, and the
    result is stored back into a [uint8_t]. *)
Definition adc_ctrl_byte (channel : Z) : Z :=
  to_uint8 (Z.lor 0x8F (Z.shiftl channel 4)).

Definition adc_tx (channel : Z) : list Z := [adc_ctrl_byte channel; 0; 0].

(** The [struct spi_ioc_transfer tr] of [read_adc]. *)
Definition adc_transfer (channel : Z) : spi_ioc_transfer :=
  mk_spi_ioc_transfer (adc_tx channel) 3 MAX_SPEED 8.

(** [uint8_t rx[3] = {0}]: after the [ioctl] the buffer holds the bytes
    clocked in, or still zeros when the transfer failed (the return code
    is not checked). *)
Definition adc_rx (r : option (list Z)) : list Z :=
  match r with
  | Some l => map to_uint8 (take 3 (l ++ [0; 0; 0]))
  | None => [0; 0; 0]
  end.

(** [return (rx[1] << 4) | (rx[2] >> 4);] *)
Definition adc_value (rx : list Z) : Z :=
  Z.lor (Z.shiftl (nth 1 rx 0) 4) (Z.shiftr (nth 2 rx 0) 4).

(** [int read_adc(int fd, uint8_t channel)]: the argument is converted to
    [uint8_t] on the call. *)
Definition read_adc (fd : Z) (channel : Z) : M Z :=
  r <- sys_spi_message fd (adc_transfer (to_uint8 channel)) ;;
  ret (adc_value (adc_rx r)).

(** ** [scale_axis] *)

(** [int scaled = (val * UINPUT_AXIS_MAX) / ADC_MAX;
     return invert ? (UINPUT_AXIS_MAX - scaled) : scaled;] *)
Definition scale_axis (val invert : Z) : Z :=
  let scaled := c_div (val * UINPUT_AXIS_MAX) ADC_MAX in
  if decide (invert <> 0) then UINPUT_AXIS_MAX - scaled else scaled.

(** ** The MAX186 converter (datasheet contract) *)

Module MAX186.

(** Control byte: START (bit 7), SEL2-SEL0 (bits 6-4), UNI/BIP (bit
    3), SGL/DIF (bit 2), PD1-PD0 (bits 1-0). *)
Definition start (b : Z) : bool := Z.testbit b 7.
Definition sel (b : Z) : Z := Z.land (Z.shiftr b 4) 7.
Definition unipolar (b : Z) : bool := Z.testbit b 3.
Definition single_ended (b : Z) : bool := Z.testbit b 2.
Definition power_mode (b : Z) : Z := Z.land b 3.

(** Single-ended channel selection table: SEL2 SEL1 SEL0 = 000 selects
    CH0, 100 CH1, 001 CH2, 101 CH3, 010 CH4, 110 CH5, 011 CH6, 111
    CH7. *)
Definition channel_of_sel (s : Z) : Z :=
  Z.lor (Z.shiftl (Z.land s 1) 1) (Z.lor (Z.shiftr (Z.land s 4) 2)
                                        (Z.shiftl (Z.land s 2) 1)).

(** In external-clock mode, a 24-clock transfer returns the 12-bit
    result MSB first starting at the second byte after one leading
    zero: [rx = {?, 0 B11..B5, B4..B0 000}]. *)
Definition response (junk sample : Z) : list Z :=
  [junk; Z.shiftr sample 5; to_uint8 (Z.shiftl sample 3)].

(** The sample a MAX186 transfer carries: [((rx1 << 8) | rx2) >> 3]. *)
Definition sample_of (rx : list Z) : Z :=
  Z.shiftr (Z.lor (Z.shiftl (nth 1 rx 0) 8) (nth 2 rx 0)) 3.

End MAX186.

(** ** Helper lemmas *)

Lemma nth_byte_list (l : list Z) i :
  Forall (fun x => 0 <= x < 256) l -> 0 <= nth i l 0 < 256.
Proof.
  intros Hall. destruct (nth_in_or_default i l 0) as [Hin | Hd].
  - rewrite Forall_forall in Hall. apply Hall, list_elem_of_In, Hin.
  - rewrite Hd. lia.
Qed.

Lemma adc_rx_byte r i : 0 <= nth i (adc_rx r) 0 < 256.
Proof.
  apply nth_byte_list. destruct r as [l|]; simpl.
  - apply Forall_forall. intros x Hx.
    apply list_elem_of_In, in_map_iff in Hx as (y & <- & _). apply to_uint8_range.
  - repeat constructor; lia.
Qed.

(** The value [read_adc] rebuilds from two received bytes, as
    arithmetic. *)
Lemma adc_value_arith rx :
  0 <= nth 1 rx 0 -> 0 <= nth 2 rx 0 < 256 ->
  adc_value rx = nth 1 rx 0 * 16 + nth 2 rx 0 / 16.
Proof.
  intros H1 H2. unfold adc_value.
  rewrite (Z.shiftr_div_pow2 (nth 2 rx 0)) by lia.
  rewrite lor_shiftl_low by (change (2 ^ 4) with 16; Z.div_mod_to_equations; lia).
  reflexivity.
Qed.

Lemma scale_axis_plain v : 0 <= v -> scale_axis v 0 = v * 255 / 2048.
Proof.
  intros Hv. unfold scale_axis. rewrite decide_False by lia.
  apply c_div_nonneg; unfold UINPUT_AXIS_MAX, ADC_MAX; lia.
Qed.

Lemma scale_axis_inverted v inv :
  0 <= v -> inv <> 0 -> scale_axis v inv = 255 - v * 255 / 2048.
Proof.
  intros Hv Hi. unfold scale_axis. rewrite decide_True by exact Hi.
  rewrite c_div_nonneg; unfold UINPUT_AXIS_MAX, ADC_MAX; lia.
Qed.

(** On a 12-bit reading, the scaled value lies in [[-254, 509]]. *)
Lemma scale_axis_12bit v inv : 0 <= v < 4096 -> -254 <= scale_axis v inv <= 509.
Proof.
  intros Hv. destruct (decide (inv = 0)) as [->|Hi].
  - rewrite scale_axis_plain by lia. Z.div_mod_to_equations. lia.
  - rewrite scale_axis_inverted by lia. Z.div_mod_to_equations. lia.
Qed.

Lemma to_uint8_shiftl3 s : 0 <= s -> to_uint8 (Z.shiftl s 3) = (s mod 32) * 8.
Proof.
  intros Hs. unfold to_uint8. rewrite Z.shiftl_mul_pow2 by lia.
  change (2 ^ 3) with 8. change (2 ^ 8) with 256. Z.div_mod_to_equations. lia.
Qed.

(** ** Properties of [read_adc] *)

(** What one call does: a single transfer of the frame for the channel
    (converted to [uint8_t]) on [fd], logged with its answer, and the
    value rebuilt from what was clocked in. *)
Lemma read_adc_step fd ch w :
  read_adc fd ch w =
    let t := fd_target w fd in
    let tr := adc_transfer (to_uint8 ch) in
    let r := match t with
             | Some _ => env_spi (w_env w) (w_log w) tr
             | None => None
             end in
    (Done (adc_value (adc_rx r)), log_ev (SysSpiMessage t tr r) w).
Proof. reflexivity. Qed.

(** Whatever was clocked in, the rebuilt value has 12 bits. *)
Lemma adc_value_range r : 0 <= adc_value (adc_rx r) < 4096.
Proof.
  set (rx := adc_rx r).
  assert (H1 : 0 <= nth 1 rx 0 < 256) by apply adc_rx_byte.
  assert (H2 : 0 <= nth 2 rx 0 < 256) by apply adc_rx_byte.
  rewrite adc_value_arith by lia. Z.div_mod_to_equations. lia.
Qed.

(** A MAX186 answer framing the sample [s] rebuilds to [s / 2]. *)
Lemma adc_value_response junk s :
  0 <= s < 4096 -> adc_value (adc_rx (Some (MAX186.response junk s))) = s / 2.
Proof.
  intros Hs. cbn [adc_rx MAX186.response app take map].
  rewrite (to_uint8_small (Z.shiftr s 5))
    by (rewrite Z.shiftr_div_pow2 by lia; change (2 ^ 5) with 32;
        Z.div_mod_to_equations; lia).
  rewrite to_uint8_shiftl3 by lia.
  rewrite (to_uint8_small ((s mod 32) * 8)) by (Z.div_mod_to_equations; lia).
  rewrite adc_value_arith; cbn [nth]; rewrite ?Z.shiftr_div_pow2 by lia;
    change (2 ^ 5) with 32; Z.div_mod_to_equations; lia.
Qed.

(** C15: Refinement of the converter contract.  When the MAX186 answers
    the frame with a 12-bit sample [s] (in [0, 4096)) framed as its
    datasheet says, [read_adc]'s reconstruction yields [s / 2]: the
    sample with its least significant bit dropped, which lies in
    [0, ADC_MAX). *)
Theorem adc_value_max186 junk s :
  0 <= s < 4096 ->
  adc_value (adc_rx (Some (MAX186.response junk s))) = s / 2 /\ 0 <= s / 2 < ADC_MAX.
Proof.
  intros Hs. split; [apply adc_value_response, Hs|unfold ADC_MAX; Z.div_mod_to_equations; lia].
Qed.

Lemma adc_value_max186_witness :
  (0 <= 3000 < 4096) /\
  adc_value (adc_rx (Some (MAX186.response 0 3000))) = 3000 / 2 /\ 0 <= 3000 / 2 < ADC_MAX.
Proof. split; [lia|]. apply adc_value_max186. lia. Defined.

(** C17: Bounds of [read_adc] on any answer.  Whatever the bus clocks in
    (or when the transfer fails), [read_adc] returns a value in
    [0, 4096); it is below [ADC_MAX] exactly when the top bit of
    [rx[1]] is clear, so a misbehaving bus yields values up to twice
    the range [scale_axis] is designed for. *)
Theorem adc_value_bounds r :
  0 <= adc_value (adc_rx r) < 4096 /\
  (adc_value (adc_rx r) < ADC_MAX <-> nth 1 (adc_rx r) 0 < 128).
Proof.
  set (rx := adc_rx r).
  assert (H1 : 0 <= nth 1 rx 0 < 256) by apply adc_rx_byte.
  assert (H2 : 0 <= nth 2 rx 0 < 256) by apply adc_rx_byte.
  rewrite adc_value_arith by lia. unfold ADC_MAX.
  split; [|split]; intros; Z.div_mod_to_equations; lia.
Qed.

(** C25: The control byte of [read_adc] for a channel in [0, 8) has the
    START bit set, selects that channel in SEL2-SEL0, asks for a
    unipolar single-ended conversion with external clock (PD = 3):
    the frame can be decoded back to the channel it was built from. *)
Theorem adc_ctrl_byte_fields ch :
  0 <= ch < 8 ->
  MAX186.start (adc_ctrl_byte ch) = true /\
  MAX186.sel (adc_ctrl_byte ch) = ch /\
  MAX186.unipolar (adc_ctrl_byte ch) = true /\
  MAX186.single_ended (adc_ctrl_byte ch) = true /\
  MAX186.power_mode (adc_ctrl_byte ch) = 3.
Proof.
  intros Hch.
  assert (Hc : forallb (fun c =>
     MAX186.start (adc_ctrl_byte c) && (MAX186.sel (adc_ctrl_byte c) =? c) &&
     MAX186.unipolar (adc_ctrl_byte c) && MAX186.single_ended (adc_ctrl_byte c) &&
     (MAX186.power_mode (adc_ctrl_byte c) =? 3)) (seqZ 0 8) = true)
    by reflexivity.
  pose proof (forallb_seqZ_spec _ _ _ Hc ch ltac:(lia)) as H.
  rewrite !andb_true_iff, !Z.eqb_eq in H. tauto.
Qed.

Lemma adc_ctrl_byte_fields_witness :
  (0 <= 5 < 8) /\ MAX186.sel (adc_ctrl_byte 5) = 5.
Proof. split; [lia|]. apply (adc_ctrl_byte_fields 5). lia. Defined.

(** C26: Channel aliasing.  For every [uint8_t] channel, the frame only
    depends on the channel modulo 8: bit 7 of [channel << 4] falls on
    the START bit, which [0x8F] already sets, and higher bits are cut by
    the [uint8_t] store.  Channels 8-15 select the same input as 0-7. *)
Theorem adc_ctrl_byte_alias ch :
  0 <= ch < 256 -> adc_ctrl_byte ch = adc_ctrl_byte (ch mod 8).
Proof.
  intros Hch.
  assert (Hc : forallb (fun c => adc_ctrl_byte c =? adc_ctrl_byte (c mod 8))
                       (seqZ 0 256) = true) by reflexivity.
  apply Z.eqb_eq, (forallb_seqZ_spec _ _ _ Hc). lia.
Qed.

Lemma adc_ctrl_byte_alias_witness :
  (0 <= 12 < 256) /\ adc_ctrl_byte 12 = adc_ctrl_byte (12 mod 8).
Proof. split; [lia|]. apply (adc_ctrl_byte_alias 12). lia. Defined.

(** ** Properties of [scale_axis] *)

(** C16: Range.  For a sample in [0, ADC_MAX] the scaled value lies in
    [0, UINPUT_AXIS_MAX], the range registered for the axis, whether
    inverted or not. *)
Theorem scale_axis_range v inv :
  0 <= v <= ADC_MAX -> 0 <= scale_axis v inv <= UINPUT_AXIS_MAX.
Proof.
  unfold ADC_MAX, UINPUT_AXIS_MAX. intros Hv.
  destruct (decide (inv = 0)) as [->|Hi].
  - rewrite scale_axis_plain by lia. Z.div_mod_to_equations. lia.
  - rewrite scale_axis_inverted by lia. Z.div_mod_to_equations. lia.
Qed.

Lemma scale_axis_range_witness :
  (0 <= 1500 <= ADC_MAX) /\ 0 <= scale_axis 1500 1 <= UINPUT_AXIS_MAX.
Proof. split; [unfold ADC_MAX; lia|]. apply scale_axis_range. unfold ADC_MAX; lia. Defined.

(** C24: Mirror law.  For a valid sample [r], the inverted scaling of the
    mirrored sample [2047 - r] exceeds the plain scaling of [r] by one
    or two: the two truncations never cancel. *)
Theorem scale_axis_mirror r :
  0 <= r < ADC_MAX ->
  1 <= scale_axis (2047 - r) 1 - scale_axis r 0 <= 2.
Proof.
  unfold ADC_MAX. intros Hr.
  assert (Hc : forallb (fun x => let d := scale_axis (2047 - x) 1 - scale_axis x 0 in
                                 (1 <=? d) && (d <=? 2)) (seqZ 0 2048) = true)
    by (vm_compute; reflexivity).
  pose proof (forallb_seqZ_spec _ _ _ Hc r ltac:(lia)) as H. cbv beta zeta in H.
  rewrite andb_true_iff, !Z.leb_le in H. exact H.
Qed.

Lemma scale_axis_mirror_witness :
  (0 <= 15 < ADC_MAX) /\ 1 <= scale_axis (2047 - 15) 1 - scale_axis 15 0 <= 2.
Proof. split; [unfold ADC_MAX; lia|]. apply scale_axis_mirror. unfold ADC_MAX; lia. Defined.

(** C27: Monotonicity: the plain scaling is non-decreasing and the
    inverted one non-increasing in the sample. *)
Theorem scale_axis_monotone v v' inv :
  0 <= v <= v' -> inv <> 0 ->
  scale_axis v 0 <= scale_axis v' 0 /\ scale_axis v' inv <= scale_axis v inv.
Proof.
  intros Hv Hi. rewrite !scale_axis_plain, !scale_axis_inverted by lia.
  assert (v * 255 / 2048 <= v' * 255 / 2048) by (apply Z.div_le_mono; lia).
  lia.
Qed.

Lemma scale_axis_monotone_witness :
  (0 <= 100 <= 900 /\ 1 <> 0) /\
  scale_axis 100 0 <= scale_axis 900 0 /\ scale_axis 900 1 <= scale_axis 100 1.
Proof. split; [lia|]. apply scale_axis_monotone; lia. Defined.

(** C18: No overflow in the driver's scaling.  Whatever the bus
    answers, [read_adc] completes and the value it returns makes the
    product [val * UINPUT_AXIS_MAX] of [scale_axis] and its result
    representable in a 32-bit [int]: the C arithmetic of the sampling
    path has no undefined behaviour. *)
Theorem read_adc_scale_no_overflow fd ch inv w :
  match (read_adc fd ch w).1 with
  | Done v => in_int (v * UINPUT_AXIS_MAX) = true /\ in_int (scale_axis v inv) = true
  | _ => False
  end.
Proof.
  rewrite read_adc_step. cbv zeta. simpl.
  match goal with |- context [adc_value (adc_rx ?r)] =>
    pose proof (adc_value_range r) as Hv;
    pose proof (scale_axis_12bit (adc_value (adc_rx r)) inv Hv) end.
  split; apply in_int_spec; unfold INT_MIN, INT_MAX, UINPUT_AXIS_MAX in *; lia.
Qed.

(** C28: No clamping.  [scale_axis] keeps a reading inside
    [[0, UINPUT_AXIS_MAX]] exactly when it is below 2057: from 2057 on
    (readings [read_adc] returns when the top bit of [rx[1]] is set) the
    plain scaling exceeds [UINPUT_AXIS_MAX] and the inverted one is
    negative; the code never clamps. *)
Theorem scale_axis_unclamped v inv :
  0 <= v -> inv <> 0 ->
  (scale_axis v 0 <= UINPUT_AXIS_MAX <-> v < 2057) /\ (0 <= scale_axis v inv <-> v < 2057).
Proof.
  intros Hv Hi. rewrite scale_axis_plain, scale_axis_inverted by lia. unfold UINPUT_AXIS_MAX.
  split; split; intros H; Z.div_mod_to_equations; lia.
Qed.

Lemma scale_axis_unclamped_witness :
  (0 <= 4095 /\ 1 <> 0) /\
  (scale_axis 4095 0 <= UINPUT_AXIS_MAX <-> 4095 < 2057) /\ (0 <= scale_axis 4095 1 <-> 4095 < 2057).
Proof. split; [lia|]. apply scale_axis_unclamped; lia. Defined.

(** A read is silent on the device and returns a value below 4096. *)
Lemma wp_read_adc_frame fd ch Q w :
  (forall v w', 0 <= v < 4096 -> emits w w' [] -> Q v w') -> wp (read_adc fd ch) Q w.
Proof.
  intros HQ. unfold wp. rewrite read_adc_step. cbv zeta.
  apply HQ; [apply adc_value_range|apply emits_log_quiet; reflexivity].
Qed.
