(* ===== verification/Config.v ===== *)
(** * Configuration Model: [map_button_name] and [load_config]

    [src/gamepad_driver.c] lines 17-31 declare the global table
    [struct ButtonConfig buttons[MAX_BUTTONS]] and its fill count
    [button_count]; [map_button_name] (lines 36-54) maps the sixteen
    recognised names to [uinput] key codes; [load_config] (lines 57-92)
    reads [gamepad.conf] with [fgets] into a 128-byte buffer and, for
    every accepted [NAME=NUMBER] line, writes [buttons[button_count]]
    and increments [button_count].

    The globals are a [globals] record threaded through [load_config];
    the file is read through [sys_fopen_read] of the platform and the
    C library functions the parser calls come from [CString].  Writing [buttons[32]] and an [atoi] result outside
    [int] are undefined behaviour and are modelled as such
    ([Undefined]).

    The theorems: [load_config] builds the table a pure reading of its
    lines gives, overflows exactly past 32 accepted lines, prints one
    diagnostic line per accepted binding, binds only recognised names
    whatever the file holds, and reads back a table printed as
    [NAME=NUMBER] lines. *)

From Stdlib Require Import ZArith String Ascii Lia.
From stdpp Require Import base list strings.
From S2P Require Import Prelude Linux Platform CString.

Open Scope Z_scope.
Open Scope gamepad_scope.

(** ** Data *)

Definition MAX_BUTTONS : Z := 32.
Definition CONFIG_PATH : string := "gamepad.conf".

(** [struct ButtonConfig { char name[32]; int gpio; int keycode; }] *)
Record ButtonConfig := mk_ButtonConfig {
  bc_name : string;
  bc_gpio : Z;
  bc_keycode : Z
}.

#[export] Instance ButtonConfig_eq_dec : EqDecision ButtonConfig.
Proof. solve_decision. Defined.

(** The zero-initialised element of a global array. *)
Definition button_zero : ButtonConfig := mk_ButtonConfig "" 0 0.

(** [struct ButtonConfig buttons[MAX_BUTTONS]; int button_count = 0;] *)
Record globals := mk_globals {
  buttons : list ButtonConfig;
  button_count : Z
}.

Definition globals_init : globals :=
  mk_globals (repeat button_zero (Z.to_nat MAX_BUTTONS)) 0.

(** ** [map_button_name] *)

Definition map_button_name (name : string) : Z :=
  if String.eqb name "A" then BTN_A else
  if String.eqb name "B" then BTN_B else
  if String.eqb name "X" then BTN_X else
  if String.eqb name "Y" then BTN_Y else
  if String.eqb name "DPAD_UP" then BTN_DPAD_UP else
  if String.eqb name "DPAD_DOWN" then BTN_DPAD_DOWN else
  if String.eqb name "DPAD_LEFT" then BTN_DPAD_LEFT else
  if String.eqb name "DPAD_RIGHT" then BTN_DPAD_RIGHT else
  if String.eqb name "LEFT_TRIG1" then BTN_TL else
  if String.eqb name "LEFT_TRIG2" then BTN_TL2 else
  if String.eqb name "RIGHT_TRIG1" then BTN_TR else
  if String.eqb name "RIGHT_TRIG2" then BTN_TR2 else
  if String.eqb name "THUMBL" then BTN_THUMBL else
  if String.eqb name "THUMBR" then BTN_THUMBR else
  if String.eqb name "STRT" then BTN_START else
  if String.eqb name "SEL" then BTN_SELECT else
  -1.


(** ** [load_config] *)

Definition fmt_button (n : Z) (name : string) (gpio keycode : Z) : string :=
  "Button " ++ CLib.string_of_int n ++ " (" ++ name ++ ") = GPIO " ++
  CLib.string_of_int gpio ++ " (keycode " ++ CLib.string_of_int keycode ++ ")" ++
  String CLib.LF EmptyString.

(** [strncpy(buttons[button_count].name, name, 31); ...gpio = gpio;
    ...keycode = keycode;] and, after the [printf], [button_count++]. *)
Definition store_button (g : globals) (b : ButtonConfig) : globals :=
  mk_globals (<[Z.to_nat (button_count g) := b]> (buttons g)) (button_count g + 1).

(** The body of [while (fgets(line, sizeof(line), ff)) { ... }] on one
    buffer: strip the line end, skip comments, section headers and
    short lines, split at the first ['='], look the name up, parse the
    number, store the binding at [buttons[button_count]], print it and
    count it. *)
Definition config_line (g : globals) (buf : string) : M globals :=
  let line := CLib.cut_eol (CLib.cstr buf) in
  if Ascii.eqb (CLib.first_char line) "#" || Ascii.eqb (CLib.first_char line) "["
     || (String.length line <? 3)%nat
  then ret g
  else
    match CLib.split_at "=" line with
    | None => ret g
    | Some (name, value) =>
        let keycode := map_button_name name in
        if keycode <? 0 then ret g
        else
          match CLib.atoi value with
          | None => undefined "atoi: value not representable in int"
          | Some gpio =>
              if decide (MAX_BUTTONS <= button_count g)
              then undefined "buttons[button_count]: store past the end of the array"
              else
                let b := mk_ButtonConfig (CLib.strncpy31 name) gpio keycode in
                sys_print (fmt_button (button_count g) name gpio keycode) ;;
                ret (store_button g b)
          end
    end.

(** [void load_config(const char *path)]: on [fopen] failure, [perror]
    and return with the table unchanged. *)
Definition load_config (path : string) (g : globals) : M globals :=
  c <- sys_fopen_read path ;;
  match c with
  | None => sys_print "fopen" ;; ret g
  | Some contents => mfoldl config_line (CLib.fgets_chunks contents) g
  end.

(** ** A pure reading of the file *)

(** The binding a buffer denotes, if it is accepted: the recognised
    name, the number [atoi] reads, the name's key code.  This is the
    loop body's own parse (split at the first ['='], [atoi]'s
    leniency), without its effects; it is not the spec's stricter
    format. *)
Definition config_entry (buf : string) : option ButtonConfig :=
  let line := CLib.cut_eol (CLib.cstr buf) in
  if Ascii.eqb (CLib.first_char line) "#" || Ascii.eqb (CLib.first_char line) "["
     || (String.length line <? 3)%nat
  then None
  else
    match CLib.split_at "=" line with
    | None => None
    | Some (name, value) =>
        let keycode := map_button_name name in
        if keycode <? 0 then None
        else Some (mk_ButtonConfig (CLib.strncpy31 name) (CLib.atoi_value value) keycode)
    end.

(** The bindings a file denotes, in file order. *)
Definition config_spec (contents : string) : list ButtonConfig :=
  omap config_entry (CLib.fgets_chunks contents).

(** The table a [globals] value holds: its first [button_count] slots. *)
Definition table (g : globals) : list ButtonConfig :=
  take (Z.to_nat (button_count g)) (buttons g).

(** Well-formed globals: a 32-slot array and a count within it. *)
Definition globals_wf (g : globals) : Prop :=
  length (buttons g) = Z.to_nat MAX_BUTTONS /\ 0 <= button_count g <= MAX_BUTTONS.

(** The lines [printf("Button %d (%s) = GPIO %d (keycode %d)\n", ...)]
    prints for bindings stored from slot [n] on. *)
Fixpoint binding_lines (n : Z) (bs : list ButtonConfig) : list string :=
  match bs with
  | [] => []
  | b :: bs' => fmt_button n (bc_name b) (bc_gpio b) (bc_keycode b) :: binding_lines (n + 1) bs'
  end.

(** ** Lemmas *)

Lemma store_button_table g b :
  globals_wf g -> button_count g < MAX_BUTTONS ->
  table (store_button g b) = table g ++ [b] /\ globals_wf (store_button g b).
Proof.
  unfold globals_wf, table, store_button, MAX_BUTTONS. simpl. intros [Hlen Hc] Hlt.
  split; [|rewrite length_insert; lia].
  rewrite Z2Nat.inj_add, Nat.add_1_r by lia.
  rewrite (take_S_r _ _ b) by (apply list_lookup_insert_eq; lia).
  rewrite take_insert_ge by lia. reflexivity.
Qed.

(** A recognised name is at most 11 characters: [strncpy] keeps it. *)
Lemma map_button_name_strncpy n : 0 <= map_button_name n -> CLib.strncpy31 n = n.
Proof.
  unfold map_button_name.
  repeat match goal with
         | |- context [String.eqb n ?s] =>
             destruct (String.eqb_spec n s) as [->|_]; [reflexivity|]
         end.
  lia.
Qed.

(** One buffer of the loop, as the binding it denotes. *)
Lemma config_line_entry g buf w :
  config_line g buf w =
  match config_entry buf with
  | None => (Done g, w)
  | Some b =>
      if negb (in_int (bc_gpio b))
      then (Undefined "atoi: value not representable in int", w)
      else if decide (MAX_BUTTONS <= button_count g)
      then (Undefined "buttons[button_count]: store past the end of the array", w)
      else (Done (store_button g b),
            log_ev (SysPrint (fmt_button (button_count g) (bc_name b) (bc_gpio b)
                                         (bc_keycode b))) w)
  end.
Proof.
  unfold config_line, config_entry.
  destruct (_ || _ || _); [reflexivity|].
  destruct (CLib.split_at _ _) as [[name value]|]; [|reflexivity].
  destruct (map_button_name name <? 0) eqn:Hk; [reflexivity|]. simpl.
  unfold CLib.atoi. destruct (in_int (CLib.atoi_value value)); [|reflexivity].
  simpl. destruct (decide _); [reflexivity|].
  rewrite map_button_name_strncpy by lia. reflexivity.
Qed.

Lemma mfoldl_cons {A B} (body : A -> B -> M A) b l acc w :
  mfoldl body (b :: l) acc w =
  match body acc b w with
  | (Done a, w') => mfoldl body l a w'
  | (Exited s, w') => (Exited s, w')
  | (Undefined r, w') => (Undefined r, w')
  | (Running, w') => (Running, w')
  end.
Proof. reflexivity. Qed.

(** The loop over the buffers, while the table has room and every
    number is an [int]: the table grows by the bindings the buffers
    denote, in order. *)
Lemma config_fold_ok chunks g w :
  globals_wf g ->
  Forall (fun b => in_int (bc_gpio b) = true) (omap config_entry chunks) ->
  (Z.to_nat (button_count g) + length (omap config_entry chunks) <= Z.to_nat MAX_BUTTONS)%nat ->
  exists g' w', mfoldl config_line chunks g w = (Done g', w') /\
                table g' = table g ++ omap config_entry chunks /\ globals_wf g' /\
                output (w_log w') =
                  output (w_log w) ++ binding_lines (button_count g) (omap config_entry chunks).
Proof.
  revert g w. induction chunks as [|c chunks IH]; intros g w Hwf Hint Hroom.
  - exists g, w. rewrite !app_nil_r. auto.
  - rewrite mfoldl_cons, config_line_entry. simpl in Hint, Hroom.
    destruct (config_entry c) as [b|] eqn:Hc; simpl in Hint, Hroom |- *;
      change (list_omap _ _ config_entry chunks) with (omap config_entry chunks) in *.
    + apply Forall_cons in Hint as [Hb Hint]. rewrite Hb. simpl.
      pose proof Hwf as [Hlen Hcnt]. unfold MAX_BUTTONS in *.
      destruct (decide _) as [Hd|Hd]; [exfalso; lia|].
      destruct (store_button_table g b) as [Htab Hwf2]; [auto|unfold MAX_BUTTONS; lia|].
      destruct (IH (store_button g b) (log_ev (SysPrint (fmt_button (button_count g)
                  (bc_name b) (bc_gpio b) (bc_keycode b))) w)) as (g' & w' & Hrun & Ht & Hw & Ho);
        [exact Hwf2|exact Hint|cbn [button_count store_button]; lia|].
      exists g', w'. simpl. rewrite Hrun. split; [reflexivity|].
      rewrite Ht, Htab, <- app_assoc, Hc. split; [reflexivity|split; [exact Hw|]].
      rewrite Ho, output_log_ev, <- app_assoc. reflexivity.
    + rewrite Hc. apply IH; auto.
Qed.

(** Once a 33rd binding arrives, the loop stores past the end of
    [buttons]: undefined behaviour. *)
Lemma config_fold_overflow chunks g w :
  globals_wf g ->
  Forall (fun b => in_int (bc_gpio b) = true) (omap config_entry chunks) ->
  (Z.to_nat MAX_BUTTONS < Z.to_nat (button_count g) + length (omap config_entry chunks))%nat ->
  exists r w', mfoldl config_line chunks g w = (Undefined r, w').
Proof.
  revert g w. induction chunks as [|c chunks IH]; intros g w Hwf Hint Hroom.
  - simpl in Hroom. destruct Hwf. unfold MAX_BUTTONS in *. lia.
  - rewrite mfoldl_cons, config_line_entry. simpl in Hint, Hroom.
    destruct (config_entry c) as [b|] eqn:Hc; simpl in Hint, Hroom |- *;
      change (list_omap _ _ config_entry chunks) with (omap config_entry chunks) in *.
    + apply Forall_cons in Hint as [Hb Hint]. rewrite Hb. simpl.
      destruct (decide (MAX_BUTTONS <= button_count g)) as [Hfull|Hfree]; [eauto|].
      destruct (store_button_table g b) as [_ Hwf2]; [auto|lia|].
      apply IH; [exact Hwf2|exact Hint|]. destruct Hwf as [_ Hcnt]. cbn [button_count store_button]. unfold MAX_BUTTONS in *. lia.
    + apply IH; auto.
Qed.

Lemma table_length g :
  globals_wf g -> length (table g) = Z.to_nat (button_count g).
Proof.
  unfold globals_wf, table, MAX_BUTTONS. intros [Hlen Hc].
  rewrite length_take. lia.
Qed.

(** ** The recognised-name table (spec, section 6) *)

Definition button_table : list (string * Z) :=
  [("A", BTN_A); ("B", BTN_B); ("X", BTN_X); ("Y", BTN_Y);
   ("DPAD_UP", BTN_DPAD_UP); ("DPAD_DOWN", BTN_DPAD_DOWN);
   ("DPAD_LEFT", BTN_DPAD_LEFT); ("DPAD_RIGHT", BTN_DPAD_RIGHT);
   ("LEFT_TRIG1", BTN_TL); ("LEFT_TRIG2", BTN_TL2);
   ("RIGHT_TRIG1", BTN_TR); ("RIGHT_TRIG2", BTN_TR2);
   ("THUMBL", BTN_THUMBL); ("THUMBR", BTN_THUMBR);
   ("STRT", BTN_START); ("SEL", BTN_SELECT)].

Fixpoint assoc_name (n : string) (t : list (string * Z)) : option Z :=
  match t with
  | [] => None
  | (k, c) :: t' => if String.eqb n k then Some c else assoc_name n t'
  end.

Lemma assoc_name_in n t c : assoc_name n t = Some c -> (n, c) ∈ t.
Proof.
  induction t as [|[k c'] t IH]; simpl; [discriminate|].
  destruct (String.eqb_spec n k) as [->|_].
  - intros [= ->]. left.
  - intros H. right. auto.
Qed.

(** A recognised name and its code form an entry of the table. *)
Lemma map_button_name_in n :
  0 <= map_button_name n -> (n, map_button_name n) ∈ button_table.
Proof.
  unfold map_button_name.
  repeat match goal with
         | |- context [String.eqb n ?s] =>
             destruct (String.eqb_spec n s) as [->|_];
               [intros _; apply list_elem_of_In; cbn; tauto|]
         end.
  lia.
Qed.

(** ** Properties of the configuration model *)

(** C23: [map_button_name] is the lookup of the spec's sixteen-entry
    name table: a recognised name yields its code, any other string
    yields -1. *)
Theorem map_button_name_table n :
  map_button_name n = default (-1) (assoc_name n button_table).
Proof.
  unfold map_button_name. cbn [assoc_name button_table].
  repeat (destruct (String.eqb n _); [reflexivity|]). reflexivity.
Qed.

Lemma globals_init_wf : globals_wf globals_init.
Proof. split; [reflexivity|unfold MAX_BUTTONS; simpl; lia]. Qed.

(** A world whose configuration file holds [contents]. *)
Definition config_world (contents : string) : world :=
  sample_world (sample_env (fun p => if String.eqb p CONFIG_PATH then Some contents else None)
                           (fun _ _ => None) (fun _ _ => None)).

(** C9: [load_config] builds the table its lines denote.  When the file can
    be opened, every number is an [int] and at most [MAX_BUTTONS] lines
    are accepted, [load_config] terminates normally, the table
    [buttons[0 .. button_count)] is exactly the list of bindings the
    file denotes, in file order, and the globals stay well formed. *)
Theorem load_config_refines path contents w :
  env_file (w_env w) path = Some contents ->
  forallb (fun b => in_int (bc_gpio b)) (config_spec contents) = true ->
  (length (config_spec contents) <= Z.to_nat MAX_BUTTONS)%nat ->
  exists g' w', load_config path globals_init w = (Done g', w') /\
    table g' = config_spec contents /\
    button_count g' = Z.of_nat (length (config_spec contents)) /\ globals_wf g'.
Proof.
  intros Hfile Hint Hroom. unfold load_config, bind, sys_fopen_read. rewrite Hfile.
  apply forallb_Forall_true in Hint.
  destruct (config_fold_ok (CLib.fgets_chunks contents) globals_init
              (log_ev (SysFopen path (bool_decide (is_Some (Some contents)))) w))
    as (g' & w' & Hrun & Htab & Hwf & _); [apply globals_init_wf|exact Hint|exact Hroom|].
  exists g', w'. split; [exact Hrun|]. unfold config_spec in *.
  assert (Hlen := table_length g' Hwf). pose proof Hwf as [_ Hc].
  change (table globals_init) with (@nil ButtonConfig) in Htab. rewrite app_nil_l in Htab.
  rewrite <- Htab. split; [reflexivity|]. split; [|exact Hwf].
  rewrite Hlen, Z2Nat.id by lia. reflexivity.
Qed.

Lemma load_config_refines_witness :
  let c := String.append "A=17" (String CLib.LF "B=27") in
  (env_file (w_env (config_world c)) CONFIG_PATH = Some c /\
   forallb (fun b => in_int (bc_gpio b)) (config_spec c) = true /\
   (length (config_spec c) <= Z.to_nat MAX_BUTTONS)%nat) /\
  exists g' w', load_config CONFIG_PATH globals_init (config_world c) = (Done g', w') /\
    table g' = config_spec c /\
    button_count g' = Z.of_nat (length (config_spec c)) /\ globals_wf g'.
Proof.
  intros c. split; [split; [reflexivity|split; [reflexivity|vm_compute; lia]]|].
  apply load_config_refines; [reflexivity|reflexivity|vm_compute; lia].
Defined.

(** C13: Diagnostics of a load.  Under the conditions of the refinement
    theorem, [load_config] prints exactly one line per accepted binding,
    in file order, numbered from 0:
    [Button i (NAME) = GPIO g (keycode k)]; nothing else is printed. *)
Theorem load_config_prints path contents w :
  env_file (w_env w) path = Some contents ->
  forallb (fun b => in_int (bc_gpio b)) (config_spec contents) = true ->
  (length (config_spec contents) <= Z.to_nat MAX_BUTTONS)%nat ->
  exists g' w', load_config path globals_init w = (Done g', w') /\
    output (w_log w') = output (w_log w) ++ binding_lines 0 (config_spec contents).
Proof.
  intros Hfile Hint Hroom. unfold load_config, bind, sys_fopen_read. rewrite Hfile.
  apply forallb_Forall_true in Hint.
  destruct (config_fold_ok (CLib.fgets_chunks contents) globals_init
              (log_ev (SysFopen path (bool_decide (is_Some (Some contents)))) w))
    as (g' & w' & Hrun & _ & _ & Ho); [apply globals_init_wf|exact Hint|exact Hroom|].
  exists g', w'. split; [exact Hrun|]. rewrite Ho, output_log_ev. simpl. rewrite app_nil_r.
  reflexivity.
Qed.

Lemma load_config_prints_witness :
  let c := String.append "A=17" (String CLib.LF "B=27") in
  (env_file (w_env (config_world c)) CONFIG_PATH = Some c /\
   forallb (fun b => in_int (bc_gpio b)) (config_spec c) = true /\
   (length (config_spec c) <= Z.to_nat MAX_BUTTONS)%nat) /\
  binding_lines 0 (config_spec c) =
    ["Button 0 (A) = GPIO 17 (keycode 304)" ++ String CLib.LF EmptyString;
     "Button 1 (B) = GPIO 27 (keycode 305)" ++ String CLib.LF EmptyString]%string /\
  exists g' w', load_config CONFIG_PATH globals_init (config_world c) = (Done g', w') /\
    output (w_log w') = output (w_log (config_world c)) ++ binding_lines 0 (config_spec c).
Proof.
  intros c. split; [split; [reflexivity|split; [reflexivity|vm_compute; lia]]|].
  split; [vm_compute; reflexivity|].
  apply load_config_prints; [reflexivity|reflexivity|vm_compute; lia].
Defined.

(** C12: Cap not enforced.  The spec promises that a file with more than
    [MAX_BUTTONS] valid lines yields the first 32 bindings; the code
    never tests [button_count] and the 33rd accepted line stores to
    [buttons[32]], past the end of the array: undefined behaviour. *)
Theorem load_config_overflow path contents w :
  env_file (w_env w) path = Some contents ->
  forallb (fun b => in_int (bc_gpio b)) (config_spec contents) = true ->
  (Z.to_nat MAX_BUTTONS < length (config_spec contents))%nat ->
  exists r w', load_config path globals_init w = (Undefined r, w').
Proof.
  intros Hfile Hint Hmany. unfold load_config, bind, sys_fopen_read. rewrite Hfile.
  apply forallb_Forall_true in Hint.
  apply config_fold_overflow; [apply globals_init_wf|exact Hint|].
  simpl. exact Hmany.
Qed.

Fixpoint repeat_line (n : nat) (s : string) : string :=
  match n with O => EmptyString | S n' => String.append s (String CLib.LF (repeat_line n' s)) end.

Lemma load_config_overflow_witness :
  let c := repeat_line 33 "A=1" in
  (env_file (w_env (config_world c)) CONFIG_PATH = Some c /\
   forallb (fun b => in_int (bc_gpio b)) (config_spec c) = true /\
   (Z.to_nat MAX_BUTTONS < length (config_spec c))%nat) /\
  exists r w', load_config CONFIG_PATH globals_init (config_world c) = (Undefined r, w').
Proof.
  intros c. split; [split; [reflexivity|split; [reflexivity|vm_compute; lia]]|].
  apply (load_config_overflow _ c); [reflexivity|reflexivity|vm_compute; lia].
Defined.

(** ** Reading the stream with [fgets] *)

Lemma fgets_take_split k s :
  let '(a, b) := CLib.fgets_take k s in
  String.append a b = s /\
  (String.length a <= k)%nat /\
  (k <> 0%nat -> s <> EmptyString -> 0 < String.length a)%nat.
Proof.
  revert s. induction k as [|k IH]; intros s; simpl; [split; [reflexivity|lia]|].
  destruct s as [|c s']; simpl; [split; [reflexivity|split; [lia|congruence]]|].
  destruct (Ascii.eqb c CLib.LF); simpl; [split; [reflexivity|lia]|].
  specialize (IH s'). destruct (CLib.fgets_take k s') as [a b].
  destruct IH as [Hab [Hlen _]]. simpl. split; [|lia].
  change (String c (String.append a b) = String c s'). rewrite Hab. reflexivity.
Qed.

Lemma string_length_append a b :
  String.length (String.append a b) = (String.length a + String.length b)%nat.
Proof. induction a as [|c a IH]; simpl; [reflexivity|]. rewrite IH. reflexivity. Qed.

Definition concat_strings (l : list string) : string := foldr String.append EmptyString l.

Lemma fgets_chunks_fuel_concat fuel s :
  (String.length s <= fuel)%nat ->
  concat_strings (CLib.fgets_chunks_fuel fuel s) = s /\
  Forall (fun c => String.length c <= MAX_LINE - 1)%nat (CLib.fgets_chunks_fuel fuel s).
Proof.
  revert s. induction fuel as [|fuel IH]; intros s Hs.
  - destruct s; simpl in *; [split; constructor|lia].
  - destruct s as [|ch s']; [split; [reflexivity|constructor]|].
    cbn [CLib.fgets_chunks_fuel].
    pose proof (fgets_take_split (MAX_LINE - 1) (String ch s')) as Hsplit.
    destruct (CLib.fgets_take (MAX_LINE - 1) (String ch s')) as [a b].
    destruct Hsplit as [Hab [Hlen Hpos]].
    assert (Hb : (String.length b <= fuel)%nat).
    { apply (f_equal String.length) in Hab. rewrite string_length_append in Hab.
      simpl in Hs, Hab. specialize (Hpos ltac:(discriminate) ltac:(discriminate)). lia. }
    destruct (IH b Hb) as [Hc Hf]. split.
    + simpl. rewrite Hc. exact Hab.
    + constructor; auto.
Qed.

(** C14: A missing file.  When [fopen] fails, [load_config] prints the
    error and returns with [buttons] and [button_count] unchanged. *)
Theorem load_config_no_file path g w :
  env_file (w_env w) path = None ->
  load_config path g w =
    (Done g, log_ev (SysPrint "fopen") (log_ev (SysFopen path false) w)).
Proof. intros Hf. unfold load_config, bind, sys_fopen_read. rewrite Hf. reflexivity. Qed.

Lemma load_config_no_file_witness :
  env_file (w_env (config_world "A=1")) "other.conf" = None /\
  load_config "other.conf" globals_init (config_world "A=1") =
    (Done globals_init, log_ev (SysPrint "fopen")
                          (log_ev (SysFopen "other.conf" false) (config_world "A=1"))).
Proof. split; [reflexivity|]. apply load_config_no_file. reflexivity. Defined.

(** ** What [load_config] does to the world *)

(** Loading prints, but opens no descriptor and writes nothing to the
    virtual device. *)
Lemma config_line_quiet g buf w g' w' :
  config_line g buf w = (Done g', w') -> emits w w' [].
Proof.
  rewrite config_line_entry. destruct (config_entry buf) as [b|].
  - destruct (negb _); [discriminate|]. destruct (decide _); [discriminate|].
    intros [= _ <-]. apply emits_log_quiet; reflexivity.
  - intros [= _ <-]. apply emits_refl.
Qed.

Lemma config_fold_quiet chunks g w g' w' :
  mfoldl config_line chunks g w = (Done g', w') -> emits w w' [].
Proof.
  revert g w. induction chunks as [|c cs IH]; intros g w H.
  - injection H as _ <-. apply emits_refl.
  - rewrite mfoldl_cons in H.
    destruct (config_line g c w) as [[g1| | |] w1] eqn:Hc; try discriminate.
    apply (emits_trans _ _ _ [] [] (config_line_quiet _ _ _ _ _ Hc)), (IH g1 w1 H).
Qed.

Lemma load_config_quiet path g w g' w' :
  load_config path g w = (Done g', w') -> emits w w' [].
Proof.
  unfold load_config, bind, sys_fopen_read.
  destruct (env_file (w_env w) path) as [contents|]; intros H.
  - apply (emits_trans _ _ _ [] []
             (emits_log_quiet w (SysFopen path (bool_decide (is_Some (Some contents)))) eq_refl)).
    exact (config_fold_quiet _ _ _ _ _ H).
  - injection H as _ <-.
    apply (emits_trans _ _ _ [] [] (emits_log_quiet w (SysFopen path (bool_decide (is_Some (@None string)))) eq_refl)).
    apply emits_log_quiet; reflexivity.
Qed.

(** ** Every stored key code is a gamepad code *)

Lemma map_button_name_range n :
  0 <= map_button_name n -> BTN_A <= map_button_name n <= KEY_MAX.
Proof.
  unfold map_button_name.
  repeat (destruct (String.eqb n _); [vm_compute; intuition discriminate|]).
  vm_compute. intros H. exfalso. apply H. reflexivity.
Qed.

Lemma config_entry_keycode buf b :
  config_entry buf = Some b -> BTN_A <= bc_keycode b <= KEY_MAX.
Proof.
  unfold config_entry. destruct (_ || _ || _); [discriminate|].
  destruct (CLib.split_at _ _) as [[name value]|]; [|discriminate].
  destruct (map_button_name name <? 0) eqn:Hk; [discriminate|].
  intros [= <-]. apply map_button_name_range. simpl. apply Z.ltb_ge in Hk. exact Hk.
Qed.

Definition keys_ok (g : globals) : Prop :=
  globals_wf g /\ Forall (fun b => BTN_A <= bc_keycode b <= KEY_MAX) (table g).

Lemma config_line_keys g buf w g' w' :
  config_line g buf w = (Done g', w') -> keys_ok g -> keys_ok g'.
Proof.
  rewrite config_line_entry. destruct (config_entry buf) as [b|] eqn:Hb; [|congruence].
  destruct (negb _); [discriminate|]. destruct (decide _) as [|Hroom]; [discriminate|].
  intros [= <- _] [Hwf Hk]. unfold keys_ok.
  destruct (store_button_table g b Hwf) as [-> Hwf']; [lia|].
  split; [exact Hwf'|]. apply Forall_app; split; [exact Hk|].
  apply Forall_singleton, (config_entry_keycode buf), Hb.
Qed.

(** An invariant of the globals that every completed loop body keeps
    holds after any completed load, whatever the file holds. *)
Lemma load_config_invariant (I : globals -> Prop) path w g' w' :
  I globals_init ->
  (forall g buf w0 g1 w1, config_line g buf w0 = (Done g1, w1) -> I g -> I g1) ->
  load_config path globals_init w = (Done g', w') -> I g'.
Proof.
  intros H0 Hstep. unfold load_config, bind, sys_fopen_read.
  destruct (env_file (w_env w) path) as [contents|]; simpl; [|intros [= <- _]; exact H0].
  generalize globals_init H0 (log_ev (SysFopen path true) w).
  induction (CLib.fgets_chunks contents) as [|c cs IH]; intros g Hg w0 H.
  - injection H as <- _. exact Hg.
  - rewrite mfoldl_cons in H.
    destruct (config_line g c w0) as [[g1| | |] w1] eqn:Hc; try discriminate.
    apply (IH g1 (Hstep _ _ _ _ _ Hc Hg) w1 H).
Qed.

(** Whatever the file holds, a load that completes leaves only bindings
    with codes of the gamepad range. *)
Lemma load_config_keys path w g' w' :
  load_config path globals_init w = (Done g', w') -> keys_ok g'.
Proof.
  apply load_config_invariant; [split; [apply globals_init_wf|constructor]|].
  apply config_line_keys.
Qed.

(** A binding recognised by [map_button_name]: its name maps to its
    code, a code of the gamepad range. *)
Definition recognised (b : ButtonConfig) : Prop :=
  bc_keycode b = map_button_name (bc_name b) /\ BTN_A <= bc_keycode b <= KEY_MAX.

(** C11: Only recognised names are bound.  Whatever the file holds, a
    load that completes leaves in [buttons[0 .. button_count)] only
    bindings whose name [map_button_name] recognises and whose code is
    the one it gives that name: unknown names and the [-1] of
    [map_button_name] never reach the table. *)
Theorem load_config_recognised path w g' w' :
  load_config path globals_init w = (Done g', w') -> Forall recognised (table g').
Proof.
  intros H. enough (globals_wf g' /\ Forall recognised (table g')) as [_ Hr] by exact Hr.
  revert H. apply (load_config_invariant (fun g => globals_wf g /\ Forall recognised (table g)));
    [split; [apply globals_init_wf|constructor]|].
  intros g buf w0 g1 w1 Hrun [Hwf Hr]. unfold config_line in Hrun.
  destruct (_ || _ || _); [injection Hrun as <- _; split; assumption|].
  destruct (CLib.split_at _ _) as [[name value]|]; [|injection Hrun as <- _; split; assumption].
  destruct (map_button_name name <? 0) eqn:Hk; [injection Hrun as <- _; split; assumption|].
  apply Z.ltb_ge in Hk.
  destruct (CLib.atoi value) as [gpio|]; [|discriminate].
  destruct (decide _) as [|Hroom]; [discriminate|].
  injection Hrun as <- _.
  destruct (store_button_table g (mk_ButtonConfig (CLib.strncpy31 name) gpio (map_button_name name))
              Hwf) as [-> Hwf']; [lia|].
  split; [exact Hwf'|]. apply Forall_app; split; [exact Hr|].
  apply Forall_singleton. unfold recognised. simpl.
  rewrite map_button_name_strncpy by exact Hk.
  split; [reflexivity|apply map_button_name_range, Hk].
Qed.

Lemma load_config_recognised_witness :
  let c := String.append "A=17" (String CLib.LF "FOO=12") in
  let w1 := snd (load_config CONFIG_PATH globals_init (config_world c)) in
  let g1 := mk_globals (<[0%nat := mk_ButtonConfig "A" 17 BTN_A]> (buttons globals_init)) 1 in
  load_config CONFIG_PATH globals_init (config_world c) = (Done g1, w1) /\
  Forall recognised (table g1).
Proof.
  intros c w1 g1. split; [vm_compute; reflexivity|].
  apply (load_config_recognised CONFIG_PATH (config_world c) g1 w1). vm_compute. reflexivity.
Defined.

(** ** Printing a table and loading it back *)

(** The line [fprintf(f, "%s=%d\n", name, gpio)] writes for a binding. *)
Definition config_line_text (b : string * Z) : string :=
  String.append b.1 (String "=" (String.append (CLib.string_of_int b.2) (String CLib.LF EmptyString))).

(** The file that lists the bindings [bs], one line each. *)
Definition config_text (bs : list (string * Z)) : string := concat_strings (config_line_text <$> bs).

Lemma string_append_cons x a b : String.append (String x a) b = String x (String.append a b).
Proof. reflexivity. Qed.

Lemma string_append_assoc a b c :
  String.append a (String.append b c) = String.append (String.append a b) c.
Proof. induction a as [|x a IH]; [reflexivity|]. rewrite !string_append_cons, IH. reflexivity. Qed.

Lemma string_append_nil a : String.append a EmptyString = a.
Proof. induction a as [|x a IH]; [reflexivity|]. rewrite string_append_cons, IH. reflexivity. Qed.

Definition not_eol (c : ascii) : bool :=
  negb (Ascii.eqb c CLib.NUL) && negb (Ascii.eqb c CLib.CR) && negb (Ascii.eqb c CLib.LF).

(** [fgets] hands over a line shorter than its buffer whole. *)
Lemma fgets_take_line k s rest :
  CLib.all_chars not_eol s = true -> (String.length s < k)%nat ->
  CLib.fgets_take k (String.append s (String CLib.LF rest)) =
    (String.append s (String CLib.LF EmptyString), rest).
Proof.
  revert k. induction s as [|c s IH]; intros [|k] Hs Hk; simpl in *; try lia; [reflexivity|].
  apply andb_true_iff in Hs as [Hc Hs]. unfold not_eol in Hc.
  destruct (Ascii.eqb c CLib.LF); [rewrite andb_false_r in Hc; discriminate|].
  rewrite IH by (exact Hs || lia). reflexivity.
Qed.

(** A file of short lines reaches the loop one line per buffer. *)
Lemma fgets_chunks_lines lines fuel :
  Forall (fun l => exists s, l = String.append s (String CLib.LF EmptyString) /\
                             CLib.all_chars not_eol s = true /\
                             (String.length s < MAX_LINE - 1)%nat) lines ->
  (String.length (concat_strings lines) <= fuel)%nat ->
  CLib.fgets_chunks_fuel fuel (concat_strings lines) = lines.
Proof.
  revert fuel. induction lines as [|l ls IH]; intros fuel Hl Hfuel.
  - destruct fuel; reflexivity.
  - apply Forall_cons in Hl as [(s & -> & Hs & Hlen) Hls].
    change (concat_strings (?l :: ls)) with (String.append l (concat_strings ls)) in *.
    rewrite <- string_append_assoc in Hfuel |- *.
    change (String.append (String CLib.LF EmptyString) ?r) with (String CLib.LF r) in Hfuel |- *.
    rewrite string_length_append in Hfuel. simpl in Hfuel.
    destruct fuel as [|fuel]; [lia|].
    assert (Hne : exists c t, String.append s (String CLib.LF (concat_strings ls)) = String c t)
      by (destruct s; simpl; eauto).
    destruct Hne as (c & t & E). cbn [CLib.fgets_chunks_fuel]. rewrite E. rewrite <- E.
    rewrite fgets_take_line by (exact Hs || lia). f_equal. apply IH; [exact Hls|lia].
Qed.

(** What a recognised name is made of: at most 11 ordinary characters,
    the first neither ['#'] nor ['['], and no ['=']. *)
Lemma recognised_name_text n :
  0 <= map_button_name n ->
  CLib.all_chars (fun c => not_eol c && negb (Ascii.eqb c "=")) n = true /\
  Ascii.eqb (CLib.first_char n) "#" = false /\ Ascii.eqb (CLib.first_char n) "[" = false /\
  (1 <= String.length n <= 11)%nat.
Proof.
  unfold map_button_name.
  repeat match goal with
         | |- context [String.eqb n ?s] =>
             destruct (String.eqb_spec n s) as [->|_]; [intros _; vm_compute; lia|]
         end.
  lia.
Qed.

(** What [printf("%d")] writes: at most 13 characters, none of them a
    line end, a NUL or ['=']. *)
Lemma string_of_int_text z :
  CLib.all_chars (fun c => not_eol c && negb (Ascii.eqb c "=")) (CLib.string_of_int z) = true /\
  (1 <= String.length (CLib.string_of_int z) <= 13)%nat.
Proof.
  assert (Hd : forall y, 0 <= y ->
    CLib.all_chars (fun c => not_eol c && negb (Ascii.eqb c "=")) (CLib.udigits 12 y EmptyString)
      = true /\ (1 <= String.length (CLib.udigits 12 y EmptyString) <= 12)%nat).
  { intros y Hy. split.
    - apply (CLib.all_chars_impl CLib.is_digit); [|apply CLib.udigits_all_digits; done].
      intros c. unfold CLib.is_digit, CLib.digit_of.
      destruct c as [[] [] [] [] [] [] [] []]; vm_compute; congruence.
    - pose proof (CLib.udigits_length_fuel 12 y EmptyString).
      destruct (CLib.udigits_head 11 y EmptyString) as (c & s & E & _).
      rewrite E in *. simpl in *. lia. }
  unfold CLib.string_of_int. destruct (Z.ltb_spec z 0).
  - destruct (Hd (- z) ltac:(lia)) as [H1 H2]. cbn [CLib.all_chars String.length].
    rewrite H1. split; [reflexivity|lia].
  - destruct (Hd z ltac:(lia)) as [H1 H2]. split; [exact H1|lia].
Qed.

Lemma prefix_until_all stop s :
  CLib.all_chars (fun c => negb (stop c)) s = true -> CLib.prefix_until stop s = s.
Proof.
  intros H. rewrite <- (string_append_nil s) at 1. rewrite CLib.prefix_until_app by exact H.
  apply string_append_nil.
Qed.

Lemma not_eol_of_name c : not_eol c && negb (Ascii.eqb c "=") = true -> not_eol c = true.
Proof. rewrite andb_true_iff. tauto. Qed.

(** The text of a binding's line, before its newline. *)
Lemma config_line_text_split n gpio :
  config_line_text (n, gpio) =
  String.append (String.append n (String "=" (CLib.string_of_int gpio)))
                (String CLib.LF EmptyString).
Proof. unfold config_line_text. cbn [fst snd]. rewrite <- string_append_assoc. reflexivity. Qed.

(** A printed line of a recognised name is parsed back to its binding. *)
Lemma config_entry_text n gpio :
  0 <= map_button_name n ->
  config_entry (config_line_text (n, gpio)) =
    Some (mk_ButtonConfig n (CLib.atoi_value (CLib.string_of_int gpio)) (map_button_name n)).
Proof.
  intros Hn. destruct (recognised_name_text n Hn) as (Hnc & Hh & Hb & Hnl).
  destruct (string_of_int_text gpio) as [Hdc Hdl].
  set (d := CLib.string_of_int gpio) in *.
  set (s := String.append n (String "=" d)).
  assert (Hs : CLib.all_chars (fun c => not_eol c && negb (Ascii.eqb c "=")) n = true /\
               CLib.all_chars not_eol s = true).
  { split; [exact Hnc|]. unfold s. rewrite CLib.all_chars_app. cbn [CLib.all_chars].
    rewrite !(CLib.all_chars_impl _ not_eol _ not_eol_of_name) by done.
    reflexivity. }
  destruct Hs as [_ Hs].
  unfold config_entry. rewrite config_line_text_split. fold d. fold s.
  assert (Hcstr : CLib.cstr (String.append s (String CLib.LF EmptyString)) =
                  String.append s (String CLib.LF EmptyString)).
  { unfold CLib.cstr. apply prefix_until_all. rewrite CLib.all_chars_app.
    rewrite (CLib.all_chars_impl not_eol _ s); [reflexivity| |exact Hs].
    intros c. unfold not_eol. destruct (Ascii.eqb c CLib.NUL); done. }
  assert (Heol : CLib.cut_eol (String.append s (String CLib.LF EmptyString)) = s).
  { unfold CLib.cut_eol. rewrite CLib.prefix_until_app.
    - rewrite <- (string_append_nil s) at 2. reflexivity.
    - apply (CLib.all_chars_impl not_eol); [|exact Hs]. intros c. unfold not_eol.
      destruct (Ascii.eqb c CLib.CR), (Ascii.eqb c CLib.LF); simpl; rewrite ?andb_false_r; done. }
  rewrite Hcstr, Heol.
  assert (Hfirst : CLib.first_char s = CLib.first_char n) by (unfold s; destruct n; simpl in *; [lia|done]).
  assert (Hlen : (3 <= String.length s)%nat).
  { unfold s. rewrite string_length_append. simpl. lia. }
  rewrite Hfirst, Hh, Hb. simpl orb.
  replace (String.length s <? 3)%nat with false by (symmetry; apply Nat.ltb_ge; exact Hlen).
  unfold s. rewrite CLib.split_at_app.
  - rewrite (proj2 (Z.ltb_ge _ 0) Hn). rewrite map_button_name_strncpy by exact Hn. reflexivity.
  - apply (CLib.all_chars_impl (fun c => not_eol c && negb (Ascii.eqb c "="))); [|exact Hnc].
    intros c. rewrite andb_true_iff. tauto.
Qed.

Lemma omap_cons_eq {A B} (f : A -> option B) x l :
  omap f (x :: l) = match f x with Some y => y :: omap f l | None => omap f l end.
Proof. reflexivity. Qed.

(** The bindings a printed table denotes are the table's. *)
Lemma config_spec_text bs :
  Forall (fun b => 0 <= map_button_name b.1 /\ in_int b.2 = true) bs ->
  config_spec (config_text bs) = (fun b => mk_ButtonConfig b.1 b.2 (map_button_name b.1)) <$> bs.
Proof.
  intros Hbs. unfold config_spec, CLib.fgets_chunks, config_text.
  rewrite fgets_chunks_lines; [|apply Forall_fmap, (Forall_impl _ _ _ Hbs)|lia].
  - induction Hbs as [|[n gpio] bs [Hn Hg] _ IH]; [reflexivity|].
    cbn [fst snd] in Hn, Hg. rewrite !fmap_cons, omap_cons_eq.
    rewrite config_entry_text by exact Hn. rewrite CLib.atoi_string_of_int by exact Hg.
    rewrite IH. reflexivity.
  - intros [n gpio] [Hn _]. exists (String.append n (String "=" (CLib.string_of_int gpio))).
    split; [apply config_line_text_split|].
    destruct (recognised_name_text n Hn) as (Hnc & _ & _ & Hnl).
    destruct (string_of_int_text gpio) as [Hdc Hdl].
    rewrite CLib.all_chars_app, string_length_append. cbn [CLib.all_chars String.length].
    rewrite !(CLib.all_chars_impl _ not_eol _ not_eol_of_name) by done.
    split; [reflexivity|unfold MAX_LINE; lia].
Qed.

(** C10: Round trip of the configuration format.  Print a table of
    bindings of recognised names to [int] line numbers as a file of
    [NAME=NUMBER] lines, at most [MAX_BUTTONS] of them; [load_config]
    on that file completes and its table [buttons[0 .. button_count)]
    is the printed table, in order, each binding with its name's code:
    parsing with [fgets], [strchr] and [atoi] inverts printing with
    [printf("%s=%d\n")]. *)
Theorem load_config_roundtrip path w bs :
  env_file (w_env w) path = Some (config_text bs) ->
  Forall (fun b => 0 <= map_button_name b.1 /\ in_int b.2 = true) bs ->
  (length bs <= Z.to_nat MAX_BUTTONS)%nat ->
  exists g' w', load_config path globals_init w = (Done g', w') /\
    table g' = (fun b => mk_ButtonConfig b.1 b.2 (map_button_name b.1)) <$> bs.
Proof.
  intros Hfile Hbs Hroom. pose proof (config_spec_text bs Hbs) as Hspec.
  unfold load_config, bind, sys_fopen_read. rewrite Hfile.
  destruct (config_fold_ok (CLib.fgets_chunks (config_text bs)) globals_init
              (log_ev (SysFopen path (bool_decide (is_Some (Some (config_text bs))))) w))
    as (g' & w' & Hrun & Htab & _); [apply globals_init_wf| |unfold config_spec in Hspec; rewrite Hspec, length_fmap; exact Hroom|].
  - unfold config_spec in Hspec. rewrite Hspec. apply Forall_fmap.
    eapply Forall_impl; [exact Hbs|]. intros b [_ Hg]. exact Hg.
  - exists g', w'. split; [exact Hrun|]. rewrite Htab. unfold config_spec in Hspec. exact Hspec.
Qed.

Lemma load_config_roundtrip_witness :
  let bs := [("A", 17); ("DPAD_UP", -3); ("B", 2147483647)] in
  (env_file (w_env (config_world (config_text bs))) CONFIG_PATH = Some (config_text bs) /\
   Forall (fun b => 0 <= map_button_name b.1 /\ in_int b.2 = true) bs /\
   (length bs <= Z.to_nat MAX_BUTTONS)%nat) /\
  exists g' w', load_config CONFIG_PATH globals_init (config_world (config_text bs)) = (Done g', w') /\
    table g' = (fun b => mk_ButtonConfig b.1 b.2 (map_button_name b.1)) <$> bs.
Proof.
  intros bs. split; [split; [reflexivity|split; [repeat constructor; vm_compute; congruence|vm_compute; lia]]|].
  apply load_config_roundtrip;
    [reflexivity|repeat constructor; vm_compute; congruence|vm_compute; lia].
Defined.
