(* ===== verification/Gpio.v ===== *)
(** * Digital Line Reader: [export_gpio] and [read_gpio]

    [export_gpio] (lines 94-115 of [src/gamepad_driver.c]) makes a
    line visible in sysfs unless its value file already exists: it
    writes the number to [/sys/class/gpio/export], sleeps 100 ms for
    udev, and writes ["in"] to the line's [direction] file.
    [read_gpio] (lines 117-126) opens the line's [value] file, reads one
    byte and closes it; ['1'] is pressed, anything else - including a
    failed open or an empty read - is released.

    Both are programs of the platform monad; the theorems state what a
    call returns, that it completes, that it touches no other
    descriptor, and what it leaves in the log, and for which line
    numbers [char buf[8]] holds the number [export_gpio] writes. *)

From Stdlib Require Import ZArith String Lia.
From stdpp Require Import base list strings.
From S2P Require Import Prelude Linux Platform CString.

Open Scope Z_scope.
Open Scope gamepad_scope.

(** [snprintf(path, sizeof(path), "/sys/class/gpio/gpio%d/<leaf>", gpio)] *)
Definition gpio_path (gpio : Z) (leaf : string) : string :=
  ("/sys/class/gpio/gpio" ++ CLib.string_of_int gpio ++ "/" ++ leaf)%string.

Definition GPIO_EXPORT_PATH : string := "/sys/class/gpio/export".

(** The ASCII codes of ['0'] and ['1']. *)
Definition CHAR_0 : Z := 48.
Definition CHAR_1 : Z := 49.

(** [snprintf(buf, sizeof(buf), "%d", gpio)] into [char buf[8]]: at
    most 7 characters are kept. *)
Definition export_text (gpio : Z) : string := substring 0 7 (CLib.string_of_int gpio).

Definition export_gpio (gpio : Z) : M Z :=
  present <- sys_access (gpio_path gpio "value") ;;
  if present then ret 0 else
  fd <- sys_open GPIO_EXPORT_PATH ;;
  if fd <? 0 then ret (-1) else
  sys_write fd (WText (export_text gpio)) ;;
  sys_close fd ;;
  sys_usleep 100000 ;;
  fd2 <- sys_open (gpio_path gpio "direction") ;;
  if fd2 <? 0 then ret (-1) else
  sys_write fd2 (WText "in") ;;
  sys_close fd2 ;;
  ret 0.

(** [char val = '0'; read(fd, &val, 1); close(fd); return val == '1';] *)
Definition read_gpio (gpio : Z) : M Z :=
  fd <- sys_open (gpio_path gpio "value") ;;
  if fd <? 0 then ret 0 else
  r <- sys_read1 fd ;;
  let val := match r with Some b => b | None => CHAR_0 end in
  sys_close fd ;;
  ret (if val =? CHAR_1 then 1 else 0).

(** ** What a read observes *)

(** The level [read_gpio] reports for the byte a successful [read]
    returned, or for a read that returned nothing. *)
Definition byte_level (r : option Z) : Z :=
  match r with Some b => if b =? CHAR_1 then 1 else 0 | None => 0 end.

Lemma byte_level_bool r : byte_level r = 0 \/ byte_level r = 1.
Proof. destruct r as [b|]; simpl; [destruct (b =? CHAR_1)|]; auto. Qed.

(** One call, exactly: a failed [open] reports released; otherwise the
    fresh descriptor is read once and closed again, the descriptor table
    is back to what it was, and the level is that of the byte read. *)
Lemma read_gpio_run gpio w :
  let p := gpio_path gpio "value" in
  read_gpio gpio w =
  if env_open (w_env w) (w_log w) p then
    let fd := fresh_fd (w_fds w) in
    let l1 := w_log w ++ [SysOpen p fd] in
    let r := env_read (w_env w) l1 p in
    (Done (byte_level r),
     mk_world (w_env w) (w_fds w) ((l1 ++ [SysRead (Some p) r]) ++ [SysClose fd]))
  else (Done 0, log_ev (SysOpen p (-1)) w).
Proof.
  intros p. unfold read_gpio, bind, sys_open. fold p.
  destruct (env_open (w_env w) (w_log w) p); [|reflexivity].
  pose proof (fresh_fd_ge (w_fds w)) as Hge. pose proof (fresh_fd_not_in (w_fds w)) as Hfresh.
  set (fd := fresh_fd (w_fds w)) in *.
  rewrite (proj2 (Z.ltb_ge fd 0)) by lia.
  unfold sys_read1, fd_target, log_ev, sys_close. simpl.
  rewrite decide_True by lia. rewrite decide_True by reflexivity. simpl.
  rewrite filter_cons_False by (simpl; congruence).
  rewrite filter_fst_not_in by exact Hfresh.
  destruct (env_read _ _ _) as [b|]; reflexivity.
Qed.

(** A read completes, reports 0 or 1, keeps the environment and the
    descriptor table, and sends nothing to the virtual device. *)
Lemma wp_read_gpio gpio Q w :
  (forall v l, (v = 0 \/ v = 1) -> uinput_traffic l = [] ->
     Q v (mk_world (w_env w) (w_fds w) (w_log w ++ l))) ->
  wp (read_gpio gpio) Q w.
Proof.
  intros HQ. unfold wp. rewrite read_gpio_run.
  destruct (env_open _ _ _).
  - cbv zeta. rewrite <- !app_assoc. apply HQ; [apply byte_level_bool|reflexivity].
  - apply HQ; [left; reflexivity|reflexivity].
Qed.

Lemma wp_read_gpio_frame gpio Q w :
  (forall v w', (v = 0 \/ v = 1) -> emits w w' [] -> Q v w') -> wp (read_gpio gpio) Q w.
Proof.
  intros HQ. apply wp_read_gpio. intros v l Hv Hl. apply HQ; [exact Hv|].
  apply emits_nil_intro; [done|done|]. simpl. rewrite uinput_traffic_app, Hl, app_nil_r. done.
Qed.

(** Text written to a sysfs file just opened is silent. *)
Lemma wp_write_opened fd path s Q w0 w :
  opened w0 w path fd -> 0 <= fd -> path <> UINPUT_PATH ->
  (forall w', emits w w' [] -> Q tt w') -> wp (sys_write fd (WText s)) Q w.
Proof.
  intros O Hfd Hp. apply wp_write_other. rewrite (opened_target _ _ _ _ O Hfd). congruence.
Qed.

(** Exporting a line completes, restores the descriptor table and
    sends nothing to the virtual device, on every path. *)
Lemma wp_export_gpio_frame gpio Q w :
  (forall r w', emits w w' [] -> Q r w') -> wp (export_gpio gpio) Q w.
Proof.
  intros HQ. unfold export_gpio.
  apply wp_bind, wp_access_frame. intros present w1 E1.
  apply emits_nil_eq in E1 as (F1 & Env1 & S1).
  destruct present; [apply wp_ret, HQ, emits_nil_intro; done|].
  apply wp_bind, wp_open_frame. intros fd w2 O2. pose proof O2 as (Env2 & S2 & Ho2).
  destruct (env_open _ _ _) in Ho2;
    [destruct Ho2 as (Hge & Hnot & F2)
    |destruct Ho2 as [-> F2]; apply wp_ret, HQ, emits_nil_intro; congruence].
  rewrite (proj2 (Z.ltb_ge fd 0)) by lia.
  apply wp_bind. apply (wp_write_opened _ _ _ _ _ _ O2); [lia|discriminate|].
  intros w3 (F3 & Env3 & S3)%emits_nil_eq.
  apply wp_bind. apply (wp_close_fresh fd GPIO_EXPORT_PATH (w_fds w1)); [congruence|exact Hnot|].
  intros w4 F4 Env4 S4.
  apply wp_bind, wp_usleep_frame. intros w5 (F5 & Env5 & S5)%emits_nil_eq.
  apply wp_bind, wp_open_frame. intros fd2 w6 O6. pose proof O6 as (Env6 & S6 & Ho6).
  destruct (env_open _ _ _) in Ho6;
    [destruct Ho6 as (Hge2 & Hnot2 & F6)
    |destruct Ho6 as [-> F6]; apply wp_ret, HQ, emits_nil_intro; congruence].
  rewrite (proj2 (Z.ltb_ge fd2 0)) by lia.
  apply wp_bind. apply (wp_write_opened _ _ _ _ _ _ O6); [lia|discriminate|].
  intros w7 (F7 & Env7 & S7)%emits_nil_eq.
  apply wp_bind. apply (wp_close_fresh fd2 (gpio_path gpio "direction") (w_fds w5));
    [congruence|exact Hnot2|].
  intros w8 F8 Env8 S8. apply wp_ret, HQ, emits_nil_intro; congruence.
Qed.

(** ** What a read reports *)

(** C21: [read_gpio] reports pressed (1) exactly when the line's
    [value] file opens and the byte read from it is ['1']; a failed
    [open], an empty read or any other byte is released (0).  Either
    way the descriptor table is left as it was: the descriptor it opens
    is closed again. *)
Theorem read_gpio_pressed gpio w :
  let p := gpio_path gpio "value" in
  (read_gpio gpio w).1 =
    Done (if env_open (w_env w) (w_log w) p &&
             bool_decide (env_read (w_env w) (w_log w ++ [SysOpen p (fresh_fd (w_fds w))]) p
                          = Some CHAR_1)
          then 1 else 0) /\
  w_fds (read_gpio gpio w).2 = w_fds w.
Proof.
  intros p. rewrite read_gpio_run. fold p.
  destruct (env_open _ _ _); simpl; [|done].
  split; [|done]. f_equal.
  destruct (env_read _ _ _) as [b|]; simpl; [|done].
  destruct (Z.eqb_spec b CHAR_1) as [->|Hb].
  - rewrite bool_decide_eq_true_2; done.
  - rewrite bool_decide_eq_false_2; [done|congruence].
Qed.

(** ** The number written to [/sys/class/gpio/export] *)

Lemma string_of_int_short_nonneg z k :
  0 <= z -> 1 <= k < 12 ->
  (String.length (CLib.udigits 12 z EmptyString) <= Z.to_nat k)%nat <-> z < 10 ^ k.
Proof.
  intros Hz Hk. split.
  - intros Hl. destruct (Z.lt_ge_cases z (10 ^ k)) as [|Hge]; [done|].
    pose proof (CLib.udigits_length_gt 12 z EmptyString k ltac:(lia) Hge ltac:(simpl; lia)).
    simpl in *. lia.
  - intros Hlt. pose proof (CLib.udigits_length_le 12 z EmptyString k ltac:(lia) ltac:(lia)).
    simpl in *. lia.
Qed.

(** C22: [snprintf(buf, sizeof(buf), "%d", gpio)] into [char buf[8]]
    writes the line number whole exactly when it has at most seven
    characters, [-999999 .. 9999999]; a longer number is cut to its
    first seven characters, and another line is exported. *)
Theorem export_text_whole gpio :
  export_text gpio = CLib.string_of_int gpio <-> -1000000 < gpio < 10000000.
Proof.
  unfold export_text, CLib.string_of_int. rewrite CLib.substring_prefix_whole.
  destruct (Z.ltb_spec gpio 0) as [Hneg|Hpos]; cbn [String.length].
  - pose proof (string_of_int_short_nonneg (- gpio) 6 ltac:(lia) ltac:(lia)) as H.
    change (Z.to_nat 6) with 6%nat in H. change (10 ^ 6) with 1000000 in H.
    destruct H as [H1 H2]. split; [intros Hl; specialize (H1 ltac:(lia))|intros Hr; specialize (H2 ltac:(lia))]; lia.
  - pose proof (string_of_int_short_nonneg gpio 7 ltac:(lia) ltac:(lia)) as H.
    change (Z.to_nat 7) with 7%nat in H. change (10 ^ 7) with 10000000 in H.
    destruct H as [H1 H2]. split; [intros Hl; specialize (H1 Hl)|intros Hr; apply H2]; lia.
Qed.

(** Line 12345678 is exported as line 1234567. *)
Lemma export_text_cut : export_text 12345678 = "1234567"%string.
Proof. reflexivity. Qed.
