(* ===== verification/Emitter.v ===== *)
(** * Event Emitter: device registration and event writes

    Registration is lines 158-181 of [src/gamepad_driver.c]: open
    [/dev/uinput], enable [EV_KEY] and [EV_ABS], one [UI_SET_KEYBIT] per
    configured button, [UI_SET_ABSBIT] for [ABS_X], [ABS_Y], [ABS_RX],
    [ABS_RY], write the [uinput_user_dev] record ("MAX186 Gamepad",
    [BUS_USB], vendor 0x6969, product 0x9696, axis maxima 255), then
    [UI_DEV_CREATE] and a 100 ms pause.  None of these return codes is
    checked.  An event is written with the idiom [ev.type = ...;
    ev.code = ...; ev.value = ...; write(ufd, &ev, sizeof(ev))]
    ([emit]).

    [registration] is the traffic that sequence hands to the device
    and [reg_caps] the capabilities the kernel's device
    ([Uinput.UinputDev]) holds after it; [registration_steps] shows a
    fresh device accepts it and ends created. *)

From Stdlib Require Import ZArith String Lia.
From stdpp Require Import base list strings.
From S2P Require Import Prelude Linux Platform Uinput Adc Config.

Open Scope Z_scope.
Open Scope gamepad_scope.

(** ** Writing one event *)

(** [struct input_event]'s [code] is a [__u16]: the [int] key code is
    converted on the assignment. *)
Definition to_uint16 (z : Z) : Z := z mod 2 ^ 16.

Lemma to_uint16_small z : 0 <= z < 2 ^ 16 -> to_uint16 z = z.
Proof. apply Z.mod_small. Qed.

Definition emit (ufd : Z) (tv : timeval) (type code value : Z) : M unit :=
  sys_write ufd (WEvent (mk_input_event tv type (to_uint16 code) value)).

(** ** Registration *)

(** [struct uinput_user_dev uidev] as [main] fills it; [absmax] has
    [ABS_CNT] entries, zero except the four axes. *)
Definition uidev : uinput_user_dev :=
  mk_uinput_user_dev "MAX186 Gamepad" BUS_USB 0x6969 0x9696 0
    (<[Z.to_nat ABS_RY := UINPUT_AXIS_MAX]> (<[Z.to_nat ABS_RX := UINPUT_AXIS_MAX]>
     (<[Z.to_nat ABS_Y := UINPUT_AXIS_MAX]> (<[Z.to_nat ABS_X := UINPUT_AXIS_MAX]>
      (repeat 0 (Z.to_nat ABS_CNT))))))
    (repeat 0 (Z.to_nat ABS_CNT)).

Definition uinput_setup (btns : list ButtonConfig) : M Z :=
  ufd <- sys_open UINPUT_PATH ;;
  sys_ioctl ufd (UI_SET_EVBIT EV_KEY) ;;
  sys_ioctl ufd (UI_SET_EVBIT EV_ABS) ;;
  mfor btns (fun b => sys_ioctl ufd (UI_SET_KEYBIT (bc_keycode b))) ;;
  sys_ioctl ufd (UI_SET_ABSBIT ABS_X) ;;
  sys_ioctl ufd (UI_SET_ABSBIT ABS_Y) ;;
  sys_ioctl ufd (UI_SET_ABSBIT ABS_RX) ;;
  sys_ioctl ufd (UI_SET_ABSBIT ABS_RY) ;;
  sys_write ufd (WDev uidev) ;;
  sys_ioctl ufd UI_DEV_CREATE ;;
  sys_usleep 100000 ;;
  ret ufd.

(** ** What registration hands to the device *)

(** The traffic [main] sends on [ufd] between the [open] and the loop
    (lines 159-180), in order. *)
Definition registration (btns : list ButtonConfig) : list uio :=
  [UIoctl (UI_SET_EVBIT EV_KEY); UIoctl (UI_SET_EVBIT EV_ABS)] ++
  ((fun b => UIoctl (UI_SET_KEYBIT (bc_keycode b))) <$> btns) ++
  [UIoctl (UI_SET_ABSBIT ABS_X); UIoctl (UI_SET_ABSBIT ABS_Y);
   UIoctl (UI_SET_ABSBIT ABS_RX); UIoctl (UI_SET_ABSBIT ABS_RY);
   UWrite (WDev uidev); UIoctl UI_DEV_CREATE].

(** The capabilities a device holds after that traffic: the two event
    types, one key per binding, the four axes (most recent first). *)
Definition reg_caps (btns : list ButtonConfig) : list (Z * Z) :=
  [(EV_ABS, ABS_RY); (EV_ABS, ABS_RX); (EV_ABS, ABS_Y); (EV_ABS, ABS_X)] ++
  rev ((fun b => (EV_KEY, bc_keycode b)) <$> btns) ++ [(EV_ABS, -1); (EV_KEY, -1)].

(** ** Registration *)

Lemma registration_events btns : registration btns ≫= uio_event = [].
Proof.
  unfold registration. rewrite !bind_app.
  induction btns as [|b btns IH]; [done|]. exact IH.
Qed.

Lemma keybits_steps btns cs :
  UinputDev.steps (UinputDev.mk_state cs None false [])
    ((fun b => UIoctl (UI_SET_KEYBIT (bc_keycode b))) <$> btns)
    (UinputDev.mk_state (rev ((fun b => (EV_KEY, bc_keycode b)) <$> btns) ++ cs) None false []).
Proof.
  revert cs. induction btns as [|b btns IH]; intros cs; simpl; [constructor|].
  econstructor; [apply UinputDev.step_set; reflexivity|].
  rewrite <- app_assoc. apply (IH (_ :: cs)).
Qed.

(** A fresh device accepts the registration: it ends created, with the
    driver's identity record and [reg_caps] as its capabilities. *)
Lemma registration_steps btns :
  UinputDev.steps UinputDev.init (registration btns)
    (UinputDev.mk_state (reg_caps btns) (Some uidev) true []).
Proof.
  unfold registration, reg_caps. eapply UinputDev.steps_app.
  { do 2 (econstructor; [apply UinputDev.step_set; reflexivity|]). constructor. }
  eapply UinputDev.steps_app; [apply keybits_steps|]. simpl.
  do 4 (econstructor; [apply UinputDev.step_set; reflexivity|]).
  econstructor; [apply UinputDev.step_dev; reflexivity|].
  econstructor; [eapply UinputDev.step_create; reflexivity|]. constructor.
Qed.

Lemma fd_target_same_fds w w' fd : w_fds w' = w_fds w -> fd_target w' fd = fd_target w fd.
Proof. intros F. unfold fd_target. rewrite F. done. Qed.

(** Registration completes whatever the kernel answers and returns a
    descriptor open on [/dev/uinput] when the open succeeded, -1
    otherwise; the device behind it has received exactly
    [registration btns] and no event, and the descriptors already open
    still refer to what they did. *)
Lemma wp_uinput_setup btns Q w :
  (forall ufd w', w_env w' = w_env w ->
     uinput_traffic (w_log w') = uinput_traffic (w_log w) ++ sink (fd_target w' ufd) (registration btns) ->
     (if env_open (w_env w) (w_log w) UINPUT_PATH
      then fd_target w' ufd = Some UINPUT_PATH
      else ufd = -1 /\ fd_target w' ufd = None) ->
     (forall fd, fd_target w fd <> None -> fd_target w' fd = fd_target w fd) ->
     Q ufd w') ->
  wp (uinput_setup btns) Q w.
Proof.
  intros HQ. unfold uinput_setup.
  apply wp_bind, wp_open_frame. intros ufd w1 O1.
  assert (Ht : if env_open (w_env w) (w_log w) UINPUT_PATH
               then fd_target w1 ufd = Some UINPUT_PATH
               else ufd = -1 /\ fd_target w1 ufd = None).
  { pose proof O1 as (_ & _ & Ho). destruct (env_open _ _ _).
    - apply (opened_target w w1); [exact O1|lia].
    - destruct Ho as [-> Hf]. split; [done|]. unfold fd_target. rewrite decide_False by lia; done. }
  pose proof O1 as (Env1 & S1 & _).
  apply wp_bind, wp_ioctl_frame. intros w2 F2.
  apply wp_bind, wp_ioctl_frame. intros w3 F3.
  apply wp_bind, (wp_mfor_frame _ _ (fun b => sink (fd_target w3 ufd)
                                             [UIoctl (UI_SET_KEYBIT (bc_keycode b))])).
  { intros b wb Hfds. apply wp_ioctl_frame. rewrite (fd_target_same_fds _ _ _ Hfds). done. }
  intros w4 F4.
  apply wp_bind, wp_ioctl_frame. intros w5 F5.
  apply wp_bind, wp_ioctl_frame. intros w6 F6.
  apply wp_bind, wp_ioctl_frame. intros w7 F7.
  apply wp_bind, wp_ioctl_frame. intros w8 F8.
  apply wp_bind, wp_write_frame. intros w9 F9.
  apply wp_bind, wp_ioctl_frame. intros w10 F10.
  apply wp_bind, wp_usleep_frame. intros w11 F11. unfold emits in F11. simpl in F11.
  apply wp_ret.
  repeat match goal with
         | F : frame ?a ?b _, H : context [fd_target ?b ufd] |- _ =>
             rewrite (frame_fd_target a b _ ufd F) in H
         end.
  eassert (F : frame w1 w11 _) by (do 9 (eapply frame_trans; [eassumption|]); eassumption).
  destruct F as (Fds & Env & S). rewrite <- (fd_target_same_fds _ _ _ Fds) in Ht.
  apply HQ; [congruence| |exact Ht|].
  2: { intros fd Hfd. rewrite (fd_target_same_fds _ _ _ Fds). apply (opened_other _ _ _ _ _ O1 Hfd). }
  rewrite S, <- S1. f_equal.
  rewrite app_nil_r, bind_sink, <- !sink_app, (fd_target_same_fds _ _ _ Fds). done.
Qed.
