(* ===== verification/Driver.v ===== *)
(** * Sampling Loop: [main]

    [main] (lines 147-214 of [src/gamepad_driver.c]): load the
    configuration, open the SPI device (exit 1 on failure), set its
    speed, export every configured line, register the virtual device,
    then [while (1)]: take the time, read and scale the four axes, write
    the four [EV_ABS] events, read each button and write its [EV_KEY]
    event, write the [SYN_REPORT], sleep 1 ms.  The code after the loop
    (lines 210-213) is unreachable; [Program] models [main] with it and
    proves so.

    [cycle] is one iteration of the loop, [sampling_loop n] the first
    [n] iterations, [main n] the program run until it has completed [n]
    iterations: the loop never ends, so every [n] is a prefix of the
    program's one infinite run, and the theorems hold for every [n].

    The theorems: each cycle writes one well-formed, well-typed batch
    (four axes, the buttons in table order, [SYN_REPORT]); when the
    MAX186 and the sysfs lines answer a fixed snapshot, the batch
    carries exactly its scaled axes and button levels; these facts
    lift to [sampling_loop] and [main] through the generic Sections
    [Loop] and [Main]; the device model of [Uinput] accepts the whole
    traffic of [main] and delivers every event; a missing
    [/dev/uinput] or SPI device is the exit path of the code. *)

From Stdlib Require Import ZArith String Lia.
From stdpp Require Import base list strings sets.
From S2P Require Import Prelude Linux Platform Uinput CString Adc Config Gpio Emitter.

Open Scope Z_scope.
Open Scope gamepad_scope.

Definition SPI_PATH : string := "/dev/spidev0.0".

(** ** One iteration of [while (1)] *)

Definition cycle (spi_fd ufd : Z) (btns : list ButtonConfig) : M unit :=
  tv <- sys_gettimeofday ;;
  a0 <- read_adc spi_fd (nth 0 axis_channels 0) ;;
  let left_x := scale_axis a0 0 in
  a1 <- read_adc spi_fd (nth 1 axis_channels 0) ;;
  let left_y := scale_axis a1 0 in
  a2 <- read_adc spi_fd (nth 2 axis_channels 0) ;;
  let right_x := scale_axis a2 1 in
  a3 <- read_adc spi_fd (nth 3 axis_channels 0) ;;
  let right_y := scale_axis a3 1 in
  emit ufd tv EV_ABS ABS_X left_x ;;
  emit ufd tv EV_ABS ABS_Y left_y ;;
  emit ufd tv EV_ABS ABS_RX right_x ;;
  emit ufd tv EV_ABS ABS_RY right_y ;;
  mfor btns (fun b => v <- read_gpio (bc_gpio b) ;; emit ufd tv EV_KEY (bc_keycode b) v) ;;
  emit ufd tv EV_SYN SYN_REPORT 0 ;;
  sys_usleep 1000.

Fixpoint sampling_loop (n : nat) (spi_fd ufd : Z) (btns : list ButtonConfig) : M unit :=
  match n with
  | O => ret tt
  | S n' => cycle spi_fd ufd btns ;; sampling_loop n' spi_fd ufd btns
  end.

(** [main] until it has completed [n] iterations of the loop. *)
Definition main (n : nat) : M unit :=
  g <- load_config CONFIG_PATH globals_init ;;
  spi_fd <- sys_open SPI_PATH ;;
  if spi_fd <? 0 then sys_print "SPI open" ;; exit_main 1 else
  sys_ioctl spi_fd (SPI_IOC_WR_MAX_SPEED_HZ MAX_SPEED) ;;
  mfor (table g) (fun b => _ <- export_gpio (bc_gpio b) ;; ret tt) ;;
  ufd <- uinput_setup (table g) ;;
  sampling_loop n spi_fd ufd (table g).

(** ** The batch a cycle emits (spec, section 4.5) *)

Definition axis_codes : list Z := [ABS_X; ABS_Y; ABS_RX; ABS_RY].

(** Four axis events, one key event per binding in binding order, one
    synchronisation event, all stamped with the cycle's time. *)
Definition batch (tv : timeval) (axes : list Z) (btns : list ButtonConfig)
    (levels : list Z) : list input_event :=
  zip_with (fun c v => mk_input_event tv EV_ABS (to_uint16 c) v) axis_codes axes ++
  zip_with (fun b v => mk_input_event tv EV_KEY (to_uint16 (bc_keycode b)) v) btns levels ++
  [mk_input_event tv EV_SYN (to_uint16 SYN_REPORT) 0].

(** [scale_axis]'s [invert] argument per axis: the right stick is
    inverted, the left one is not. *)
Definition axis_invert : list Z := [0; 0; 1; 1].

(** A batch for [btns]: the four axes scaled from raw readings below
    4096 with [axis_invert], one 0/1 level per binding. *)
Definition is_batch (btns : list ButtonConfig) (es : list input_event) : Prop :=
  exists tv raws levels,
    es = batch tv (zip_with scale_axis raws axis_invert) btns levels /\ length raws = 4%nat /\
    Forall (fun r => 0 <= r < 4096) raws /\
    length levels = length btns /\ Forall (fun v => v = 0 \/ v = 1) levels.

(** ** One iteration, for any knowledge of what the reads return *)

Definition key_event (tv : timeval) (b : ButtonConfig) (v : Z) : input_event :=
  mk_input_event tv EV_KEY (to_uint16 (bc_keycode b)) v.

Lemma wp_emit_frame ufd tv t c v Q w :
  (forall w', emits w w' (sink (fd_target w ufd) [mk_input_event tv t (to_uint16 c) v]) ->
     Q tt w') ->
  wp (emit ufd tv t c v) Q w.
Proof. apply wp_write_event_frame. Qed.

(** Rewrite every [fd_target] of a later world back to the first one
    along the frames in the context. *)
Ltac fd_back ufd :=
  repeat match goal with
         | E : emits ?a ?b _, H : context [fd_target ?b ufd] |- _ =>
             rewrite (emits_fd_target a b _ ufd E) in H
         end.

Section Cycle.

Context (spi_fd ufd : Z) (btns : list ButtonConfig) (w0 : world).

(** What a read of an ADC channel, and of a button's line, is known to
    return from any world with [w0]'s environment and descriptors;
    both reads are silent and keep the descriptor table. *)
Context (adc_ok : Z -> Z -> Prop) (gpio_ok : ButtonConfig -> Z -> Prop).

Hypothesis read_adc_ok : forall ch w Q,
  w_env w = w_env w0 -> w_fds w = w_fds w0 ->
  (forall v w', adc_ok ch v -> emits w w' [] -> Q v w') -> wp (read_adc spi_fd ch) Q w.

Hypothesis read_gpio_ok : forall b w Q,
  w_env w = w_env w0 -> w_fds w = w_fds w0 ->
  (forall v w', gpio_ok b v -> emits w w' [] -> Q v w') -> wp (read_gpio (bc_gpio b)) Q w.

Lemma emits_same w w' es :
  emits w w' es -> w_env w = w_env w0 -> w_fds w = w_fds w0 ->
  w_env w' = w_env w0 /\ w_fds w' = w_fds w0.
Proof. intros (F & E & _) He Hf. split; congruence. Qed.

(** The button loop: one read and one key event per binding, in
    binding order. *)
Lemma wp_button_loop tv Q w :
  w_env w = w_env w0 -> w_fds w = w_fds w0 ->
  (forall levels w', Forall2 gpio_ok btns levels ->
     emits w w' (sink (fd_target w ufd) (zip_with (key_event tv) btns levels)) -> Q tt w') ->
  wp (mfor btns (fun b => v <- read_gpio (bc_gpio b) ;; emit ufd tv EV_KEY (bc_keycode b) v))
     Q w.
Proof.
  intros He Hf HQ.
  eapply wp_mono;
    [apply (wp_mfor _ _ (fun done w1 => exists levels, Forall2 gpio_ok done levels /\
              emits w w1 (sink (fd_target w ufd) (zip_with (key_event tv) done levels))))|].
  - exists []. split; [constructor|]. simpl zip_with.
    rewrite (sink_nil (A:=input_event)). apply emits_refl.
  - intros done b rest w1 _ (levels & Hl & E1).
    destruct (emits_same _ _ _ E1 He Hf) as [He1 Hf1].
    apply wp_bind, read_gpio_ok; [exact He1|exact Hf1|]. intros v w2 Hv E2.
    apply wp_emit_frame.
    rewrite (emits_fd_target _ _ _ _ E2), (emits_fd_target _ _ _ _ E1).
    intros w3 E3. exists (levels ++ [v]).
    split; [apply Forall2_app; [exact Hl|constructor; [exact Hv|constructor]]|].
    rewrite zip_with_app, sink_app by (rewrite (Forall2_length _ _ _ Hl); reflexivity).
    eapply emits_trans; [exact E1|].
    apply (emits_trans _ _ _ [] _ E2 E3).
  - intros [] w' (levels & Hl & E). apply (HQ levels); auto.
Qed.

(** One iteration completes and hands [ufd] the batch built from what
    the reads returned. *)
Lemma wp_cycle Q :
  (forall tv axes levels w', Forall2 adc_ok axis_channels axes -> Forall2 gpio_ok btns levels ->
     emits w0 w' (sink (fd_target w0 ufd)
                       (batch tv (zip_with scale_axis axes axis_invert) btns levels)) ->
     Q tt w') ->
  wp (cycle spi_fd ufd btns) Q w0.
Proof.
  intros HQ. unfold cycle.
  apply wp_bind, wp_gettimeofday_frame. intros tv w1 E1.
  destruct (emits_same _ _ _ E1 eq_refl eq_refl) as [He1 Hf1].
  apply wp_bind, read_adc_ok; [exact He1|exact Hf1|]. intros a0 w2 H0 E2.
  destruct (emits_same _ _ _ E2 He1 Hf1) as [He2 Hf2].
  apply wp_bind, read_adc_ok; [exact He2|exact Hf2|]. intros a1 w3 H1 E3.
  destruct (emits_same _ _ _ E3 He2 Hf2) as [He3 Hf3].
  apply wp_bind, read_adc_ok; [exact He3|exact Hf3|]. intros a2 w4 H2 E4.
  destruct (emits_same _ _ _ E4 He3 Hf3) as [He4 Hf4].
  apply wp_bind, read_adc_ok; [exact He4|exact Hf4|]. intros a3 w5 H3 E5.
  destruct (emits_same _ _ _ E5 He4 Hf4) as [He5 Hf5].
  apply wp_bind, wp_emit_frame. intros w6 E6.
  apply wp_bind, wp_emit_frame. intros w7 E7.
  apply wp_bind, wp_emit_frame. intros w8 E8.
  apply wp_bind, wp_emit_frame. intros w9 E9.
  destruct (emits_same _ _ _ E6 He5 Hf5) as [He6 Hf6].
  destruct (emits_same _ _ _ E7 He6 Hf6) as [He7 Hf7].
  destruct (emits_same _ _ _ E8 He7 Hf7) as [He8 Hf8].
  destruct (emits_same _ _ _ E9 He8 Hf8) as [He9 Hf9].
  apply wp_bind, wp_button_loop; [exact He9|exact Hf9|]. intros levels w10 Hl E10.
  apply wp_bind, wp_emit_frame. intros w11 E11.
  apply wp_usleep_frame. intros w12 E12.
  fd_back ufd.
  eassert (E : emits w0 w12 _) by (do 11 (eapply emits_trans; [eassumption|]); eassumption).
  apply (HQ tv [a0; a1; a2; a3] levels); [repeat constructor; assumption|exact Hl|].
  match type of E with emits _ _ ?l =>
    replace (sink (fd_target w0 ufd) _) with l; [exact E|] end.
  unfold sink. case_decide; simpl; rewrite ?app_nil_r; reflexivity.
Qed.

End Cycle.

(** With no knowledge of the hardware: reads return a 12-bit value
    and a 0/1 level. *)
Lemma wp_cycle_batch spi_fd ufd btns w Q :
  (forall es w', emits w w' (sink (fd_target w ufd) es) -> is_batch btns es -> Q tt w') ->
  wp (cycle spi_fd ufd btns) Q w.
Proof.
  intros HQ.
  apply (wp_cycle spi_fd ufd btns w (fun _ v => 0 <= v < 4096) (fun _ v => v = 0 \/ v = 1)).
  - intros ch w' Q' _ _. apply wp_read_adc_frame.
  - intros b w' Q' _ _. apply wp_read_gpio_frame.
  - intros tv axes levels w' Ha Hl E. apply (HQ _ _ E).
    exists tv, axes, levels. split; [reflexivity|].
    split; [exact (eq_sym (Forall2_length _ _ _ Ha))|].
    split; [exact (Forall2_snd _ _ _ Ha)|].
    split; [exact (eq_sym (Forall2_length _ _ _ Hl))|exact (Forall2_snd _ _ _ Hl)].
Qed.

(** ** Properties of the loop *)

(** C1: Batch order.  One iteration of the loop completes and hands to
    the descriptor [ufd] exactly one batch: the four axis events
    [ABS_X], [ABS_Y], [ABS_RX], [ABS_RY] carrying the scaled readings
    (right stick inverted), then one [EV_KEY] event per binding in
    binding order carrying a 0/1 level, then one [SYN_REPORT]; all
    share the time read at the top of the iteration.  The device
    receives the batch when [ufd] is open on [/dev/uinput], and nothing
    otherwise ([sink]). *)
Theorem cycle_emits_batch spi_fd ufd btns w :
  wp (cycle spi_fd ufd btns)
     (fun _ w' => exists es, emits w w' (sink (fd_target w ufd) es) /\ is_batch btns es) w.
Proof. apply wp_cycle_batch. intros es w' E Hb. eauto. Qed.

(** On a descriptor open on [/dev/uinput] the device receives the
    batch itself. *)
Corollary cycle_emits_batch_open spi_fd ufd btns w :
  fd_target w ufd = Some UINPUT_PATH ->
  wp (cycle spi_fd ufd btns) (fun _ w' => exists es, emits w w' es /\ is_batch btns es) w.
Proof.
  intros Hfd. apply wp_cycle_batch. intros es w' E Hb.
  rewrite Hfd, sink_open in E. eauto.
Qed.

(** ** A cycle against a fixed hardware state *)

(** The MAX186 on the bus answers every transfer with the sample of the
    physical input its control byte selects; [pin c] is the 12-bit
    sample of input CH[c]. *)
Definition max186_answers (e : env) (pin : Z -> Z) : Prop :=
  forall log tr, exists junk,
    env_spi e log tr =
    Some (MAX186.response junk (pin (MAX186.channel_of_sel (MAX186.sel (nth 0 (tr_tx tr) 0))))).

(** Every line's [value] file opens and holds [line g]. *)
Definition lines_read (e : env) (line : Z -> option Z) : Prop :=
  forall log g, env_open e log (gpio_path g "value") = true /\
                env_read e log (gpio_path g "value") = line g.

Lemma wp_read_adc_pin pin spi_fd ch Q w :
  max186_answers (w_env w) pin -> (forall c, 0 <= pin c < 4096) -> fd_target w spi_fd <> None ->
  (forall w', emits w w' [] ->
     Q (pin (MAX186.channel_of_sel (MAX186.sel (adc_ctrl_byte (to_uint8 ch)))) / 2) w') ->
  wp (read_adc spi_fd ch) Q w.
Proof.
  intros Hans Hpin Hfd HQ. unfold wp. rewrite read_adc_step. cbv zeta.
  destruct (fd_target w spi_fd) as [t|]; [|congruence].
  destruct (Hans (w_log w) (adc_transfer (to_uint8 ch))) as [junk ->].
  rewrite adc_value_response by apply Hpin. apply HQ, emits_log_quiet. reflexivity.
Qed.

Lemma wp_read_gpio_line line g Q w :
  lines_read (w_env w) line ->
  (forall w', emits w w' [] -> Q (byte_level (line g)) w') -> wp (read_gpio g) Q w.
Proof.
  intros Hl HQ. unfold wp. rewrite read_gpio_run.
  destruct (Hl (w_log w) g) as [-> _]. cbv zeta.
  destruct (Hl (w_log w ++ [SysOpen (gpio_path g "value") (fresh_fd (w_fds w))]) g) as [_ ->].
  apply HQ, emits_nil_intro; [done|done|]. simpl. rewrite !uinput_traffic_app. simpl.
  rewrite !app_nil_r. done.
Qed.

(** The axis values and key levels of a fixed hardware state. *)
Definition snapshot_axes (pin : Z -> Z) : list Z :=
  [scale_axis (pin 0 / 2) 0; scale_axis (pin 1 / 2) 0;
   scale_axis (pin 2 / 2) 1; scale_axis (pin 3 / 2) 1].

Definition snapshot_levels (line : Z -> option Z) (btns : list ButtonConfig) : list Z :=
  (fun b => byte_level (line (bc_gpio b))) <$> btns.

Lemma wp_cycle_snapshot spi_fd ufd btns w pin line Q :
  fd_target w spi_fd = Some SPI_PATH ->
  max186_answers (w_env w) pin -> (forall c, 0 <= pin c < 4096) ->
  lines_read (w_env w) line ->
  (forall tv w', emits w w' (sink (fd_target w ufd)
                   (batch tv (snapshot_axes pin) btns (snapshot_levels line btns))) -> Q tt w') ->
  wp (cycle spi_fd ufd btns) Q w.
Proof.
  intros Hspi Hans Hpin Hlines HQ.
  apply (wp_cycle spi_fd ufd btns w
           (fun ch v => v = pin (MAX186.channel_of_sel (MAX186.sel (adc_ctrl_byte (to_uint8 ch)))) / 2)
           (fun b v => v = byte_level (line (bc_gpio b)))).
  - intros ch w' Q' He Hf HQ'. apply (wp_read_adc_pin pin); [rewrite He; exact Hans|exact Hpin| |].
    + rewrite (fd_target_same_fds _ _ _ Hf), Hspi. discriminate.
    + intros w'' E. apply HQ'; [reflexivity|exact E].
  - intros b w' Q' He Hf HQ'. apply (wp_read_gpio_line line); [rewrite He; exact Hlines|].
    intros w'' E. apply HQ'; [reflexivity|exact E].
  - intros tv axes levels w' Ha Hl E. apply (HQ tv). unfold snapshot_axes, snapshot_levels.
    rewrite (Forall2_fun _ _ _ Ha), (Forall2_fun _ _ _ Hl) in E. exact E.
Qed.

(** C2: Functional correctness of an iteration.  Against a fixed
    hardware state - the converter answering each transfer with the
    sample [pin c] of the physical input its control byte selects, each
    line's value file holding [line g] - one iteration hands [ufd]
    exactly the batch of that state: [ABS_X] and [ABS_Y] carry the
    scaled samples of CH0 and CH1, [ABS_RX] and [ABS_RY] the inverted
    scaled samples of CH2 and CH3 (each sample with its last bit
    dropped by the framing), and every binding's [EV_KEY] carries 1
    exactly when its line reads ['1']. *)
Theorem cycle_reports_inputs spi_fd ufd btns w pin line :
  fd_target w spi_fd = Some SPI_PATH ->
  max186_answers (w_env w) pin -> (forall c, 0 <= pin c < 4096) ->
  lines_read (w_env w) line ->
  wp (cycle spi_fd ufd btns)
     (fun _ w' => exists tv, emits w w' (sink (fd_target w ufd)
        (batch tv [scale_axis (pin 0 / 2) 0; scale_axis (pin 1 / 2) 0;
                   scale_axis (pin 2 / 2) 1; scale_axis (pin 3 / 2) 1]
               btns ((fun b => byte_level (line (bc_gpio b))) <$> btns)))) w.
Proof.
  intros Hspi Hans Hpin Hlines.
  apply (wp_cycle_snapshot spi_fd ufd btns w pin line); [exact Hspi|exact Hans|exact Hpin|exact Hlines|].
  intros tv w' E. exists tv. unfold snapshot_axes, snapshot_levels in E. exact E.
Qed.

Definition bench_pin (c : Z) : Z := (c * 1000 + 95) mod 4096.

(** A MAX186 whose inputs hold [bench_pin]. *)
Definition bench_spi (log : list sysev) (tr : spi_ioc_transfer) : option (list Z) :=
  Some (MAX186.response 0 (bench_pin (MAX186.channel_of_sel (MAX186.sel (nth 0 (tr_tx tr) 0))))).

(** A bench: a MAX186 whose inputs hold [bench_pin], every line pressed,
    the SPI bus open on descriptor 3 and the device on 4. *)
Definition bench_world : world :=
  mk_world (mk_env (fun _ _ => true) (fun _ _ => true) (fun _ _ => Some CHAR_1)
                   bench_spi
                   (fun _ => mk_timeval 0 0) (fun _ => None))
           [(4, UINPUT_PATH); (3, SPI_PATH)] [].

Lemma cycle_reports_inputs_witness :
  let btns := [mk_ButtonConfig "A" 17 BTN_A; mk_ButtonConfig "B" 27 BTN_B] in
  (fd_target bench_world 3 = Some SPI_PATH /\
   max186_answers (w_env bench_world) bench_pin /\ (forall c, 0 <= bench_pin c < 4096) /\
   lines_read (w_env bench_world) (fun _ => Some CHAR_1)) /\
  wp (cycle 3 4 btns)
     (fun _ w' => exists tv, emits bench_world w' (sink (fd_target bench_world 4)
        (batch tv [scale_axis (bench_pin 0 / 2) 0; scale_axis (bench_pin 1 / 2) 0;
                   scale_axis (bench_pin 2 / 2) 1; scale_axis (bench_pin 3 / 2) 1]
               btns ((fun b => byte_level ((fun _ => Some CHAR_1) (bc_gpio b))) <$> btns))))
     bench_world.
Proof.
  intros btns.
  assert (Hp : forall c, 0 <= bench_pin c < 4096)
    by (intros c; unfold bench_pin; apply Z.mod_pos_bound; lia).
  assert (Ha : max186_answers (w_env bench_world) bench_pin) by (intros log tr; exists 0; reflexivity).
  assert (Hl : lines_read (w_env bench_world) (fun _ => Some CHAR_1)) by (intros log g; split; reflexivity).
  split; [split; [reflexivity|split; [exact Ha|split; [exact Hp|exact Hl]]]|].
  apply (cycle_reports_inputs 3 4 btns bench_world bench_pin (fun _ => Some CHAR_1));
    [reflexivity|exact Ha|exact Hp|exact Hl].
Defined.

Section Loop.

Context (spi_fd ufd : Z) (btns : list ButtonConfig).

(** What an iteration is known to hand [ufd], and a property of the
    world that iterations keep. *)
Context (Inv : world -> Prop) (good : list input_event -> Prop).

Hypothesis cycle_ok : forall w Q, Inv w ->
  (forall es w', emits w w' (sink (fd_target w ufd) es) -> good es -> Inv w' -> Q tt w') ->
  wp (cycle spi_fd ufd btns) Q w.

(** [n] iterations, each handing [ufd] one batch. *)
Lemma wp_loop n Q w :
  Inv w ->
  (forall bs w', length bs = n -> Forall good bs ->
     emits w w' (sink (fd_target w ufd) (concat bs)) -> Q tt w') ->
  wp (sampling_loop n spi_fd ufd btns) Q w.
Proof.
  revert Q w. induction n as [|n IH]; intros Q w Hinv HQ; simpl.
  - apply wp_ret, (HQ []); [done|constructor|].
    rewrite (sink_nil (A:=input_event)). apply emits_refl.
  - apply wp_bind, cycle_ok; [exact Hinv|]. intros es w1 E1 Hb Hinv1.
    apply IH; [exact Hinv1|]. intros bs w2 Hlen Hbs E2.
    apply (HQ (es :: bs)); [simpl; lia|constructor; assumption|].
    rewrite (emits_fd_target _ _ _ _ E1) in E2.
    simpl. rewrite sink_app. eapply emits_trans; eauto.
Qed.

End Loop.

Lemma wp_sampling_loop n spi_fd ufd btns Q w :
  (forall bs w', length bs = n -> Forall (is_batch btns) bs ->
     emits w w' (sink (fd_target w ufd) (concat bs)) -> Q tt w') ->
  wp (sampling_loop n spi_fd ufd btns) Q w.
Proof.
  intros HQ. apply (wp_loop spi_fd ufd btns (fun _ => True) (is_batch btns)); [|done|exact HQ].
  intros w' Q' _ HQ'. apply wp_cycle_batch. intros es w'' E Hb. apply (HQ' es); done.
Qed.

(** C3: The loop runs forever, one batch per iteration.  For every
    [n], the first [n] iterations of [while (1)] complete (no iteration
    blocks the next or leaves the loop) and [ufd] has been handed
    exactly [n] batches for the configured bindings, one after the
    other. *)
Theorem sampling_loop_batches n spi_fd ufd btns w :
  wp (sampling_loop n spi_fd ufd btns)
     (fun _ w' => exists bs, length bs = n /\ Forall (is_batch btns) bs /\
                             emits w w' (sink (fd_target w ufd) (concat bs))) w.
Proof. apply wp_sampling_loop. eauto. Qed.

(** The C types of [struct input_event]'s fields: [type] and [code] are
    [__u16], [value] is [__s32]. *)
Definition event_well_typed (e : input_event) : Prop :=
  0 <= ev_type e < 2 ^ 16 /\ 0 <= ev_code e < 2 ^ 16 /\ in_int (ev_value e) = true.

Lemma event_well_typed_intro tv t c v :
  0 <= t < 2 ^ 16 -> INT_MIN <= v <= INT_MAX ->
  event_well_typed (mk_input_event tv t (to_uint16 c) v).
Proof.
  intros Ht Hv. split; [exact Ht|split; [apply Z.mod_pos_bound; lia|apply in_int_spec, Hv]].
Qed.

(** ** The whole program *)

Section Main.

Context (w : world) (g : globals) (w1 : world).

Hypothesis Hload : load_config CONFIG_PATH globals_init w = (Done g, w1).
Hypothesis Hspi : env_open (w_env w) (w_log w1) SPI_PATH = true.

(** What each iteration on the SPI descriptor [spi] is known to hand
    the device, and a property of the world the iterations keep, which
    holds once set-up is done: the environment is [w]'s and [spi] is
    open on the bus. *)
Context (Inv : Z -> world -> Prop) (good : list input_event -> Prop).

Hypothesis Inv_start : forall spi w',
  w_env w' = w_env w -> fd_target w' spi = Some SPI_PATH -> Inv spi w'.

Hypothesis main_cycle_ok : forall spi ufd w' Q, Inv spi w' ->
  (forall es w'', emits w' w'' (sink (fd_target w' ufd) es) -> good es -> Inv spi w'' ->
     Q tt w'') ->
  wp (cycle spi ufd (table g)) Q w'.

(** [main] after a normal configuration load and a successful SPI
    open: set-up completes and the loop runs; for every [n] the
    device [ufd] refers to has received the registration and then [n]
    batches, delivered to the sink [t]: the device when its open
    succeeded, nowhere when it failed. *)
Lemma main_run_gen n :
  wp (main n) (fun _ w' => exists bs t, length bs = n /\ Forall good bs /\
       uinput_traffic (w_log w') = uinput_traffic (w_log w) ++
         sink t (registration (table g) ++ (uio_of_event <$> concat bs)) /\
       ((forall log, env_open (w_env w) log UINPUT_PATH = true) -> t = Some UINPUT_PATH) /\
       ((forall log, env_open (w_env w) log UINPUT_PATH = false) -> t = None)) w.
Proof.
  unfold main. apply wp_bind. unfold wp at 1. rewrite Hload.
  pose proof (emits_nil_eq _ _ (load_config_quiet _ _ _ _ _ Hload)) as (_ & Env1 & S1).
  apply wp_bind, wp_open_frame. intros spi w2 O2. pose proof O2 as (Env2 & S2 & Ho2).
  rewrite Env1, Hspi in Ho2. destruct Ho2 as (Hge & _ & _).
  pose proof (opened_target _ _ _ _ O2 ltac:(lia)) as Hspi2.
  rewrite (proj2 (Z.ltb_ge spi 0)) by lia.
  apply wp_bind, wp_ioctl_other; [rewrite Hspi2; discriminate|].
  intros w3 (F3 & Env3 & S3)%emits_nil_eq.
  apply wp_bind, wp_mfor_quiet; [|intros w4 (F4 & Env4 & S4)%emits_nil_eq].
  { intros b wb. apply wp_bind, wp_export_gpio_frame. intros r wr Er. apply wp_ret, Er. }
  apply wp_bind, wp_uinput_setup. intros ufd w5 Env5 S5 Ht Hoth.
  assert (Hspi5 : fd_target w5 spi = Some SPI_PATH).
  { rewrite Hoth; rewrite (fd_target_same_fds _ _ _ F4), (fd_target_same_fds _ _ _ F3), Hspi2;
      discriminate || reflexivity. }
  apply (wp_loop spi ufd (table g) (Inv spi) good (main_cycle_ok spi ufd));
    [apply Inv_start; [congruence|exact Hspi5]|].
  intros bs w6 Hlen Hbs (_ & _ & S6).
  exists bs, (fd_target w5 ufd). split; [exact Hlen|split; [exact Hbs|split]].
  - rewrite S6, S5, S4, S3, S2, S1, <- app_assoc, sink_app, sink_fmap. done.
  - rewrite Env4, Env3, Env2, Env1 in Ht. split; intros Hall; rewrite Hall in Ht; [exact Ht|].
    apply Ht.
Qed.

End Main.

(** With no knowledge of the hardware, every iteration hands over a
    batch for the loaded bindings. *)
Lemma main_run n w g w1 :
  load_config CONFIG_PATH globals_init w = (Done g, w1) ->
  env_open (w_env w) (w_log w1) SPI_PATH = true ->
  wp (main n) (fun _ w' => exists bs t, length bs = n /\ Forall (is_batch (table g)) bs /\
       uinput_traffic (w_log w') = uinput_traffic (w_log w) ++
         sink t (registration (table g) ++ (uio_of_event <$> concat bs)) /\
       ((forall log, env_open (w_env w) log UINPUT_PATH = true) -> t = Some UINPUT_PATH) /\
       ((forall log, env_open (w_env w) log UINPUT_PATH = false) -> t = None)) w.
Proof.
  intros Hload Hspi.
  apply (main_run_gen w g w1 Hload Hspi (fun _ _ => True) (is_batch (table g))); [done|].
  intros spi ufd w' Q _ HQ. apply wp_cycle_batch. intros es w'' E Hb. apply (HQ es); done.
Qed.

(** What consumers see of that traffic: the events of the batches, when
    the sink is the device. *)
Lemma stream_of_traffic l l' t btns es :
  uinput_traffic l' = uinput_traffic l ++ sink t (registration btns ++ (uio_of_event <$> es)) ->
  uinput_stream l' = uinput_stream l ++ sink t es.
Proof.
  intros S. rewrite !uinput_stream_traffic, S, bind_app. f_equal.
  unfold sink. destruct (decide _); [|done].
  rewrite bind_app, registration_events, uio_events_of_events. done.
Qed.

(** C4: End to end.  When the configuration loads, the SPI bus opens
    and [/dev/uinput] can be opened, then for every [n] the program
    completes [n] iterations of its loop and consumers of the virtual
    device have received exactly [n] batches for the loaded bindings:
    the loop neither stops nor skips a report. *)
Theorem main_batches n w g w1 :
  load_config CONFIG_PATH globals_init w = (Done g, w1) ->
  env_open (w_env w) (w_log w1) SPI_PATH = true ->
  (forall log, env_open (w_env w) log UINPUT_PATH = true) ->
  wp (main n) (fun _ w' => exists bs, length bs = n /\ Forall (is_batch (table g)) bs /\
       uinput_stream (w_log w') = uinput_stream (w_log w) ++ concat bs) w.
Proof.
  intros Hload Hspi Hui. eapply wp_mono; [apply (main_run n w g w1 Hload Hspi)|].
  intros [] w' (bs & t & Hlen & Hbs & S & Hopen & _).
  apply stream_of_traffic in S. rewrite (Hopen Hui), sink_open in S. eauto.
Qed.

(** A process whose configuration file holds [A=17] and [B=27], with
    every device present. *)
Definition demo_world : world :=
  config_world (String.append "A=17" (String CLib.LF "B=27")).

Definition demo_globals : globals :=
  mk_globals (<[1%nat := mk_ButtonConfig "B" 27 BTN_B]>
              (<[0%nat := mk_ButtonConfig "A" 17 BTN_A]> (buttons globals_init))) 2.

Lemma main_batches_witness :
  let w1 := snd (load_config CONFIG_PATH globals_init demo_world) in
  (load_config CONFIG_PATH globals_init demo_world = (Done demo_globals, w1) /\
   env_open (w_env demo_world) (w_log w1) SPI_PATH = true /\
   (forall log, env_open (w_env demo_world) log UINPUT_PATH = true)) /\
  wp (main 3) (fun _ w' => exists bs, length bs = 3%nat /\ Forall (is_batch (table demo_globals)) bs /\
       uinput_stream (w_log w') = uinput_stream (w_log demo_world) ++ concat bs) demo_world.
Proof.
  intros w1. split; [split; [vm_compute; reflexivity|split; [reflexivity|intros; reflexivity]]|].
  apply (main_batches 3 demo_world demo_globals w1);
    [vm_compute; reflexivity|reflexivity|intros; reflexivity].
Defined.

(** End to end against a fixed hardware state: the spec's scenario
    (section 8). *)
Lemma main_snapshot n w g w1 pin line :
  load_config CONFIG_PATH globals_init w = (Done g, w1) ->
  env_open (w_env w) (w_log w1) SPI_PATH = true ->
  max186_answers (w_env w) pin -> (forall c, 0 <= pin c < 4096) ->
  lines_read (w_env w) line ->
  wp (main n) (fun _ w' => exists tvs t, length tvs = n /\
       uinput_stream (w_log w') = uinput_stream (w_log w) ++ sink t
         (concat ((fun tv => batch tv (snapshot_axes pin) (table g)
                                   (snapshot_levels line (table g))) <$> tvs)) /\
       ((forall log, env_open (w_env w) log UINPUT_PATH = true) -> t = Some UINPUT_PATH)) w.
Proof.
  intros Hload Hspi Hans Hpin Hlines. eapply wp_mono.
  { apply (main_run_gen w g w1 Hload Hspi
      (fun spi w' => w_env w' = w_env w /\ fd_target w' spi = Some SPI_PATH)
      (fun es => exists tv, es = batch tv (snapshot_axes pin) (table g)
                                       (snapshot_levels line (table g)))).
    - intros spi w' He Hf. done.
    - intros spi ufd w' Q [He Hf] HQ.
      apply (wp_cycle_snapshot spi ufd (table g) w' pin line);
        [exact Hf|rewrite He; exact Hans|exact Hpin|rewrite He; exact Hlines|].
      intros tv w'' E. apply (HQ _ w'' E); [eauto|].
      destruct E as (F & Env & _). split; [congruence|].
      rewrite (fd_target_same_fds _ _ _ F). exact Hf. }
  intros [] w' (bs & t & Hlen & Hbs & S & Hopen & _).
  apply stream_of_traffic in S.
  destruct (Forall_exists_fmap _ _ Hbs) as [tvs ->].
  exists tvs, t. rewrite length_fmap in Hlen. split; [exact Hlen|split; [exact S|exact Hopen]].
Qed.

(** C5: The spec's end-to-end scenario (section 8), for any
    configuration and any fixed hardware state.  When the configuration
    loads, the SPI bus and [/dev/uinput] open, the converter answers
    each transfer with the sample [pin c] of the input its control byte
    selects and each line's value file holds [line g], then for every
    [n] the program completes [n] iterations and consumers receive
    exactly [n] batches, each stamped with its own time and carrying
    the same values: [ABS_X], [ABS_Y] the scaled samples of CH0 and
    CH1, [ABS_RX], [ABS_RY] the inverted scaled samples of CH2 and CH3,
    then for every loaded binding, in file order, 1 exactly when its
    line reads ['1'], then the synchronisation event. *)
Theorem main_reports_inputs n w g w1 pin line :
  load_config CONFIG_PATH globals_init w = (Done g, w1) ->
  env_open (w_env w) (w_log w1) SPI_PATH = true ->
  (forall log, env_open (w_env w) log UINPUT_PATH = true) ->
  max186_answers (w_env w) pin -> (forall c, 0 <= pin c < 4096) ->
  lines_read (w_env w) line ->
  wp (main n) (fun _ w' => exists tvs, length tvs = n /\
       uinput_stream (w_log w') = uinput_stream (w_log w) ++
         concat ((fun tv => batch tv [scale_axis (pin 0 / 2) 0; scale_axis (pin 1 / 2) 0;
                                      scale_axis (pin 2 / 2) 1; scale_axis (pin 3 / 2) 1]
                                  (table g) ((fun b => byte_level (line (bc_gpio b))) <$> table g))
                 <$> tvs)) w.
Proof.
  intros Hload Hspi Hui Hans Hpin Hlines.
  eapply wp_mono; [apply (main_snapshot n w g w1 pin line Hload Hspi Hans Hpin Hlines)|].
  intros [] w' (tvs & t & Hlen & S & Hopen).
  rewrite (Hopen Hui), sink_open in S. unfold snapshot_axes, snapshot_levels in S. eauto.
Qed.

(** The spec's configuration [A=17], [B=27], with line 17 pressed and
    line 27 released, on the bench converter. *)
Definition scenario_read (log : list sysev) (p : string) : option Z :=
  if String.eqb p (gpio_path 17 "value") then Some CHAR_1 else Some CHAR_0.

Definition scenario_world : world :=
  sample_world (sample_env (fun p => if String.eqb p CONFIG_PATH
                                     then Some (String.append "A=17" (String CLib.LF "B=27"))
                                     else None)
                           scenario_read bench_spi).

Lemma main_reports_inputs_witness :
  let w1 := snd (load_config CONFIG_PATH globals_init scenario_world) in
  let line := fun g => scenario_read [] (gpio_path g "value") in
  (load_config CONFIG_PATH globals_init scenario_world = (Done demo_globals, w1) /\
   env_open (w_env scenario_world) (w_log w1) SPI_PATH = true /\
   (forall log, env_open (w_env scenario_world) log UINPUT_PATH = true) /\
   max186_answers (w_env scenario_world) bench_pin /\ (forall c, 0 <= bench_pin c < 4096) /\
   lines_read (w_env scenario_world) line) /\
  wp (main 2) (fun _ w' => exists tvs, length tvs = 2%nat /\
       uinput_stream (w_log w') = uinput_stream (w_log scenario_world) ++
         concat ((fun tv => batch tv [scale_axis (bench_pin 0 / 2) 0; scale_axis (bench_pin 1 / 2) 0;
                                      scale_axis (bench_pin 2 / 2) 1; scale_axis (bench_pin 3 / 2) 1]
                                  (table demo_globals)
                                  ((fun b => byte_level (line (bc_gpio b))) <$> table demo_globals))
                 <$> tvs)) scenario_world.
Proof.
  intros w1 line.
  assert (Hl : load_config CONFIG_PATH globals_init scenario_world = (Done demo_globals, w1))
    by (vm_compute; reflexivity).
  assert (Hp : forall c, 0 <= bench_pin c < 4096)
    by (intros c; unfold bench_pin; apply Z.mod_pos_bound; lia).
  assert (Ha : max186_answers (w_env scenario_world) bench_pin)
    by (intros log tr; exists 0; reflexivity).
  assert (Hr : lines_read (w_env scenario_world) line) by (intros log g; split; reflexivity).
  split; [split; [exact Hl|split; [reflexivity|split; [intros; reflexivity|
          split; [exact Ha|split; [exact Hp|exact Hr]]]]]|].
  apply (main_reports_inputs 2 scenario_world demo_globals w1 bench_pin line);
    [exact Hl|reflexivity|intros; reflexivity|exact Ha|exact Hp|exact Hr].
Defined.

(** C19: A missing virtual device is not fatal.  The spec classes a
    device that cannot be opened as a fatal set-up failure; the code
    does not check [open("/dev/uinput")], so when it fails the program
    still runs its loop forever, sampling the hardware, and consumers
    receive nothing at all. *)
Theorem main_uinput_missing n w g w1 :
  load_config CONFIG_PATH globals_init w = (Done g, w1) ->
  env_open (w_env w) (w_log w1) SPI_PATH = true ->
  (forall log, env_open (w_env w) log UINPUT_PATH = false) ->
  wp (main n) (fun _ w' => uinput_stream (w_log w') = uinput_stream (w_log w)) w.
Proof.
  intros Hload Hspi Hui. eapply wp_mono; [apply (main_run n w g w1 Hload Hspi)|].
  intros [] w' (bs & t & _ & _ & S & _ & Hclosed).
  apply stream_of_traffic in S. rewrite (Hclosed Hui), sink_closed, app_nil_r in S. exact S.
Qed.

Definition no_uinput_world : world :=
  sample_world (mk_env (fun _ p => negb (String.eqb p UINPUT_PATH)) (fun _ _ => true)
                       (fun _ _ => None) (fun _ _ => None) (fun _ => mk_timeval 0 0)
                       (fun p => if String.eqb p CONFIG_PATH then Some "A=17" else None)).

Definition demo_globals_A : globals :=
  mk_globals (<[0%nat := mk_ButtonConfig "A" 17 BTN_A]> (buttons globals_init)) 1.

Lemma main_uinput_missing_witness :
  let w1 := snd (load_config CONFIG_PATH globals_init no_uinput_world) in
  (load_config CONFIG_PATH globals_init no_uinput_world = (Done demo_globals_A, w1) /\
   env_open (w_env no_uinput_world) (w_log w1) SPI_PATH = true /\
   (forall log, env_open (w_env no_uinput_world) log UINPUT_PATH = false)) /\
  wp (main 2) (fun _ w' => uinput_stream (w_log w') = uinput_stream (w_log no_uinput_world))
     no_uinput_world.
Proof.
  intros w1. split; [split; [vm_compute; reflexivity|split; [reflexivity|intros; reflexivity]]|].
  apply (main_uinput_missing 2 no_uinput_world demo_globals_A w1);
    [vm_compute; reflexivity|reflexivity|intros; reflexivity].
Defined.

(** C20: SPI set-up failure is fatal.  When the SPI device cannot be
    opened, [main] prints the error and returns 1 before registering
    the virtual device: nothing reaches consumers and no loop runs. *)
Theorem main_spi_failure n w g w1 :
  load_config CONFIG_PATH globals_init w = (Done g, w1) ->
  env_open (w_env w) (w_log w1) SPI_PATH = false ->
  exists w', main n w = (Exited 1, w') /\ uinput_stream (w_log w') = uinput_stream (w_log w).
Proof.
  intros Hload Hspi. unfold main, bind. rewrite Hload.
  pose proof (load_config_quiet _ _ _ _ _ Hload) as E1.
  pose proof (emits_nil_eq _ _ E1) as (_ & Env1 & _).
  apply emits_stream in E1. rewrite app_nil_r in E1.
  unfold sys_open. rewrite Env1, Hspi. simpl. eexists. split; [reflexivity|].
  simpl. rewrite !uinput_stream_app, E1. simpl. rewrite !app_nil_r. reflexivity.
Qed.

Definition no_spi_world : world :=
  sample_world (mk_env (fun _ p => negb (String.eqb p SPI_PATH)) (fun _ _ => true)
                       (fun _ _ => None) (fun _ _ => None) (fun _ => mk_timeval 0 0)
                       (fun _ => None)).

Lemma main_spi_failure_witness :
  let w1 := snd (load_config CONFIG_PATH globals_init no_spi_world) in
  (load_config CONFIG_PATH globals_init no_spi_world = (Done globals_init, w1) /\
   env_open (w_env no_spi_world) (w_log w1) SPI_PATH = false) /\
  exists w', main 5 no_spi_world = (Exited 1, w') /\
             uinput_stream (w_log w') = uinput_stream (w_log no_spi_world).
Proof.
  intros w1. split; [split; [vm_compute; reflexivity|reflexivity]|].
  apply (main_spi_failure 5 no_spi_world globals_init w1); [vm_compute; reflexivity|reflexivity].
Defined.

(** ** The device accepts what the program sends (spec, section 3) *)

(** Every event of a batch is one the registered device supports, when
    the bindings' codes are gamepad codes. *)
Lemma batch_supported btns es :
  Forall (fun b => BTN_A <= bc_keycode b <= KEY_MAX) btns -> is_batch btns es ->
  Forall (fun e => UinputDev.supported (reg_caps btns) e = true) es.
Proof.
  intros Hk (tv & raws & levels & -> & Hr & _). unfold batch.
  apply Forall_app; split; [|apply Forall_app; split].
  - destruct raws as [|a0 [|a1 [|a2 [|a3 [|]]]]]; try discriminate. simpl.
    repeat constructor; apply UinputDev.supported_intro; right; simpl;
      rewrite to_uint16_small by (vm_compute; intuition discriminate);
      unfold reg_caps; split; set_solver.
  - apply Forall_zip_with_l. intros b v Hb. apply UinputDev.supported_intro. right. simpl.
    rewrite Forall_forall in Hk. specialize (Hk b Hb).
    rewrite to_uint16_small by (unfold BTN_A, KEY_MAX in Hk; lia).
    unfold reg_caps. split; [set_solver|].
    apply elem_of_app; right; apply elem_of_app; left.
    apply list_elem_of_In. rewrite <- in_rev. apply list_elem_of_In, list_elem_of_fmap. exists b. done.
  - repeat constructor.
Qed.

(** C6: Registration covers the stream (spec, section 3).  Run from a
    process whose [/dev/uinput] has received nothing yet, with the
    configuration loaded, the SPI bus and [/dev/uinput] open, the
    kernel's uinput device accepts all the traffic of the first [n]
    iterations: it ends created, with the capabilities registered before
    [UI_DEV_CREATE] (the two event types, every configured key, the four
    axes) and nothing after, and it delivers every event the program
    writes: no event is refused or dropped as unsupported. *)
Theorem main_device_accepts n w g w1 :
  load_config CONFIG_PATH globals_init w = (Done g, w1) ->
  env_open (w_env w) (w_log w1) SPI_PATH = true ->
  (forall log, env_open (w_env w) log UINPUT_PATH = true) ->
  uinput_traffic (w_log w) = [] ->
  wp (main n) (fun _ w' => exists s,
       UinputDev.steps UinputDev.init (uinput_traffic (w_log w')) s /\
       UinputDev.created s = true /\ UinputDev.caps s = reg_caps (table g) /\
       UinputDev.delivered s = uinput_stream (w_log w')) w.
Proof.
  intros Hload Hspi Hui H0. pose proof (load_config_keys _ _ _ _ Hload) as [_ Hk].
  eapply wp_mono; [apply (main_run n w g w1 Hload Hspi)|].
  intros [] w' (bs & t & _ & Hbs & S & Hopen & _).
  pose proof (stream_of_traffic _ _ _ _ _ S) as Hs.
  rewrite (Hopen Hui), sink_open in S. rewrite (Hopen Hui), sink_open in Hs.
  rewrite (uinput_stream_traffic (w_log w)), H0 in Hs. rewrite H0 in S.
  exists (UinputDev.mk_state (reg_caps (table g)) (Some uidev) true (concat bs)).
  split; [|split; [done|split; [done|rewrite Hs; done]]].
  rewrite S, app_nil_l. eapply UinputDev.steps_app; [apply registration_steps|].
  apply (UinputDev.steps_events (UinputDev.mk_state _ _ _ [])); [done|].
  apply Forall_concat. eapply Forall_impl; [exact Hbs|]. intros es. apply batch_supported, Hk.
Qed.

Lemma main_device_accepts_witness :
  let w1 := snd (load_config CONFIG_PATH globals_init demo_world) in
  (load_config CONFIG_PATH globals_init demo_world = (Done demo_globals, w1) /\
   env_open (w_env demo_world) (w_log w1) SPI_PATH = true /\
   (forall log, env_open (w_env demo_world) log UINPUT_PATH = true) /\
   uinput_traffic (w_log demo_world) = []) /\
  wp (main 2) (fun _ w' => exists s,
       UinputDev.steps UinputDev.init (uinput_traffic (w_log w')) s /\
       UinputDev.created s = true /\ UinputDev.caps s = reg_caps (table demo_globals) /\
       UinputDev.delivered s = uinput_stream (w_log w')) demo_world.
Proof.
  intros w1. split; [split; [vm_compute; reflexivity|split; [reflexivity|split; [intros; reflexivity|reflexivity]]]|].
  apply (main_device_accepts 2 demo_world demo_globals w1);
    [vm_compute; reflexivity|reflexivity|intros; reflexivity|reflexivity].
Defined.

(** ** Every event the program writes is a well-typed [struct input_event] *)

(** A key event carries the code of one of the bindings, as it is. *)
Definition key_code_of (btns : list ButtonConfig) (e : input_event) : Prop :=
  ev_type e = EV_KEY -> exists b, b ∈ btns /\ ev_code e = bc_keycode b.

(** The events of a batch, when the bindings' codes are gamepad codes:
    every field fits its C type, and no key code is truncated by the
    [__u16] field. *)
Lemma batch_typed btns es :
  Forall (fun b => BTN_A <= bc_keycode b <= KEY_MAX) btns -> is_batch btns es ->
  Forall (fun e => event_well_typed e /\ key_code_of btns e) es.
Proof.
  intros Hk (tv & raws & levels & -> & Hr & Hraw & _ & Hl). apply Forall_and. split.
  - unfold batch. apply Forall_app; split; [|apply Forall_app; split].
    + destruct raws as [|a0 [|a1 [|a2 [|a3 [|]]]]]; try discriminate.
      cbn [zip_with axis_codes axis_invert].
      repeat (apply Forall_cons in Hraw as [? Hraw]).
      repeat constructor; apply event_well_typed_intro; unfold EV_ABS, INT_MIN, INT_MAX; try lia;
        match goal with |- context [scale_axis ?a ?i] =>
          pose proof (scale_axis_12bit a i ltac:(assumption)) end; lia.
    + apply (Forall_zip_with_r _ _ _ _ _ Hl). intros b v Hv.
      apply event_well_typed_intro; unfold EV_KEY, INT_MIN, INT_MAX; lia.
    + constructor; [|constructor].
      apply event_well_typed_intro; unfold EV_SYN, INT_MIN, INT_MAX; lia.
  - unfold batch, key_code_of. apply Forall_app; split; [|apply Forall_app; split].
    + apply Forall_zip_with_l. intros c v _. simpl. unfold EV_ABS, EV_KEY. lia.
    + apply Forall_zip_with_l. intros b v Hb _. exists b. split; [exact Hb|]. simpl.
      rewrite Forall_forall in Hk. specialize (Hk b Hb).
      apply to_uint16_small. unfold BTN_A, KEY_MAX in Hk. lia.
    + constructor; [|constructor]. simpl. unfold EV_SYN, EV_KEY. lia.
Qed.

(** C7: Every event consumers receive is a well-typed [struct
    input_event].  When the configuration loads and the SPI bus opens,
    every event [main] delivers in its first [n] iterations has a type
    and a code that fit [__u16] and a value that fits [__s32], and
    every key event carries, untruncated, the key code of one of the
    loaded bindings. *)
Theorem main_events_well_typed n w g w1 :
  load_config CONFIG_PATH globals_init w = (Done g, w1) ->
  env_open (w_env w) (w_log w1) SPI_PATH = true ->
  wp (main n) (fun _ w' => exists es,
       uinput_stream (w_log w') = uinput_stream (w_log w) ++ es /\
       Forall (fun e => event_well_typed e /\ key_code_of (table g) e) es) w.
Proof.
  intros Hload Hspi. pose proof (load_config_keys _ _ _ _ Hload) as [_ Hk].
  eapply wp_mono; [apply (main_run n w g w1 Hload Hspi)|].
  intros [] w' (bs & t & _ & Hbs & S & _ & _).
  apply stream_of_traffic in S. exists (sink t (concat bs)). split; [exact S|].
  unfold sink. destruct (decide _); [|constructor].
  apply Forall_concat. eapply Forall_impl; [exact Hbs|]. intros es. apply batch_typed, Hk.
Qed.

Lemma main_events_well_typed_witness :
  let w1 := snd (load_config CONFIG_PATH globals_init demo_world) in
  (load_config CONFIG_PATH globals_init demo_world = (Done demo_globals, w1) /\
   env_open (w_env demo_world) (w_log w1) SPI_PATH = true) /\
  wp (main 2) (fun _ w' => exists es,
       uinput_stream (w_log w') = uinput_stream (w_log demo_world) ++ es /\
       Forall (fun e => event_well_typed e /\ key_code_of (table demo_globals) e) es) demo_world.
Proof.
  intros w1. split; [split; [vm_compute; reflexivity|reflexivity]|].
  apply (main_events_well_typed 2 demo_world demo_globals w1); [vm_compute; reflexivity|reflexivity].
Defined.
