(* ===== verification/Program.v ===== *)
(** * The whole program: [main] to its last line

    [Driver.main n] follows [main] (lines 147-208 of
    [src/gamepad_driver.c]) until it has completed [n] rounds of the
    loop.  Here [main_program fuel] is the function as written, the
    teardown after [while (1)] included (lines 210-213: [UI_DEV_DESTROY],
    the two [close]s, [return 0]); [while_true] follows the loop for
    [fuel] rounds and then reports the process as [Running].

    [safe P S D m] is a small program logic for safety over the
    platform monad: every log entry [m] appends satisfies [P], an exit
    status satisfies [S] and a result satisfies [D].  Its rules follow
    the monad's constructs and the system calls (hint database
    [safety], tactic [safe_solve]); each component of the driver is
    shown safe by them. *)

From Stdlib Require Import ZArith String Lia.
From stdpp Require Import base list strings.
From S2P Require Import Prelude Linux Platform CString Adc Config Gpio Emitter Driver.

Open Scope Z_scope.
Open Scope gamepad_scope.

(** ** The code after the loop *)

(** [ioctl(ufd, UI_DEV_DESTROY); close(ufd); close(spi_fd); return 0;] *)
Definition teardown (spi_fd ufd : Z) : M unit :=
  sys_ioctl ufd UI_DEV_DESTROY ;;
  sys_close ufd ;;
  sys_close spi_fd ;;
  exit_main 0.

(** [main] as written, with the loop followed for [fuel] rounds. *)
Definition main_program (fuel : nat) : M unit :=
  g <- load_config CONFIG_PATH globals_init ;;
  spi_fd <- sys_open SPI_PATH ;;
  if spi_fd <? 0 then sys_print "SPI open" ;; exit_main 1 else
  sys_ioctl spi_fd (SPI_IOC_WR_MAX_SPEED_HZ MAX_SPEED) ;;
  mfor (table g) (fun b => _ <- export_gpio (bc_gpio b) ;; ret tt) ;;
  ufd <- uinput_setup (table g) ;;
  while_true fuel (cycle spi_fd ufd (table g)) ;;
  teardown spi_fd ufd.

(** The log entry that destroys the virtual device. *)
Definition destroys (e : sysev) : bool :=
  match e with SysIoctl _ UI_DEV_DESTROY => true | _ => false end.

Definition keeps_device (e : sysev) : Prop := destroys e = false.

(** ** A program logic for safety *)

Definition safe {A} (P : sysev -> Prop) (S : Z -> Prop) (D : A -> Prop) (m : M A) : Prop :=
  forall w,
    match (m w).1 with
    | Done a => D a
    | Exited s => S s
    | _ => True
    end /\
    exists l, w_log (m w).2 = w_log w ++ l /\ Forall P l.

(** The postcondition that says nothing about a result. *)
Definition always {A} (_ : A) : Prop := True.

Section Rules.
Context (P : sysev -> Prop) (S : Z -> Prop).

Lemma safe_ret {A} (D : A -> Prop) a : D a -> safe P S D (ret a).
Proof. intros Ha w. split; [exact Ha|exists []; rewrite app_nil_r; done]. Qed.

Lemma safe_bind {A B} (D1 : A -> Prop) (D : B -> Prop) (m : M A) (k : A -> M B) :
  safe P S D1 m -> (forall a, D1 a -> safe P S D (k a)) -> safe P S D (bind m k).
Proof.
  intros Hm Hk w. unfold bind. destruct (Hm w) as [Ho (l1 & E1 & F1)].
  destruct (m w) as [[a| | |] w1]; simpl in *;
    [|split; [exact Ho|exists l1; done]..].
  destruct (Hk a Ho w1) as [Ho2 (l2 & E2 & F2)]. split; [exact Ho2|].
  exists (l1 ++ l2). rewrite E2, E1, <- app_assoc. split; [done|apply Forall_app; done].
Qed.

Lemma safe_exit {A} (D : A -> Prop) s : S s -> safe P S D (exit_main s).
Proof. intros Hs w. split; [exact Hs|exists []; rewrite app_nil_r; done]. Qed.

Lemma safe_undefined {A} (D : A -> Prop) why : safe P S D (undefined why).
Proof. intros w. split; [done|exists []; rewrite app_nil_r; done]. Qed.

Lemma safe_running {A} (D : A -> Prop) : safe P S D running.
Proof. intros w. split; [done|exists []; rewrite app_nil_r; done]. Qed.

(** The endless loop never completes: its result satisfies any [D]. *)
Lemma safe_while_true (D : unit -> Prop) fuel body :
  safe P S always body -> safe P S D (while_true fuel body).
Proof.
  intros Hb. induction fuel as [|fuel IH]; [apply safe_running|].
  apply (safe_bind always); [exact Hb|intros _ _; exact IH].
Qed.

Lemma safe_mfor {B} (l : list B) body :
  (forall b, safe P S always (body b)) -> safe P S always (mfor l body).
Proof.
  intros Hb. induction l as [|b l IH]; [apply safe_ret; exact I|].
  apply (safe_bind always); [apply Hb|intros _ _; exact IH].
Qed.

Lemma safe_mfoldl {A B} (body : A -> B -> M A) l acc :
  (forall a b, safe P S always (body a b)) -> safe P S always (mfoldl body l acc).
Proof.
  intros Hb. revert acc. induction l as [|b l IH]; intros acc; [apply safe_ret; exact I|].
  apply (safe_bind always); [apply Hb|intros a _; apply IH].
Qed.

(** One log entry, no exit: the shape of every system call. *)
Lemma safe_one_entry {A} (m : M A) :
  (forall w, exists e a, w_log (m w).2 = w_log w ++ [e] /\ (m w).1 = Done a /\ P e) ->
  safe P S always m.
Proof.
  intros Hm w. destruct (Hm w) as (e & a & Hw & Ha & He). rewrite Ha. split; [exact I|].
  exists [e]. split; [exact Hw|constructor; [exact He|constructor]].
Qed.

Ltac one_entry := intros HP; apply safe_one_entry; intros w; eexists _, _;
  (split; [reflexivity|split; [reflexivity|apply HP]]).

Lemma safe_sys_open path : (forall fd, P (SysOpen path fd)) -> safe P S always (sys_open path).
Proof.
  intros HP. apply safe_one_entry. intros w. unfold sys_open.
  destruct (env_open _ _ _); eexists _, _; (split; [reflexivity|split; [reflexivity|apply HP]]).
Qed.

Lemma safe_sys_close fd : P (SysClose fd) -> safe P S always (sys_close fd).
Proof. intros HP. apply safe_one_entry. intros w. exists (SysClose fd), tt. done. Qed.

Lemma safe_sys_access path : (forall ok, P (SysAccess path ok)) -> safe P S always (sys_access path).
Proof. one_entry. Qed.

Lemma safe_sys_read1 fd : (forall t r, P (SysRead t r)) -> safe P S always (sys_read1 fd).
Proof. one_entry. Qed.

Lemma safe_sys_write fd d : (forall t, P (SysWrite t d)) -> safe P S always (sys_write fd d).
Proof. one_entry. Qed.

Lemma safe_sys_ioctl fd r : (forall t, P (SysIoctl t r)) -> safe P S always (sys_ioctl fd r).
Proof. one_entry. Qed.

Lemma safe_sys_spi_message fd tr :
  (forall t r, P (SysSpiMessage t tr r)) -> safe P S always (sys_spi_message fd tr).
Proof. one_entry. Qed.

Lemma safe_sys_gettimeofday : (forall tv, P (SysGetTime tv)) -> safe P S always sys_gettimeofday.
Proof. one_entry. Qed.

Lemma safe_sys_usleep us : P (SysSleep us) -> safe P S always (sys_usleep us).
Proof. intros HP. apply safe_one_entry. intros w. exists (SysSleep us), tt. done. Qed.

Lemma safe_sys_print str : P (SysPrint str) -> safe P S always (sys_print str).
Proof. intros HP. apply safe_one_entry. intros w. exists (SysPrint str), tt. done. Qed.

Lemma safe_sys_fopen_read path :
  (forall ok, P (SysFopen path ok)) -> safe P S always (sys_fopen_read path).
Proof. one_entry. Qed.

End Rules.

Create HintDb safety.
#[export] Hint Resolve safe_exit safe_undefined safe_running safe_sys_open safe_sys_close
  safe_sys_access safe_sys_read1 safe_sys_write safe_sys_ioctl safe_sys_spi_message
  safe_sys_gettimeofday safe_sys_usleep safe_sys_print safe_sys_fopen_read : safety.
#[export] Hint Extern 1 (always _) => exact I : safety.
#[export] Hint Extern 1 (keeps_device _) => reflexivity : safety.

(** Decompose a program along its binds, branches and loops; the leaves
    are system calls and exits, whose side conditions on the log entry
    are closed by computation. *)
Ltac safe_solve :=
  repeat (cbv zeta;
    match goal with
    | |- safe _ _ _ (bind (while_true _ _) _) =>
        apply (safe_bind _ _ (fun _ => False)); [apply safe_while_true|intros ? []]
    | |- safe _ _ _ (bind _ _) => apply (safe_bind _ _ always); [|intros ? _]
    | |- safe _ _ _ (ret _) => apply safe_ret; try exact I
    | |- safe _ _ _ (mfor _ _) => apply safe_mfor; intros ?
    | |- safe _ _ _ (mfoldl _ _ _) => apply safe_mfoldl; intros ? ?
    | |- safe _ _ _ (match ?x with _ => _ end) => destruct x
    | |- safe _ _ _ _ => solve [eauto with safety]
    end).

(** ** Every component leaves the device alone *)

Section Components.
Context (S : Z -> Prop).

Lemma safe_load_config path g : safe keeps_device S always (load_config path g).
Proof. unfold load_config, config_line. safe_solve. Qed.

Lemma safe_export_gpio gpio : safe keeps_device S always (export_gpio gpio).
Proof. unfold export_gpio. safe_solve. Qed.

Lemma safe_uinput_setup btns : safe keeps_device S always (uinput_setup btns).
Proof. unfold uinput_setup. safe_solve. Qed.

Lemma safe_cycle spi_fd ufd btns : safe keeps_device S always (cycle spi_fd ufd btns).
Proof. unfold cycle, read_adc, read_gpio, emit. safe_solve. Qed.

End Components.

#[export] Hint Resolve safe_load_config safe_export_gpio safe_uinput_setup safe_cycle : safety.

(** C8: the teardown after [while (1)] is dead code: on every run, for
    any number of rounds, no log entry destroys the virtual device,
    [main] never returns, and the only exit is [return 1] when the SPI
    device does not open. *)
Theorem main_program_never_tears_down fuel :
  safe keeps_device (fun s => s = 1) (fun _ => False) (main_program fuel).
Proof. unfold main_program, teardown. safe_solve. Qed.
